(** * PII detection and masking: a shallow embedding of [detector_ashish_gahukar.py]

    The development follows the Python source function by function.

    - Text is [string]; a character is one of the code points U+0000..U+00FF
      and the character classes ([\d], [\w], [\b], whitespace) are the ones
      Python's [re] and [str] use on that range.
    - A JSON object is an association list in insertion order (a Python
      [dict]); its values are strings, integers, booleans and null.
    - The regular expressions of the source are terms of a small syntax and
      run on a backtracking matcher with Python's priorities (leftmost
      match, greedy repetition). *)

From Stdlib Require Import Bool Arith Lia List ZArith Ascii String.
From Stdlib Require Import DecimalString.
Import ListNotations.
Open Scope string_scope.
Open Scope nat_scope.

Set Implicit Arguments.

(* ================================================================== *)
(** ** Characters *)

Module Char.

Definition code (c : ascii) : nat := nat_of_ascii c.

Definition between (lo hi : nat) (c : ascii) : bool :=
  (lo <=? code c) && (code c <=? hi).

Definition eq (x c : ascii) : bool := Ascii.eqb x c.

(** [\d]: on U+0000..U+00FF the decimal digits are 0-9 only. *)
Definition digit : ascii -> bool := between 48 57.
Definition upper : ascii -> bool := between 65 90.
Definition lower : ascii -> bool := between 97 122.
Definition alpha (c : ascii) : bool := upper c || lower c.
Definition alnum (c : ascii) : bool := alpha c || digit c.

(** [\w]: alphanumerics and the underscore; above U+007F the letters and
    numeric characters of Latin-1. *)
Definition word (c : ascii) : bool :=
  alnum c || eq "_" c
  || eq "170" c || eq "178" c || eq "179" c || eq "181" c
  || eq "185" c || eq "186" c || between 188 190 c
  || between 192 214 c || between 216 246 c || between 248 255 c.

(** Whitespace of [str.strip] and [str.split]. *)
Definition space (c : ascii) : bool :=
  between 9 13 c || between 28 32 c || eq "133" c || eq "160" c.

(** [.] matches everything but a line feed. *)
Definition dot (c : ascii) : bool := negb (eq "010" c).

(** The double quote, U+0022. *)
Definition dquote : ascii := "034"%char.

Definition one_of (s : string) (c : ascii) : bool :=
  existsb (eq c) (list_ascii_of_string s).

End Char.

(* ================================================================== *)
(** ** Python string operations *)

Module Str.

(** [s[:n]] *)
Fixpoint take (n : nat) (s : string) : string :=
  match n, s with
  | S n', String c s' => String c (take n' s')
  | _, _ => ""
  end.

(** [s[n:]] *)
Fixpoint drop (n : nat) (s : string) : string :=
  match n, s with
  | S n', String _ s' => drop n' s'
  | _, _ => s
  end.

(** [s[-n:]] for [n > 0] *)
Definition last_n (n : nat) (s : string) : string :=
  drop (length s - n) s.

(** [c * n] *)
Fixpoint rep (c : ascii) (n : nat) : string :=
  match n with
  | O => ""
  | S n' => String c (rep c n')
  end.

(** [c in s] *)
Fixpoint contains (c : ascii) (s : string) : bool :=
  match s with
  | "" => false
  | String x s' => Ascii.eqb x c || contains c s'
  end.

Fixpoint all (p : ascii -> bool) (s : string) : bool :=
  match s with
  | "" => true
  | String x s' => p x && all p s'
  end.

(** [s.replace(a, b)] for single characters *)
Fixpoint replace (a b : ascii) (s : string) : string :=
  match s with
  | "" => ""
  | String x s' => String (if Ascii.eqb x a then b else x) (replace a b s')
  end.

(** [s.split(c, 1)[1]], for [s] that contains [c] *)
Fixpoint after_first (c : ascii) (s : string) : string :=
  match s with
  | "" => ""
  | String x s' => if Ascii.eqb x c then s' else after_first c s'
  end.

Fixpoint lstrip (s : string) : string :=
  match s with
  | String x s' => if Char.space x then lstrip s' else s
  | "" => ""
  end.

(** Drops trailing whitespace: a whitespace character is kept only when
    something remains after it. *)
Fixpoint rstrip (s : string) : string :=
  match s with
  | "" => ""
  | String x s' =>
      match rstrip s' with
      | "" => if Char.space x then "" else String x ""
      | t => String x t
      end
  end.

(** [s.strip()] *)
Definition strip (s : string) : string := rstrip (lstrip s).

(** [s.split()]: the maximal runs of non-whitespace characters. [cur] is
    the run being read, or [None] between runs. *)
Fixpoint split_go (cur : option string) (s : string) : list string :=
  match s with
  | "" => match cur with Some w => [w] | None => [] end
  | String x s' =>
      if Char.space x then
        match cur with
        | Some w => w :: split_go None s'
        | None => split_go None s'
        end
      else
        match cur with
        | Some w => split_go (Some (w ++ String x "")) s'
        | None => split_go (Some (String x "")) s'
        end
  end.

Definition split (s : string) : list string := split_go None s.

(** [sep.join(parts)] *)
Definition join (sep : string) (parts : list string) : string :=
  String.concat sep parts.

End Str.

(* ================================================================== *)
(** ** Regular expressions

    The syntax covers what the seven patterns of the source use. The
    matcher is written in continuation-passing style: the continuation is
    "the rest of the pattern", and a [None] from it makes the matcher try
    its next alternative, which is how [re] backtracks. *)

Module Re.

Inductive regex : Type :=
| Eps
| Chr (p : ascii -> bool)                        (* a literal, a class or an escape *)
| Bnd                                            (* \b *)
| Cat (r1 r2 : regex)
| Rep (p : ascii -> bool) (lo : nat) (hi : option nat)  (* greedy p{lo,hi} *)
| Grp (i : nat) (r : regex).                     (* the i-th capturing group *)

(** [(?:r){n}] *)
Fixpoint times (n : nat) (r : regex) : regex :=
  match n with
  | O => Eps
  | S n' => Cat r (times n' r)
  end.

Definition caps := list (nat * string).

Fixpoint get_group (i : nat) (cs : caps) : option string :=
  match cs with
  | [] => None
  | (j, t) :: cs' => if i =? j then Some t else get_group i cs'
  end.

Definition set_group (i : nat) (t : string) (cs : caps) : caps := (i, t) :: cs.

Definition word_opt (c : option ascii) : bool :=
  match c with Some x => Char.word x | None => false end.

Definition first (s : string) : option ascii :=
  match s with String c _ => Some c | "" => None end.

Definition more (hi : option nat) : bool :=
  match hi with Some O => false | _ => true end.

Definition dec (hi : option nat) : option nat :=
  match hi with Some n => Some (pred n) | None => None end.

Section Matcher.
Variable A : Type.

(** previous character, remaining text, captures so far *)
Definition kont := option ascii -> string -> caps -> option A.

(** Greedy repetition of a character class: take one more character
    while allowed, and fall back to stopping here. *)
Fixpoint rep (p : ascii -> bool) (lo : nat) (hi : option nat)
         (prev : option ascii) (s : string) (cs : caps) (k : kont)
         {struct s} : option A :=
  let stop := if lo =? 0 then k prev s cs else None in
  match s with
  | String c s' =>
      if p c && more hi then
        match rep p (pred lo) (dec hi) (Some c) s' cs k with
        | Some a => Some a
        | None => stop
        end
      else stop
  | "" => stop
  end.

Fixpoint run (r : regex) (prev : option ascii) (s : string) (cs : caps)
         (k : kont) {struct r} : option A :=
  match r with
  | Eps => k prev s cs
  | Chr p =>
      match s with
      | String c s' => if p c then k (Some c) s' cs else None
      | "" => None
      end
  | Bnd => if xorb (word_opt prev) (word_opt (first s)) then k prev s cs else None
  | Cat r1 r2 => run r1 prev s cs (fun prev' s' cs' => run r2 prev' s' cs' k)
  | Rep p lo hi => rep p lo hi prev s cs k
  | Grp i r1 =>
      run r1 prev s cs
          (fun prev' s' cs' =>
             k prev' s' (set_group i (Str.take (length s - length s') s) cs'))
  end.
End Matcher.

(** A match object: where group 0 starts, and the groups' texts. *)
Record rmatch : Type := { m_start : nat; m_groups : caps }.

(** [m.group(i)] *)
Definition group (m : rmatch) (i : nat) : string :=
  match get_group i (m_groups m) with Some t => t | None => "" end.

(** A match that starts exactly here: its length and its groups. *)
Definition match_here (r : regex) (prev : option ascii) (s : string)
  : option (nat * caps) :=
  run r prev s []
      (fun _ s' cs =>
         let n := length s - length s' in
         Some (n, set_group 0 (Str.take n s) cs)).

Fixpoint search_from (r : regex) (prev : option ascii) (s : string) (pos : nat)
  : option rmatch :=
  match match_here r prev s with
  | Some (_, cs) => Some {| m_start := pos; m_groups := cs |}
  | None =>
      match s with
      | String c s' => search_from r (Some c) s' (S pos)
      | "" => None
      end
  end.

(** [r.search(s)] *)
Definition search (r : regex) (s : string) : option rmatch :=
  search_from r None s 0.

Definition matches (r : regex) (s : string) : bool :=
  match search r s with Some _ => true | None => false end.

(** [r.sub(repl, s)]: [skip] counts the characters of the current match
    still to be passed over. *)
Fixpoint sub_from (r : regex) (repl : rmatch -> string) (prev : option ascii)
         (s : string) (pos skip : nat) : string :=
  match skip with
  | S skip' =>
      match s with
      | String c s' => sub_from r repl (Some c) s' (S pos) skip'
      | "" => ""
      end
  | O =>
      match match_here r prev s with
      | Some (n, cs) =>
          repl {| m_start := pos; m_groups := cs |} ++
          match s with
          | String c s' =>
              match n with
              | O => String c (sub_from r repl (Some c) s' (S pos) 0)
              | S n' => sub_from r repl (Some c) s' (S pos) n'
              end
          | "" => ""
          end
      | None =>
          match s with
          | String c s' => String c (sub_from r repl (Some c) s' (S pos) 0)
          | "" => ""
          end
      end
  end.

Definition sub (r : regex) (repl : rmatch -> string) (s : string) : string :=
  sub_from r repl None s 0 0.

End Re.

Import Re.

(* ================================================================== *)
(** ** The patterns of the source *)

Definition local_char (c : ascii) : bool := Char.alnum c || Char.one_of "._%+-" c.
Definition domain_char (c : ascii) : bool := Char.alnum c || Char.one_of ".-" c.
Definition upi_user_char (c : ascii) : bool := Char.alnum c || Char.one_of "._%-" c.

(** [\b(\d{10})\b] *)
Definition PHONE_RE : regex :=
  Cat Bnd (Cat (Grp 1 (Rep Char.digit 10 (Some 10))) Bnd).

(** [\b(\d{12})\b] *)
Definition AADHAR_RE : regex :=
  Cat Bnd (Cat (Grp 1 (Rep Char.digit 12 (Some 12))) Bnd).

(** [\b([A-Z]{1}\d{7})\b] with [re.I]: the flag lets [[A-Z]] take both cases. *)
Definition PASSPORT_RE : regex :=
  Cat Bnd (Cat (Grp 1 (Cat (Rep Char.alpha 1 (Some 1)) (Rep Char.digit 7 (Some 7)))) Bnd).

(** [\b([A-Za-z0-9._%+-]+)@([A-Za-z0-9.-]+\.[A-Za-z]{2,})\b] *)
Definition EMAIL_RE : regex :=
  Cat Bnd
      (Cat (Grp 1 (Rep local_char 1 None))
           (Cat (Chr (Char.eq "@"))
                (Cat (Grp 2 (Cat (Rep domain_char 1 None)
                                 (Cat (Chr (Char.eq "."))
                                      (Rep Char.alpha 2 None))))
                     Bnd))).

(** [\b([A-Za-z0-9._%-]{2,})@([A-Za-z0-9]{2,})\b] with [re.I] *)
Definition UPI_RE : regex :=
  Cat Bnd
      (Cat (Grp 1 (Rep upi_user_char 2 None))
           (Cat (Chr (Char.eq "@"))
                (Cat (Grp 2 (Rep Char.alnum 2 None)) Bnd))).

(** [\b((?:\d{1,3}\.){3}\d{1,3})\b] *)
Definition IPV4_RE : regex :=
  Cat Bnd
      (Cat (Grp 1 (Cat (times 3 (Cat (Rep Char.digit 1 (Some 3)) (Chr (Char.eq "."))))
                       (Rep Char.digit 1 (Some 3))))
           Bnd).

(** [\D] and [.] of the two inline [re.sub] calls *)
Definition NON_DIGIT_RE : regex := Chr (fun c => negb (Char.digit c)).
Definition ANY_RE : regex := Chr Char.dot.

(* ================================================================== *)
(** ** Maskers *)

Definition REDACTED_PII : string := "[REDACTED_PII]".

(** [re.sub(r'\D', '', s)] *)
Definition digits_of (s : string) : string := sub NON_DIGIT_RE (fun _ => "") s.

Definition mask_phone (p : string) : string :=
  let s := digits_of p in
  if length s =? 10 then Str.take 2 s ++ "XXXXXX" ++ Str.last_n 2 s
  else REDACTED_PII.

Definition mask_aadhar (a : string) : string :=
  let s := digits_of a in
  if length s =? 12 then Str.take 4 s ++ "XXXX" ++ Str.last_n 4 s
  else REDACTED_PII.

(** [v[0]] and [v[-1]] are written as one-character slices; the test on the
    length guards them. *)
Definition mask_passport (p : string) : string :=
  match search PASSPORT_RE p with
  | Some m =>
      let v := group m 1 in
      if 4 <=? length v
      then Str.take 1 v ++ Str.rep "X" (length v - 2) ++ Str.last_n 1 v
      else REDACTED_PII
  | None => REDACTED_PII
  end.

(** [local[0]] is written as the one-character slice [local[:1]]: group 1 of
    a match is never empty ([email_local_nonempty]). *)
Definition mask_email (e : string) : string :=
  match search EMAIL_RE e with
  | Some m =>
      let local := group m 1 in
      let domain := group m 2 in
      let local_masked :=
        if length local <=? 2 then Str.take 1 local ++ "X"
        else Str.take 2 local ++ Str.rep "X" (Nat.max 3 (length local - 2)) in
      local_masked ++ "@" ++ domain
  | None => REDACTED_PII
  end.

(** [user[0]] likewise ([upi_user_nonempty]). *)
Definition mask_upi (u : string) : string :=
  match search UPI_RE u with
  | Some m =>
      let user := group m 1 in
      let host := group m 2 in
      let user_masked :=
        if length user <=? 2 then Str.take 1 user ++ "X"
        else Str.take 2 user ++ Str.rep "X" (Nat.max 3 (length user - 2)) in
      user_masked ++ "@" ++ host
  | None => REDACTED_PII
  end.

(** [m.group(1).split('.')]: the match has exactly three dots, so the split
    has four parts and the last one is what follows the third dot. *)
Fixpoint split_on (c : ascii) (cur : string) (s : string) : list string :=
  match s with
  | "" => [cur]
  | String x s' =>
      if Ascii.eqb x c then cur :: split_on c "" s'
      else split_on c (cur ++ String x "") s'
  end.

Definition mask_ip (ip : string) : string :=
  match search IPV4_RE ip with
  | Some m =>
      let parts := split_on "." "" (group m 1) in
      if List.length parts =? 4
      then Str.join "." (firstn 3 parts ++ ["XXX"])
      else REDACTED_PII
  | None => REDACTED_PII
  end.

Definition mask_token (p : string) : string :=
  if length p <=? 1 then "X" else Str.take 1 p ++ Str.rep "X" (length p - 1).

Definition mask_generic_name (name : string) : string :=
  let s := Str.strip name in
  let parts := Str.split s in
  if 2 <=? List.length parts then Str.join " " (map mask_token parts)
  else s.

(* ================================================================== *)
(** ** Records *)

Inductive value : Type :=
| VStr (s : string)
| VInt (z : Z)
| VBool (b : bool)
| VNull.

(** [str(v)] *)
Definition py_str (v : value) : string :=
  match v with
  | VStr s => s
  | VInt z => NilZero.string_of_int (Z.to_int z)
  | VBool true => "True"
  | VBool false => "False"
  | VNull => "None"
  end.

(** The truth value Python gives [v] in a condition. *)
Definition truthy (v : value) : bool :=
  match v with
  | VStr s => negb (String.eqb s "")
  | VInt z => negb (Z.eqb z 0)
  | VBool b => b
  | VNull => false
  end.

(** A [dict]: keys in insertion order, each key once. *)
Definition dict : Type := list (string * value).

Definition keys (d : dict) : list string := map fst d.

Fixpoint dict_get (k : string) (d : dict) : option value :=
  match d with
  | [] => None
  | (k', v) :: d' => if String.eqb k k' then Some v else dict_get k d'
  end.

(** [k in d] *)
Definition dict_mem (k : string) (d : dict) : bool :=
  match dict_get k d with Some _ => true | None => false end.

(** [d.get(k, dflt)] *)
Definition get_or (d : dict) (k : string) (dflt : value) : value :=
  match dict_get k d with Some v => v | None => dflt end.

(** [d.get(k)] *)
Definition get (d : dict) (k : string) : value := get_or d k VNull.

(** [d[k] = v]: an existing key keeps its place, a new key goes last. *)
Fixpoint dict_set (k : string) (v : value) (d : dict) : dict :=
  match d with
  | [] => [(k, v)]
  | (k', v') :: d' =>
      if String.eqb k k' then (k', v) :: d' else (k', v') :: dict_set k v d'
  end.

(** [for k, v in items: state = body(k, v, state)] *)
Definition for_items (S : Type) (body : string -> value -> S -> S)
           (items : dict) (s : S) : S :=
  fold_left (fun acc kv => body (fst kv) (snd kv) acc) items s.

(* ================================================================== *)
(** ** detect_and_mask *)

(** The working copy and the flag a rule may raise. *)
Definition scan : Type := (dict * bool)%type.

(** [redacted[k] = s; flag = True] *)
Definition mark (k : string) (s : string) (x : scan) : scan :=
  (dict_set k (VStr s) (fst x), true).

Definition phone_fields : list string := ["phone"; "contact"].

Definition phone_repl (m : rmatch) : string := mask_phone (group m 1).
Definition aadhar_repl (m : rmatch) : string := mask_aadhar (group m 1).
Definition passport_repl (m : rmatch) : string := mask_passport (group m 1).
Definition upi_repl (m : rmatch) : string := mask_upi (group m 0).
Definition email_repl (m : rmatch) : string := mask_email (group m 0).
Definition ip_repl (m : rmatch) : string := mask_ip (group m 1).

(** Lines 81-86 *)
Definition rule_phone_fields (record : dict) (x : scan) : scan :=
  fold_left
    (fun x f =>
       if dict_mem f record && truthy (get record f) then
         if matches PHONE_RE (py_str (get record f))
         then mark f (mask_phone (py_str (get record f))) x
         else x
       else x)
    phone_fields x.

(** Lines 87-91 *)
Definition rule_phone_any (record : dict) (x : scan) : scan :=
  for_items
    (fun k v x =>
       match v with
       | VStr s =>
           if matches PHONE_RE s then
             if negb (dict_mem k (fst x))
                || negb (Str.contains "X" (py_str (get_or (fst x) k (VStr ""))))
             then mark k (sub PHONE_RE phone_repl s) x
             else x
           else x
       | _ => x
       end)
    record x.

(** Lines 93-96 *)
Definition rule_aadhar (record : dict) (x : scan) : scan :=
  for_items
    (fun k v x =>
       match v with
       | VStr s => if matches AADHAR_RE s then mark k (sub AADHAR_RE aadhar_repl s) x else x
       | _ => x
       end)
    record x.

(** Lines 98-101 *)
Definition rule_passport (record : dict) (x : scan) : scan :=
  for_items
    (fun k v x =>
       match v with
       | VStr s => if matches PASSPORT_RE s then mark k (sub PASSPORT_RE passport_repl s) x else x
       | _ => x
       end)
    record x.

(** Lines 103-113 *)
Definition rule_upi (record : dict) (x : scan) : scan :=
  if dict_mem "upi_id" record && truthy (get record "upi_id") then
    if matches UPI_RE (py_str (get record "upi_id"))
    then mark "upi_id" (mask_upi (py_str (get record "upi_id"))) x
    else x
  else
    for_items
      (fun k v x =>
         match v with
         | VStr s =>
             if Str.contains "@" s && matches UPI_RE s then
               let rhs := Str.after_first "@" s in
               if negb (Str.contains "." rhs)
               then mark k (sub UPI_RE upi_repl s) x
               else x
             else x
         | _ => x
         end)
      record x.

(** Check A, lines 79-113: [standalone_found] starts false. *)
Definition check_standalone (record redacted : dict) : scan :=
  rule_upi record
    (rule_passport record
       (rule_aadhar record
          (rule_phone_any record
             (rule_phone_fields record (redacted, false))))).

(** Lines 115-119 *)
Definition rule_email (record redacted : dict) : scan :=
  for_items
    (fun k v x =>
       match v with
       | VStr s => if matches EMAIL_RE s then mark k (sub EMAIL_RE email_repl s) x else x
       | _ => x
       end)
    record (redacted, false).

Definition has_tokens (n : nat) (v : value) : bool :=
  n <=? List.length (Str.split (py_str v)).

Definition both_names (record : dict) : bool :=
  truthy (get record "first_name") && truthy (get record "last_name").

(** Lines 121-128 *)
Definition rule_name (record redacted : dict) : scan :=
  if both_names record
     || (truthy (get record "name") && has_tokens 2 (get record "name"))
  then
    let redacted :=
      if both_names record then
        dict_set "last_name" (VStr (mask_generic_name (py_str (get record "last_name"))))
          (dict_set "first_name" (VStr (mask_generic_name (py_str (get record "first_name"))))
             redacted)
      else redacted in
    let redacted :=
      if truthy (get record "name")
      then dict_set "name" (VStr (mask_generic_name (py_str (get record "name")))) redacted
      else redacted in
    (redacted, true)
  else (redacted, false).

Definition REDACTED_PII_ADDRESS : string := "[REDACTED_PII_ADDRESS]".

Definition mask_pin (pin : string) : string :=
  if 3 <? length pin then Str.take 2 pin ++ "XXX" else "XXX".

(** Lines 130-136 *)
Definition rule_address (record redacted : dict) : scan :=
  if truthy (get record "address") && truthy (get record "city")
     && truthy (get record "pin_code")
  then
    let pc := digits_of (py_str (get record "pin_code")) in
    if 5 <=? length pc then
      (dict_set "pin_code" (VStr (mask_pin (py_str (get record "pin_code"))))
         (dict_set "address" (VStr REDACTED_PII_ADDRESS) redacted),
       true)
    else (redacted, false)
  else (redacted, false).

(** [re.sub(r'.', 'X', s)] *)
Definition mask_device (s : string) : string := sub ANY_RE (fun _ => "X") s.

(** Lines 138-145 *)
Definition rule_device (record redacted : dict) : scan :=
  if truthy (get record "device_id") || truthy (get record "ip_address") then
    let x :=
      if truthy (get record "device_id")
      then mark "device_id" (mask_device (py_str (get record "device_id"))) (redacted, false)
      else (redacted, false) in
    if truthy (get record "ip_address")
    then mark "ip_address" (mask_ip (py_str (get record "ip_address"))) x
    else x
  else (redacted, false).

(** The evidence gathered on one record. *)
Record Evidence : Type := {
  standalone_found : bool;
  name_present : bool;
  email_present : bool;
  address_present : bool;
  device_present : bool
}.

(** Lines 78-145: the working copy after every rule, and the evidence. *)
Definition gather (record : dict) : dict * Evidence :=
  let redacted := record in
  let a := check_standalone record redacted in
  let e := rule_email record (fst a) in
  let n := rule_name record (fst e) in
  let d := rule_address record (fst n) in
  let v := rule_device record (fst d) in
  (fst v,
   {| standalone_found := snd a;
      name_present := snd n;
      email_present := snd e;
      address_present := snd d;
      device_present := snd v |}).

(** Lines 147-155 *)
Definition combinatorial_count (ev : Evidence) : nat :=
  let c := 0 in
  let c := if name_present ev then c + 1 else c in
  let c := if email_present ev then c + 1 else c in
  let c := if address_present ev then c + 1 else c in
  let c := if device_present ev then c + 1 else c in
  c.

(** Lines 157-158 *)
Definition verdict (ev : Evidence) : bool :=
  let combinatorial_pii := 2 <=? combinatorial_count ev in
  standalone_found ev || combinatorial_pii.

(** Lines 160-171 *)
Definition reconcile (record redacted : dict) : dict :=
  let redacted :=
    for_items
      (fun k v red =>
         match v with
         | VStr s =>
             if matches EMAIL_RE s then
               if dict_mem k red then dict_set k v red else red
             else red
         | _ => red
         end)
      record redacted in
  let redacted :=
    if truthy (get record "name") && negb (has_tokens 2 (get record "name"))
    then dict_set "name" (get record "name") redacted
    else redacted in
  if (truthy (get record "first_name") && negb (truthy (get record "last_name")))
     || (truthy (get record "last_name") && negb (truthy (get record "first_name")))
  then
    let redacted :=
      if dict_mem "first_name" redacted
      then dict_set "first_name" (get record "first_name") redacted
      else redacted in
    if dict_mem "last_name" redacted
    then dict_set "last_name" (get record "last_name") redacted
    else redacted
  else redacted.

(** The body of the loop at lines 174-185 for one item: every test and every
    substitution reads the item's value [s] as the loop yielded it. *)
Definition finalize_item (k : string) (s : string) (red : dict) : dict :=
  let red := if matches PHONE_RE s then dict_set k (VStr (sub PHONE_RE phone_repl s)) red else red in
  let red := if matches AADHAR_RE s then dict_set k (VStr (sub AADHAR_RE aadhar_repl s)) red else red in
  let red := if matches PASSPORT_RE s then dict_set k (VStr (sub PASSPORT_RE passport_repl s)) red else red in
  let red := if matches EMAIL_RE s then dict_set k (VStr (sub EMAIL_RE email_repl s)) red else red in
  let red := if matches IPV4_RE s then dict_set k (VStr (sub IPV4_RE ip_repl s)) red else red in
  red.

(** Lines 173-185. The loop writes only the key it is visiting, after it has
    read that key's value, so it yields the values the dict had on entry. *)
Definition finalize (redacted : dict) : dict :=
  for_items
    (fun k v red => match v with VStr s => finalize_item k s red | _ => red end)
    redacted redacted.

(** Lines 187-194: [json.dumps] accepts every [value], so each item is copied. *)
Definition json_clean (redacted : dict) : dict :=
  for_items (fun k v clean => dict_set k v clean) redacted [].

Definition detect_and_mask (record : dict) : dict * bool :=
  let '(redacted, ev) := gather record in
  let is_pii := verdict ev in
  let redacted := if negb is_pii then reconcile record redacted else redacted in
  let redacted := if is_pii then finalize redacted else redacted in
  (json_clean redacted, is_pii).

Definition evidence (record : dict) : Evidence := snd (gather record).

(* ================================================================== *)
(** ** main: the rows of the batch *)

(** [json.dumps(d, ensure_ascii=False)] *)
Module Json.

Definition hex_digit (n : nat) : ascii :=
  if n <? 10 then ascii_of_nat (48 + n) else ascii_of_nat (87 + n).

Definition escape (c : ascii) : string :=
  if Char.eq c Char.dquote then String "\" (String Char.dquote "")
  else if Char.eq c "\" then "\\"
  else if Char.eq c "008" then "\b"
  else if Char.eq c "012" then "\f"
  else if Char.eq c "010" then "\n"
  else if Char.eq c "013" then "\r"
  else if Char.eq c "009" then "\t"
  else if Char.code c <? 32 then
    "\u00" ++ String (hex_digit (Char.code c / 16)) (String (hex_digit (Char.code c mod 16)) "")
  else String c "".

Fixpoint escape_all (s : string) : string :=
  match s with
  | "" => ""
  | String c s' => escape c ++ escape_all s'
  end.

Definition quote (s : string) : string :=
  String Char.dquote (escape_all s ++ String Char.dquote "").

Definition dumps_value (v : value) : string :=
  match v with
  | VStr s => quote s
  | VInt _ => py_str v
  | VBool true => "true"
  | VBool false => "false"
  | VNull => "null"
  end.

Definition dumps (d : dict) : string :=
  "{" ++ Str.join ", " (map (fun kv => quote (fst kv) ++ ": " ++ dumps_value (snd kv)) d) ++ "}".

End Json.

(** A row of [csv.DictReader]: a column holds text, or [None] when the line
    is short. *)
Definition csv_row : Type := list (string * option string).

Fixpoint row_get (k : string) (r : csv_row) : option string :=
  match r with
  | [] => None
  | (k', v) :: r' => if String.eqb k k' then v else row_get k r'
  end.

(** [a or b] on optional text *)
Definition py_or (a b : option string) : option string :=
  match a with
  | Some (String _ _) => a
  | _ => b
  end.

Definition record_id_of (r : csv_row) : option string :=
  py_or (py_or (row_get "record_id" r) (row_get "recordId" r)) (row_get "id" r).

Definition data_json_raw_of (r : csv_row) : option string :=
  py_or (py_or (py_or (row_get "Data_json" r) (row_get "data_json" r)) (row_get "Data" r))
        (row_get "data" r).

Record out_row : Type := {
  record_id : option string;
  redacted_data_json : string;
  is_pii : string
}.

(** What [json.loads] returned: an object of the data model, or some other
    JSON value. *)
Inductive parsed : Type :=
| PObject (d : dict)
| POther.

Section Main.

(** [json.loads]; [None] when it raises. *)
Variable json_loads : string -> option parsed.

(** Lines 221-227 *)
Definition parse_payload (raw : string) : parsed :=
  match json_loads raw with
  | Some p => p
  | None =>
      match json_loads (Str.replace "'" Char.dquote raw) with
      | Some p => p
      | None => PObject []
      end
  end.

(** The body of the loop at lines 214-230; [None] when an exception leaves
    it, which [detect_and_mask] raises on a payload that is not an object. *)
Definition process_row (r : csv_row) : option out_row :=
  let rid := record_id_of r in
  match data_json_raw_of r with
  | None =>
      Some {| record_id := rid;
              redacted_data_json := Json.dumps [];
              is_pii := py_str (VBool false) |}
  | Some raw =>
      match parse_payload raw with
      | PObject record =>
          let '(redacted_dict, pii) := detect_and_mask record in
          Some {| record_id := rid;
                  redacted_data_json := Json.dumps redacted_dict;
                  is_pii := py_str (VBool pii) |}
      | POther => None
      end
  end.

(** [rows_out] after the loop of lines 214-230; [None] when a row stopped it. *)
Fixpoint rows_out (rows : list csv_row) : option (list out_row) :=
  match rows with
  | [] => Some []
  | r :: rows' =>
      match process_row r with
      | Some o =>
          match rows_out rows' with
          | Some os => Some (o :: os)
          | None => None
          end
      | None => None
      end
  end.

End Main.

(* ================================================================== *)
(** ** Auxiliary definitions for the proofs *)

(** [re.sub(r'\D', '', s)] keeps the digits of [s], in order. *)
Fixpoint only_digits (s : string) : string :=
  match s with
  | "" => ""
  | String c s' => if Char.digit c then String c (only_digits s') else only_digits s'
  end.

(** The ten characters [\d] accepts. *)
Definition digit_chars : list ascii :=
  ["0"; "1"; "2"; "3"; "4"; "5"; "6"; "7"; "8"; "9"]%char.

(** A masked phone number built from its four visible digits. *)
Definition masked_phone (a b c d : ascii) : string :=
  String a (String b ("XXXXXX" ++ String c (String d ""))).

Definition masked_phone_stable (a b c d : ascii) : bool :=
  negb (matches PHONE_RE (masked_phone a b c d))
  && String.eqb (sub PHONE_RE phone_repl (masked_phone a b c d)) (masked_phone a b c d).


(** What a successful run of a pattern has consumed and captured: [den r w cs cs']
    reads "[r] matched the text [w] and turned the captures [cs] into [cs']". *)
Inductive den : regex -> string -> caps -> caps -> Prop :=
| den_eps cs : den Eps "" cs cs
| den_chr p c cs : p c = true -> den (Chr p) (String c "") cs cs
| den_bnd cs : den Bnd "" cs cs
| den_cat r1 r2 w1 w2 cs cs1 cs2 :
    den r1 w1 cs cs1 -> den r2 w2 cs1 cs2 -> den (Cat r1 r2) (w1 ++ w2) cs cs2
| den_rep p lo hi w cs :
    lo <= length w -> Str.all p w = true -> den (Rep p lo hi) w cs cs
| den_grp i r w cs cs1 :
    den r w cs cs1 -> den (Grp i r) w cs (set_group i w cs1).

(** [untouched W d d']: going from [d] to [d'] wrote keys in [W] only, and
    kept every key single. *)
Definition untouched (W : string -> Prop) (d d' : dict) : Prop :=
  (forall k, ~ W k -> dict_get k d' = dict_get k d)
  /\ (NoDup (keys d) -> NoDup (keys d')).

(** Some string value under key [k] matches the pattern [r]. *)
Definition hit_by (r : regex) (record : dict) (k : string) : Prop :=
  exists s, In (k, VStr s) record /\ matches r s = true.

(** The recognizers, on one value. *)
Definition value_hit (v : value) : bool :=
  match v with
  | VStr s =>
      matches PHONE_RE s || matches AADHAR_RE s || matches PASSPORT_RE s
      || matches UPI_RE s || matches EMAIL_RE s || matches IPV4_RE s
  | _ => false
  end.

(** The rules that target a field by its name, and when each one fires. *)
Definition rule_fires (record : dict) (k : string) : bool :=
  ((String.eqb k "phone" || String.eqb k "contact")
   && truthy (get record k) && matches PHONE_RE (py_str (get record k)))
  || (String.eqb k "upi_id"
      && truthy (get record k) && matches UPI_RE (py_str (get record k)))
  || ((String.eqb k "first_name" || String.eqb k "last_name") && both_names record)
  || (String.eqb k "name" && truthy (get record k)
      && (both_names record || has_tokens 2 (get record k)))
  || ((String.eqb k "address" || String.eqb k "pin_code")
      && truthy (get record "address") && truthy (get record "city")
      && truthy (get record "pin_code")
      && (5 <=? length (digits_of (py_str (get record "pin_code")))))
  || ((String.eqb k "device_id" || String.eqb k "ip_address") && truthy (get record k)).

(** The keys the rules of lines 79-145 may write. *)
Definition written (record : dict) (k : string) : Prop :=
  hit_by PHONE_RE record k \/ hit_by AADHAR_RE record k
  \/ hit_by PASSPORT_RE record k \/ hit_by UPI_RE record k
  \/ hit_by EMAIL_RE record k \/ rule_fires record k = true.

(** The keys the rollback of lines 160-171 may write. *)
Definition restored (record : dict) (k : string) : Prop :=
  hit_by EMAIL_RE record k \/ k = "name" \/ k = "first_name" \/ k = "last_name".

(* ================================================================== *)
(** ** The records of the worked cases *)

Definition phone_only : dict := [("phone", VStr "9876543210")].

Definition name_and_email : dict :=
  [("name", VStr "John Smith"); ("email", VStr "john.smith@example.com")].

Definition name_only : dict := [("name", VStr "John Smith")].

Definition address_only : dict :=
  [("address", VStr "12 MG Road"); ("city", VStr "Bengaluru");
   ("pin_code", VStr "560001")].

Definition note_with_X : dict := [("note", VStr "ref X 9876543210")].

Definition mixed_record : dict :=
  [("phone", VStr "9876543210"); ("note", VStr "call after six");
   ("age", VInt 41); ("email", VStr "a.b@example.org")].

(** A stand-in for [json.loads] that reads the empty object and nothing else. *)
Definition loads_empty_object (s : string) : option parsed :=
  if String.eqb s "{}" then Some (PObject []) else None.

(** The number of flags that are set. *)
Definition count_true (flags : list bool) : nat :=
  List.length (filter (fun b : bool => b) flags).

(** The output row of a record whose payload could not be read. *)
Definition empty_row (r : csv_row) : out_row :=
  {| record_id := record_id_of r; redacted_data_json := "{}"; is_pii := "False" |}.

(** The match object of [EMAIL_RE.search("to john.smith@example.com.")]. *)
Definition john_smith_match : rmatch :=
  {| m_start := 3;
     m_groups := [(0, "john.smith@example.com"); (2, "example.com"); (1, "john.smith")] |}.

(* ================================================================== *)
(** ** Auxiliary definitions for the further properties *)

(** The upper bound of a repetition. *)
Definition within (hi : option nat) (n : nat) : Prop :=
  match hi with Some h => n <= h | None => True end.

(** [den] with the upper bounds of the repetitions kept. *)
Inductive shape : regex -> string -> caps -> caps -> Prop :=
| shape_eps cs : shape Eps "" cs cs
| shape_chr p c cs : p c = true -> shape (Chr p) (String c "") cs cs
| shape_bnd cs : shape Bnd "" cs cs
| shape_cat r1 r2 w1 w2 cs cs1 cs2 :
    shape r1 w1 cs cs1 -> shape r2 w2 cs1 cs2 -> shape (Cat r1 r2) (w1 ++ w2) cs cs2
| shape_rep p lo hi w cs :
    lo <= length w -> within hi (length w) -> Str.all p w = true ->
    shape (Rep p lo hi) w cs cs
| shape_grp i r w cs cs1 :
    shape r w cs cs1 -> shape (Grp i r) w cs (set_group i w cs1).

(** What [re.sub(r'.', 'X', s)] does to each character. *)
Fixpoint x_out (s : string) : string :=
  match s with
  | "" => ""
  | String c s' => String (if Char.dot c then "X"%char else c) (x_out s')
  end.

Definition x_or_newline (c : ascii) : bool := Char.eq "X" c || Char.eq "010" c.

Definition non_space (c : ascii) : bool := negb (Char.space c).

(** A word as [str.split] yields it: not empty, no whitespace in it. *)
Definition is_token (w : string) : Prop :=
  w <> "" /\ Str.all non_space w = true.

(** The text is empty or its last character is not whitespace. *)
Fixpoint ends_clean (s : string) : bool :=
  match s with
  | "" => true
  | String c "" => non_space c
  | String _ s' => ends_clean s'
  end.

(** A test on the text of a string value; false on other values. *)
Definition on_str (p : string -> bool) (kv : string * value) : bool :=
  match snd kv with VStr s => p s | _ => false end.

(** The test of lines 83-84 on the field [f]. *)
Definition phone_field_hit (record : dict) (f : string) : bool :=
  dict_mem f record && truthy (get record f)
  && matches PHONE_RE (py_str (get record f)).

(** The tests of lines 109-111 on a string value. *)
Definition upi_hit (s : string) : bool :=
  Str.contains "@" s && matches UPI_RE s
  && negb (Str.contains "." (Str.after_first "@" s)).

(** [standalone_found], read off the record alone. *)
Definition standalone_by_record (record : dict) : bool :=
  existsb (phone_field_hit record) phone_fields
  || existsb (on_str (fun s => matches PHONE_RE s && negb (Str.contains "X" s))) record
  || existsb (on_str (matches AADHAR_RE)) record
  || existsb (on_str (matches PASSPORT_RE)) record
  || (if dict_mem "upi_id" record && truthy (get record "upi_id")
      then matches UPI_RE (py_str (get record "upi_id"))
      else existsb (on_str upi_hit) record).

(** The verdict, read off the record alone. *)
Definition pii_by_record (record : dict) : bool :=
  standalone_by_record record
  || (2 <=? count_true
              [ both_names record
                || (truthy (get record "name") && has_tokens 2 (get record "name"));
                existsb (on_str (matches EMAIL_RE)) record;
                truthy (get record "address") && truthy (get record "city")
                && truthy (get record "pin_code")
                && (5 <=? length (only_digits (py_str (get record "pin_code"))));
                truthy (get record "device_id") || truthy (get record "ip_address") ]).

(** What the final pass leaves of a string value: the substitution of the
    last of the five patterns that matches it, applied to the value as read. *)
Definition final_text (s : string) : string :=
  if matches IPV4_RE s then sub IPV4_RE ip_repl s
  else if matches EMAIL_RE s then sub EMAIL_RE email_repl s
  else if matches PASSPORT_RE s then sub PASSPORT_RE passport_repl s
  else if matches AADHAR_RE s then sub AADHAR_RE aadhar_repl s
  else if matches PHONE_RE s then sub PHONE_RE phone_repl s
  else s.

(** The fields the name, address and device rules write. *)
Definition combinatorial_fields : list string :=
  ["name"; "first_name"; "last_name"; "address"; "pin_code"; "device_id"; "ip_address"].

(** A digit or an at sign: every pattern needs one of them. *)
Definition digit_or_at (c : ascii) : bool := Char.digit c || Char.eq "@" c.

(** The character before the position reached once [w] has been read. *)
Fixpoint last_of (prev : option ascii) (w : string) : option ascii :=
  match w with
  | "" => prev
  | String c w' => last_of (Some c) w'
  end.

Definition masked_phone_no_digit_hit (a b c d : ascii) : bool :=
  negb (matches PHONE_RE (masked_phone a b c d)
        || matches AADHAR_RE (masked_phone a b c d)
        || matches PASSPORT_RE (masked_phone a b c d)
        || matches IPV4_RE (masked_phone a b c d)).
(* ================================================================== *)
(** ** Worked records *)

Unset Implicit Arguments.

Example mask_phone_ex : mask_phone "9876543210" = "98XXXXXX10".
Proof. reflexivity. Qed.

Example mask_name_ex : mask_generic_name "  John  Q Smith " = "JXXX X SXXXX".
Proof. reflexivity. Qed.

Example mask_ip_ex : mask_ip "host 192.168.1.77!" = "192.168.1.XXX".
Proof. reflexivity. Qed.

Example mask_upi_ex : mask_upi "ab@okaxis" = "aX@okaxis".
Proof. reflexivity. Qed.

Example mask_passport_ex : mask_passport "id p1234567." = "pXXXXXX7".
Proof. reflexivity. Qed.

Example sub_phone_ex :
  sub PHONE_RE phone_repl "a 9876543210, 1234567890 x12345678901"
  = "a 98XXXXXX10, 12XXXXXX90 x12345678901".
Proof. reflexivity. Qed.

Example dumps_ex :
  let q := String Char.dquote "" in
  Json.dumps [("a", VStr "x\y"); ("n", VInt (-5)); ("z", VNull)]
  = "{" ++ q ++ "a" ++ q ++ ": " ++ q ++ "x\\y" ++ q ++ ", "
    ++ q ++ "n" ++ q ++ ": -5, " ++ q ++ "z" ++ q ++ ": null}".
Proof. reflexivity. Qed.

(* ================================================================== *)
(** ** Strings: basic facts *)

Lemma length_app (a b : string) : length (a ++ b) = length a + length b.
Proof. induction a as [|c a IH]; simpl; [reflexivity | now rewrite IH]. Qed.

Lemma app_nil_r (a : string) : a ++ "" = a.
Proof. induction a as [|c a IH]; simpl; [reflexivity | now rewrite IH]. Qed.

Lemma app_assoc (a b c : string) : (a ++ b) ++ c = a ++ b ++ c.
Proof. induction a as [|x a IH]; simpl; [reflexivity | now rewrite IH]. Qed.

Lemma take_app_exact (w s : string) : Str.take (length w) (w ++ s) = w.
Proof. induction w as [|c w IH]; simpl; [now destruct s | now rewrite IH]. Qed.

Lemma take_cut (w s : string) :
  Str.take (length (w ++ s) - length s) (w ++ s) = w.
Proof.
  rewrite length_app.
  replace (length w + length s - length s) with (length w) by lia.
  apply take_app_exact.
Qed.

Lemma length_rep (c : ascii) (n : nat) : length (Str.rep c n) = n.
Proof. induction n; simpl; congruence. Qed.

Lemma succ_sub (n : nat) : S n - n = 1.
Proof. lia. Qed.

Lemma sub_non_digit (s : string) :
  forall prev pos, sub_from NON_DIGIT_RE (fun _ => "") prev s pos 0 = only_digits s.
Proof.
  induction s as [|c s IH]; intros prev pos.
  - reflexivity.
  - cbn [sub_from match_here NON_DIGIT_RE run only_digits].
    destruct (Char.digit c); cbn [negb].
    + now rewrite IH.
    + cbn [length]. rewrite succ_sub. cbn. apply IH.
Qed.

Lemma digits_of_only_digits (s : string) : digits_of s = only_digits s.
Proof. apply sub_non_digit. Qed.

Lemma only_digits_id (s : string) : Str.all Char.digit s = true -> only_digits s = s.
Proof.
  induction s as [|c s IH]; simpl; [reflexivity|].
  intro H. apply andb_true_iff in H as [Hc Hs]. rewrite Hc. now rewrite IH.
Qed.

Lemma digit_in (c : ascii) : Char.digit c = true -> In c digit_chars.
Proof.
  destruct c as [[] [] [] [] [] [] [] []]; intro H;
    try discriminate H; simpl; auto 11.
Qed.

Lemma masked_phone_stable_all :
  forallb (fun a => forallb (fun b => forallb (fun c => forallb (fun d =>
     masked_phone_stable a b c d) digit_chars) digit_chars) digit_chars) digit_chars
  = true.
Proof. vm_compute. reflexivity. Qed.

Lemma masked_phone_stable_digits (a b c d : ascii) :
  Char.digit a = true -> Char.digit b = true ->
  Char.digit c = true -> Char.digit d = true ->
  masked_phone_stable a b c d = true.
Proof.
  intros Ha Hb Hc Hd.
  pose proof masked_phone_stable_all as H.
  rewrite forallb_forall in H. specialize (H a (digit_in a Ha)).
  rewrite forallb_forall in H. specialize (H b (digit_in b Hb)).
  rewrite forallb_forall in H. specialize (H c (digit_in c Hc)).
  rewrite forallb_forall in H. exact (H d (digit_in d Hd)).
Qed.

(* ================================================================== *)
(** ** The matcher only reports what the pattern describes *)

Lemma rep_den (A : Type) (p : ascii -> bool) (s : string) :
  forall lo hi prev cs (k : kont A) a,
    rep p lo hi prev s cs k = Some a ->
    exists w s' prev',
      s = w ++ s' /\ lo <= length w /\ Str.all p w = true /\ k prev' s' cs = Some a.
Proof.
  induction s as [|c s IH]; intros lo hi prev cs k a H; cbn [rep] in H.
  - destruct lo; [|discriminate]. exists "", "", prev. cbn. auto.
  - assert (Hstop : (if lo =? 0 then k prev (String c s) cs else None) = Some a ->
                    exists w s' prev',
                      String c s = w ++ s' /\ lo <= length w /\ Str.all p w = true
                      /\ k prev' s' cs = Some a).
    { intro E. destruct lo; [|discriminate]. exists "", (String c s), prev. cbn. auto. }
    destruct (p c) eqn:Hp; cbn [andb] in H; [|auto].
    destruct (more hi); [|auto].
    destruct (rep p (pred lo) (dec hi) (Some c) s cs k) as [a'|] eqn:E; [|auto].
    injection H as ->.
    apply IH in E as (w & s' & prev' & -> & Hlo & Hall & Hk).
    exists (String c w), s', prev'. cbn. rewrite Hp, Hall. repeat split; auto. lia.
Qed.

Lemma run_den (A : Type) (r : regex) :
  forall prev s cs (k : kont A) a,
    run r prev s cs k = Some a ->
    exists w s' prev' cs',
      s = w ++ s' /\ den r w cs cs' /\ k prev' s' cs' = Some a.
Proof.
  induction r as [|p| |r1 IH1 r2 IH2|p lo hi|i r IH]; intros prev s cs k a H; cbn [run] in H.
  - exists "", s, prev, cs. repeat split; auto. constructor.
  - destruct s as [|c s]; [discriminate|]. destruct (p c) eqn:Hp; [|discriminate].
    exists (String c ""), s, (Some c), cs. repeat split; auto. now constructor.
  - destruct (xorb _ _); [|discriminate].
    exists "", s, prev, cs. repeat split; auto. constructor.
  - apply IH1 in H as (w1 & s1 & p1 & cs1 & -> & D1 & H1).
    apply IH2 in H1 as (w2 & s2 & p2 & cs2 & -> & D2 & H2).
    exists (w1 ++ w2), s2, p2, cs2. rewrite app_assoc. repeat split; auto.
    econstructor; eauto.
  - apply rep_den in H as (w & s' & prev' & -> & Hlo & Hall & Hk).
    exists w, s', prev', cs. repeat split; auto. now constructor.
  - apply IH in H as (w & s' & prev' & cs' & -> & D & Hk).
    rewrite take_cut in Hk.
    exists w, s', prev', (set_group i w cs'). repeat split; auto. now constructor.
Qed.

Lemma match_here_den (r : regex) (prev : option ascii) (s : string) n cs :
  match_here r prev s = Some (n, cs) ->
  exists w s' cs',
    s = w ++ s' /\ den r w [] cs' /\ n = length w /\ cs = set_group 0 w cs'.
Proof.
  unfold match_here. intro H.
  apply run_den in H as (w & s' & prev' & cs' & -> & D & Hk).
  rewrite take_cut in Hk. rewrite length_app in Hk.
  injection Hk as <- <-. exists w, s', cs'. repeat split; auto. lia.
Qed.

Lemma search_from_den (r : regex) (s : string) :
  forall prev pos m,
    search_from r prev s pos = Some m ->
    exists pre w post cs',
      s = pre ++ w ++ post /\ den r w [] cs'
      /\ m_groups m = set_group 0 w cs' /\ m_start m = pos + length pre.
Proof.
  induction s as [|c s IH]; intros prev pos m H; cbn [search_from] in H.
  - destruct (match_here r prev "") as [[n cs]|] eqn:E; [|discriminate].
    injection H as <-.
    apply match_here_den in E as (w & s' & cs' & Hs & D & _ & ->).
    exists "", w, s', cs'. cbn. repeat split; auto.
  - destruct (match_here r prev (String c s)) as [[n cs]|] eqn:E.
    + injection H as <-.
      apply match_here_den in E as (w & s' & cs' & Hs & D & _ & ->).
      exists "", w, s', cs'. cbn. repeat split; auto.
    + apply IH in H as (pre & w & post & cs' & -> & D & Hg & Hst).
      exists (String c pre), w, post, cs'. cbn. repeat split; auto. lia.
Qed.

Lemma search_den (r : regex) (s : string) (m : rmatch) :
  search r s = Some m ->
  exists pre w post cs',
    s = pre ++ w ++ post /\ den r w [] cs'
    /\ m_groups m = set_group 0 w cs' /\ m_start m = length pre.
Proof. intro H. apply search_from_den in H. exact H. Qed.

Ltac invert_den :=
  repeat match goal with
         | H : den (Cat _ _) _ _ _ |- _ => inversion H; subst; clear H
         | H : den (Grp _ _) _ _ _ |- _ => inversion H; subst; clear H
         | H : den (Rep _ _ _) _ _ _ |- _ => inversion H; subst; clear H
         | H : den (Chr _) _ _ _ |- _ => inversion H; subst; clear H
         | H : den Bnd _ _ _ |- _ => inversion H; subst; clear H
         | H : den Eps _ _ _ |- _ => inversion H; subst; clear H
         end.

(** A match of the email pattern is a non-empty local part, an at sign and
    a domain, and groups 1 and 2 hold the two. *)
Lemma email_match_shape (e : string) (m : rmatch) :
  search EMAIL_RE e = Some m ->
  exists pre post,
    e = pre ++ (group m 1 ++ "@" ++ group m 2) ++ post
    /\ group m 0 = group m 1 ++ "@" ++ group m 2
    /\ 1 <= length (group m 1)
    /\ Str.all local_char (group m 1) = true.
Proof.
  intro H. apply search_den in H as (pre & w & post & cs' & -> & D & Hg & _).
  unfold EMAIL_RE in D. invert_den.
  repeat match goal with
         | E : Char.eq _ _ = true |- _ => apply Ascii.eqb_eq in E; subst
         end.
  unfold group. rewrite Hg. cbn.
  exists pre, post. rewrite !app_nil_r. repeat split; auto.
Qed.

Lemma email_local_nonempty (e : string) (m : rmatch) :
  search EMAIL_RE e = Some m -> group m 1 <> "".
Proof.
  intro H. apply email_match_shape in H as (_ & _ & _ & _ & Hlen & _).
  intro E. rewrite E in Hlen. cbn in Hlen. lia.
Qed.

(** A match of the UPI pattern is a user of two characters or more, an at
    sign and a host. *)
Lemma upi_match_shape (u : string) (m : rmatch) :
  search UPI_RE u = Some m ->
  exists pre post,
    u = pre ++ (group m 1 ++ "@" ++ group m 2) ++ post
    /\ group m 0 = group m 1 ++ "@" ++ group m 2
    /\ 2 <= length (group m 1)
    /\ 2 <= length (group m 2).
Proof.
  intro H. apply search_den in H as (pre & w & post & cs' & -> & D & Hg & _).
  unfold UPI_RE in D. invert_den.
  repeat match goal with
         | E : Char.eq _ _ = true |- _ => apply Ascii.eqb_eq in E; subst
         end.
  unfold group. rewrite Hg. cbn.
  exists pre, post. rewrite !app_nil_r. repeat split; auto.
Qed.

Lemma upi_user_nonempty (u : string) (m : rmatch) :
  search UPI_RE u = Some m -> group m 1 <> "".
Proof.
  intro H. apply upi_match_shape in H as (_ & _ & _ & _ & Hlen & _).
  intro E. rewrite E in Hlen. cbn in Hlen. lia.
Qed.

(** A match of the phone pattern is ten digits, and group 1 holds them. *)
Lemma phone_match_shape (s : string) (m : rmatch) :
  search PHONE_RE s = Some m ->
  exists pre post,
    s = pre ++ group m 1 ++ post
    /\ length (group m 1) >= 10
    /\ Str.all Char.digit (group m 1) = true.
Proof.
  intro H. apply search_den in H as (pre & w & post & cs' & -> & D & Hg & _).
  unfold PHONE_RE in D. invert_den.
  unfold group. rewrite Hg. cbn.
  exists pre, post. rewrite !app_nil_r. repeat split; auto.
Qed.

(* ================================================================== *)
(** ** Dicts *)

Lemma dict_get_set (k k' : string) (v : value) (d : dict) :
  dict_get k (dict_set k' v d) = if String.eqb k k' then Some v else dict_get k d.
Proof.
  induction d as [|[k0 v0] d IH]; cbn.
  - reflexivity.
  - destruct (String.eqb k' k0) eqn:E0; cbn.
    + apply String.eqb_eq in E0. subst k0.
      destruct (String.eqb k k'); reflexivity.
    + rewrite IH. destruct (String.eqb k k') eqn:E; [|reflexivity].
      apply String.eqb_eq in E. subst k'. now rewrite E0.
Qed.

Lemma dict_get_set_same (k : string) (v : value) (d : dict) :
  dict_get k (dict_set k v d) = Some v.
Proof. rewrite dict_get_set. now rewrite String.eqb_refl. Qed.

Lemma dict_get_set_other (k k' : string) (v : value) (d : dict) :
  k <> k' -> dict_get k (dict_set k' v d) = dict_get k d.
Proof.
  intro N. rewrite dict_get_set. destruct (String.eqb k k') eqn:E; [|reflexivity].
  apply String.eqb_eq in E. contradiction.
Qed.

Lemma in_keys_set (x k : string) (v : value) (d : dict) :
  In x (keys (dict_set k v d)) -> x = k \/ In x (keys d).
Proof.
  induction d as [|[k0 v0] d IH]; cbn.
  - intros [E|[]]. now left.
  - destruct (String.eqb k k0) eqn:E0; cbn.
    + intros [E|H]; auto.
    + intros [E|H]; auto. destruct (IH H); auto.
Qed.

Lemma nodup_set (k : string) (v : value) (d : dict) :
  NoDup (keys d) -> NoDup (keys (dict_set k v d)).
Proof.
  induction d as [|[k0 v0] d IH]; cbn; intro H.
  - constructor; [intros []|constructor].
  - inversion H as [|? ? Hnotin Hnd]. subst.
    destruct (String.eqb k k0) eqn:E0; cbn.
    + constructor; assumption.
    + constructor; [|auto].
      intro Hin. apply in_keys_set in Hin as [E|Hin]; [|contradiction].
      subst k0. now rewrite String.eqb_refl in E0.
Qed.

Lemma dict_get_none (k : string) (d : dict) :
  ~ In k (keys d) -> dict_get k d = None.
Proof.
  induction d as [|[k0 v0] d IH]; cbn; intro H; [reflexivity|].
  destruct (String.eqb k k0) eqn:E.
  - apply String.eqb_eq in E. subst. exfalso. auto.
  - auto.
Qed.

Lemma dict_get_in (k : string) (v : value) (d : dict) :
  NoDup (keys d) -> In (k, v) d -> dict_get k d = Some v.
Proof.
  induction d as [|[k0 v0] d IH]; cbn; intros Hnd Hin; [contradiction|].
  inversion Hnd as [|? ? Hnotin Hnd']. subst.
  destruct Hin as [E|Hin].
  - injection E as -> ->. now rewrite String.eqb_refl.
  - destruct (String.eqb k k0) eqn:E; [|auto].
    apply String.eqb_eq in E. subst k0. exfalso. apply Hnotin.
    change k with (fst (k, v)). now apply in_map.
Qed.

Lemma in_unique (k : string) (v v' : value) (d : dict) :
  NoDup (keys d) -> dict_get k d = Some v -> In (k, v') d -> v' = v.
Proof.
  intros Hnd Hget Hin. rewrite (dict_get_in k v' d Hnd Hin) in Hget. congruence.
Qed.

Lemma dict_set_fresh (k : string) (v : value) (d : dict) :
  ~ In k (keys d) -> dict_set k v d = (d ++ [(k, v)])%list.
Proof.
  induction d as [|[k0 v0] d IH]; cbn; intro H; [reflexivity|].
  destruct (String.eqb k k0) eqn:E.
  - apply String.eqb_eq in E. subst. exfalso. auto.
  - rewrite IH; auto.
Qed.

Lemma get_of_dict_get (d : dict) (k : string) (v : value) :
  dict_get k d = Some v -> get d k = v.
Proof. unfold get, get_or. now intros ->. Qed.

(* ------------------------------------------------------------------ *)
(** *** Loops over the items of a dict *)

Lemma for_items_inv (S : Type) (P : S -> Prop) (body : string -> value -> S -> S)
      (items : dict) :
  (forall k v s, In (k, v) items -> P s -> P (body k v s)) ->
  forall s, P s -> P (for_items body items s).
Proof.
  unfold for_items. induction items as [|[k v] items IH]; intros Hbody s Hs; cbn.
  - exact Hs.
  - apply IH.
    + intros k' v' s' Hin. apply Hbody. now right.
    + apply Hbody; [now left | exact Hs].
Qed.

Lemma untouched_refl (W : string -> Prop) (d : dict) : untouched W d d.
Proof. split; auto. Qed.

Lemma untouched_trans (W : string -> Prop) (d1 d2 d3 : dict) :
  untouched W d1 d2 -> untouched W d2 d3 -> untouched W d1 d3.
Proof.
  intros [G1 N1] [G2 N2]. split; auto.
  intros k Hk. rewrite G2, G1; auto.
Qed.

Lemma untouched_set (W : string -> Prop) (k : string) (v : value) (d : dict) :
  W k -> untouched W d (dict_set k v d).
Proof.
  intro Hk. split; [|apply nodup_set].
  intros k' Hk'. apply dict_get_set_other. intro E. subst. contradiction.
Qed.

Lemma untouched_weaken (W W' : string -> Prop) (d d' : dict) :
  (forall k, W k -> W' k) -> untouched W d d' -> untouched W' d d'.
Proof. intros Hsub [G N]. split; auto. Qed.

Lemma for_items_untouched (S : Type) (proj : S -> dict) (W : string -> Prop)
      (body : string -> value -> S -> S) (items : dict) :
  (forall k v s, In (k, v) items -> untouched W (proj s) (proj (body k v s))) ->
  forall s, untouched W (proj s) (proj (for_items body items s)).
Proof.
  intros Hbody s.
  apply (for_items_inv S (fun s' => untouched W (proj s) (proj s'))).
  - intros k v s' Hin Hs'. eapply untouched_trans; eauto.
  - apply untouched_refl.
Qed.

(** The copy at lines 187-194 returns the dict it was given. *)
Lemma copy_loop (items : dict) :
  forall acc,
    NoDup (keys (acc ++ items)%list) ->
    for_items (fun k v clean => dict_set k v clean) items acc = (acc ++ items)%list.
Proof.
  unfold for_items. induction items as [|[k v] items IH]; intros acc Hnd; cbn.
  - now rewrite List.app_nil_r.
  - assert (Hfresh : ~ In k (keys acc)).
    { unfold keys in *. rewrite map_app in Hnd. cbn in Hnd.
      apply NoDup_remove_2 in Hnd. intro Hin. apply Hnd. apply in_or_app. now left. }
    rewrite (dict_set_fresh k v acc Hfresh).
    rewrite IH; rewrite <- List.app_assoc; [reflexivity | exact Hnd].
Qed.

Lemma json_clean_id (d : dict) : NoDup (keys d) -> json_clean d = d.
Proof. intro H. unfold json_clean. now rewrite copy_loop. Qed.

(* ================================================================== *)
(** ** What each rule writes *)

Ltac eqb_compute := cbn [String.eqb Ascii.eqb Bool.eqb andb orb].

Ltac fires :=
  unfold written; do 5 right; unfold rule_fires; eqb_compute;
  repeat match goal with
         | H : _ = true |- _ => rewrite H
         end;
  eqb_compute; rewrite ?orb_true_r; reflexivity.

Tactic Notation "hit" integer(n) :=
  unfold written; do n right;
  match goal with
  | Hin : In (_, VStr ?s) _ |- _ =>
      first [ left; exists s; split; assumption | exists s; split; assumption ]
  end.

Lemma untouched_mark (W : string -> Prop) (k s : string) (x : scan) :
  W k -> untouched W (fst x) (fst (mark k s x)).
Proof. intro H. unfold mark. cbn [fst]. now apply untouched_set. Qed.

Lemma phone_field_untouched (record : dict) (f : string) (x : scan) :
  In f phone_fields ->
  untouched (written record) (fst x)
    (fst (if dict_mem f record && truthy (get record f)
          then if matches PHONE_RE (py_str (get record f))
               then mark f (mask_phone (py_str (get record f))) x
               else x
          else x)).
Proof.
  intro Hf.
  destruct (dict_mem f record); cbn [andb]; [|apply untouched_refl].
  destruct (truthy (get record f)) eqn:T; [|apply untouched_refl].
  destruct (matches PHONE_RE (py_str (get record f))) eqn:M; [|apply untouched_refl].
  apply untouched_mark.
  destruct Hf as [<-|[<-|[]]]; fires.
Qed.

Lemma rule_phone_fields_untouched (record : dict) (x : scan) :
  untouched (written record) (fst x) (fst (rule_phone_fields record x)).
Proof.
  unfold rule_phone_fields. cbn [fold_left phone_fields].
  eapply untouched_trans.
  - apply (phone_field_untouched record "phone" x). now left.
  - apply (phone_field_untouched record "contact"). right. now left.
Qed.

Lemma rule_phone_any_untouched (record : dict) (x : scan) :
  untouched (written record) (fst x) (fst (rule_phone_any record x)).
Proof.
  unfold rule_phone_any. apply for_items_untouched with (proj := fst).
  intros k v y Hin. destruct v as [s| | |]; try apply untouched_refl.
  destruct (matches PHONE_RE s) eqn:M; [|apply untouched_refl].
  destruct (negb _ || negb _); [|apply untouched_refl].
  apply untouched_mark. hit 0.
Qed.

Lemma rule_aadhar_untouched (record : dict) (x : scan) :
  untouched (written record) (fst x) (fst (rule_aadhar record x)).
Proof.
  unfold rule_aadhar. apply for_items_untouched with (proj := fst).
  intros k v y Hin. destruct v as [s| | |]; try apply untouched_refl.
  destruct (matches AADHAR_RE s) eqn:M; [|apply untouched_refl].
  apply untouched_mark. hit 1.
Qed.

Lemma rule_passport_untouched (record : dict) (x : scan) :
  untouched (written record) (fst x) (fst (rule_passport record x)).
Proof.
  unfold rule_passport. apply for_items_untouched with (proj := fst).
  intros k v y Hin. destruct v as [s| | |]; try apply untouched_refl.
  destruct (matches PASSPORT_RE s) eqn:M; [|apply untouched_refl].
  apply untouched_mark. hit 2.
Qed.

Lemma rule_upi_untouched (record : dict) (x : scan) :
  untouched (written record) (fst x) (fst (rule_upi record x)).
Proof.
  unfold rule_upi.
  destruct (dict_mem "upi_id" record && truthy (get record "upi_id")) eqn:C.
  - apply andb_true_iff in C as [_ T].
    destruct (matches UPI_RE (py_str (get record "upi_id"))) eqn:M; [|apply untouched_refl].
    apply untouched_mark. fires.
  - apply for_items_untouched with (proj := fst).
    intros k v y Hin. destruct v as [s| | |]; try apply untouched_refl.
    destruct (Str.contains "@" s); cbn [andb]; [|apply untouched_refl].
    destruct (matches UPI_RE s) eqn:M; [|apply untouched_refl].
    destruct (negb _); [|apply untouched_refl].
    apply untouched_mark. hit 3.
Qed.

Lemma check_standalone_untouched (record redacted : dict) :
  untouched (written record) redacted (fst (check_standalone record redacted)).
Proof.
  unfold check_standalone.
  eapply untouched_trans; [|apply rule_upi_untouched].
  eapply untouched_trans; [|apply rule_passport_untouched].
  eapply untouched_trans; [|apply rule_aadhar_untouched].
  eapply untouched_trans; [|apply rule_phone_any_untouched].
  apply (rule_phone_fields_untouched record (redacted, false)).
Qed.

Lemma rule_email_untouched (record redacted : dict) :
  untouched (written record) redacted (fst (rule_email record redacted)).
Proof.
  unfold rule_email.
  apply (for_items_untouched scan fst (written record) _ record) with (s := (redacted, false)).
  intros k v y Hin. destruct v as [s| | |]; try apply untouched_refl.
  destruct (matches EMAIL_RE s) eqn:M; [|apply untouched_refl].
  apply untouched_mark. hit 4.
Qed.

Lemma rule_name_untouched (record redacted : dict) :
  untouched (written record) redacted (fst (rule_name record redacted)).
Proof.
  unfold rule_name.
  destruct (both_names record) eqn:B; cbn [orb fst].
  - eapply untouched_trans; [eapply untouched_trans|].
    + apply untouched_set with (k := "first_name"). fires.
    + apply untouched_set with (k := "last_name"). fires.
    + destruct (truthy (get record "name")) eqn:T; [|apply untouched_refl].
      apply untouched_set. fires.
  - destruct (truthy (get record "name")) eqn:T; cbn [andb]; [|apply untouched_refl].
    destruct (has_tokens 2 (get record "name")) eqn:K; cbn [fst]; [|apply untouched_refl].
    apply untouched_set. fires.
Qed.

Lemma rule_address_untouched (record redacted : dict) :
  untouched (written record) redacted (fst (rule_address record redacted)).
Proof.
  unfold rule_address.
  destruct (truthy (get record "address")) eqn:A; cbn [andb]; [|apply untouched_refl].
  destruct (truthy (get record "city")) eqn:C; cbn [andb]; [|apply untouched_refl].
  destruct (truthy (get record "pin_code")) eqn:P; [|apply untouched_refl].
  destruct (5 <=? length (digits_of (py_str (get record "pin_code")))) eqn:L;
    cbn [fst]; [|apply untouched_refl].
  eapply untouched_trans.
  - apply untouched_set with (k := "address"). fires.
  - apply untouched_set. fires.
Qed.

Lemma rule_device_untouched (W : string -> Prop) (record redacted : dict) :
  (truthy (get record "device_id") = true -> W "device_id") ->
  (truthy (get record "ip_address") = true -> W "ip_address") ->
  untouched W redacted (fst (rule_device record redacted)).
Proof.
  intros Wd Wi. unfold rule_device.
  destruct (truthy (get record "device_id")) eqn:D; cbn [orb].
  - destruct (truthy (get record "ip_address")) eqn:I.
    + eapply untouched_trans; [|apply untouched_mark; auto].
      apply (untouched_mark W "device_id" _ (redacted, false)). auto.
    + apply (untouched_mark W "device_id" _ (redacted, false)). auto.
  - destruct (truthy (get record "ip_address")) eqn:I; [|apply untouched_refl].
    apply (untouched_mark W "ip_address" _ (redacted, false)). auto.
Qed.

Lemma gather_untouched (record : dict) :
  untouched (written record) record (fst (gather record)).
Proof.
  unfold gather. cbn [fst].
  eapply untouched_trans; [|apply rule_device_untouched; intro T; fires].
  eapply untouched_trans; [|apply rule_address_untouched].
  eapply untouched_trans; [|apply rule_name_untouched].
  eapply untouched_trans; [|apply rule_email_untouched].
  apply check_standalone_untouched.
Qed.

(* ------------------------------------------------------------------ *)
(** *** The email flag *)

Lemma email_loop_flag (items : dict) :
  forall x : scan,
    snd (for_items
           (fun k v x =>
              match v with
              | VStr s =>
                  if matches EMAIL_RE s then mark k (sub EMAIL_RE email_repl s) x else x
              | _ => x
              end) items x) = false ->
    snd x = false
    /\ forall k s, In (k, VStr s) items -> matches EMAIL_RE s = false.
Proof.
  unfold for_items. induction items as [|[k v] items IH]; intros x H; cbn in H.
  - split; [exact H | intros k s []].
  - apply IH in H as [Hx Hrest]. cbn [fst snd] in Hx.
    destruct v as [s| | |];
      try (split; [exact Hx | intros k' s' [E|Hin]; [discriminate E | eauto]]).
    destruct (matches EMAIL_RE s) eqn:M; [discriminate Hx|].
    split; [exact Hx|]. intros k' s' [E|Hin]; [|eauto]. now injection E as _ <-.
Qed.

Lemma email_absent (record : dict) :
  email_present (evidence record) = false ->
  forall k, ~ hit_by EMAIL_RE record k.
Proof.
  unfold evidence, gather. cbn [snd email_present]. unfold rule_email.
  intros H k (s & Hin & M). apply email_loop_flag in H as [_ H].
  rewrite (H k s Hin) in M. discriminate.
Qed.

(* ------------------------------------------------------------------ *)
(** *** The rollback and the final pass *)

Lemma untouched_if_set (W : string -> Prop) (c : bool) (k : string) (v : value)
      (d : dict) :
  W k -> untouched W d (if c then dict_set k v d else d).
Proof. intro H. destruct c; [now apply untouched_set | apply untouched_refl]. Qed.

Lemma reconcile_untouched (record redacted : dict) :
  untouched (restored record) redacted (reconcile record redacted).
Proof.
  unfold reconcile. cbv zeta.
  eapply untouched_trans; [|destruct (_ || _); [|apply untouched_refl]].
  eapply untouched_trans; [|apply untouched_if_set; right; now left].
  - apply (for_items_untouched dict (fun d => d) (restored record)).
    intros k v d Hin. destruct v as [s| | |]; try apply untouched_refl.
    destruct (matches EMAIL_RE s) eqn:M; [|apply untouched_refl].
    apply untouched_if_set. left. exists s. split; assumption.
  - eapply untouched_trans; [|apply untouched_if_set; right; right; now right].
    apply untouched_if_set. right. right. now left.
Qed.

(** The rollback writes original values only. *)
Lemma reconcile_keeps (record redacted : dict) (k : string) (v : value) :
  NoDup (keys record) -> dict_get k record = Some v ->
  dict_get k redacted = Some v ->
  dict_get k (reconcile record redacted) = Some v.
Proof.
  intros Hnd Hrec Hred. unfold reconcile.
  assert (Hset : forall k' d, dict_get k d = Some v ->
                              dict_get k (dict_set k' (get record k') d) = Some v).
  { intros k' d Hd. rewrite dict_get_set. destruct (String.eqb k k') eqn:E; [|exact Hd].
    apply String.eqb_eq in E. subst k'. now rewrite (get_of_dict_get record k v Hrec). }
  match goal with
  | |- context [for_items ?body record redacted] =>
      assert (H1 : dict_get k (for_items body record redacted) = Some v)
  end.
  { apply (for_items_inv dict (fun d => dict_get k d = Some v)); [|exact Hred].
    intros k' v' d Hin Hd. destruct v' as [s| | |]; try exact Hd.
    destruct (matches EMAIL_RE s); [|exact Hd].
    destruct (dict_mem k' d); [|exact Hd].
    rewrite dict_get_set. destruct (String.eqb k k') eqn:E; [|exact Hd].
    apply String.eqb_eq in E. subst k'.
    now rewrite (in_unique k v (VStr s) record Hnd Hrec Hin). }
  match goal with
  | |- context [if ?c then dict_set "name" ?x ?d else ?d] =>
      assert (H2 : dict_get k (if c then dict_set "name" x d else d) = Some v)
  end.
  { destruct (_ && _); [|exact H1]. now apply Hset. }
  cbv zeta.
  destruct (_ || _); [|exact H2].
  match goal with
  | |- context [if ?c then dict_set "first_name" ?x ?d else ?d] =>
      assert (H3 : dict_get k (if c then dict_set "first_name" x d else d) = Some v)
  end.
  { destruct (dict_mem "first_name" _); [|exact H2]. now apply Hset. }
  destruct (dict_mem "last_name" _); [|exact H3]. now apply Hset.
Qed.

Lemma finalize_item_untouched (k s : string) (d : dict) :
  untouched (fun k' => k' = k) d (finalize_item k s d).
Proof.
  unfold finalize_item.
  repeat (eapply untouched_trans;
          [|match goal with
            | |- untouched _ _ (if ?c then _ else _) =>
                destruct c; [apply untouched_set; reflexivity | apply untouched_refl]
            end]).
  apply untouched_refl.
Qed.

Lemma finalize_item_no_hit (k s : string) (d : dict) :
  value_hit (VStr s) = false -> finalize_item k s d = d.
Proof.
  unfold value_hit, finalize_item. intro H.
  repeat (apply orb_false_iff in H as [H ?]).
  now repeat match goal with E : matches _ s = false |- _ => rewrite E; clear E end.
Qed.

Lemma finalize_nodup (redacted : dict) :
  NoDup (keys redacted) -> NoDup (keys (finalize redacted)).
Proof.
  unfold finalize.
  apply (for_items_untouched dict (fun d => d) (fun _ => True)).
  intros k v d Hin. destruct v as [s| | |]; try apply untouched_refl.
  eapply untouched_weaken; [|apply finalize_item_untouched]. auto.
Qed.

(** The final pass leaves alone a value that no pattern matches. *)
Lemma finalize_keeps (redacted : dict) (k : string) (v : value) :
  NoDup (keys redacted) -> dict_get k redacted = Some v -> value_hit v = false ->
  dict_get k (finalize redacted) = Some v.
Proof.
  intros Hnd Hget Hv. unfold finalize.
  apply (for_items_inv dict (fun d => dict_get k d = Some v)); [|exact Hget].
  intros k' v' d Hin Hd. destruct v' as [s| | |]; try exact Hd.
  destruct (String.eqb k k') eqn:E.
  - apply String.eqb_eq in E. subst k'.
    rewrite <- (in_unique k v (VStr s) redacted Hnd Hget Hin) in Hv.
    now rewrite finalize_item_no_hit.
  - destruct (finalize_item_untouched k' s d) as [G _].
    rewrite G; [exact Hd|]. intros ->. now rewrite String.eqb_refl in E.
Qed.

(** The last two steps of [detect_and_mask] keep a field that the rollback
    does not restore to something else and that no pattern matches. *)
Lemma finish_keeps (record redacted : dict) (pii : bool) (k : string) (v : value) :
  NoDup (keys redacted) ->
  dict_get k redacted = Some v ->
  (pii = true -> value_hit v = false) ->
  (pii = false ->
   dict_get k (reconcile record redacted) = Some v) ->
  dict_get k
    (json_clean
       (let redacted := if negb pii then reconcile record redacted else redacted in
        if pii then finalize redacted else redacted))
  = Some v.
Proof.
  intros Hnd Hget Hfin Hrec. destruct pii; cbn [negb].
  - rewrite json_clean_id by now apply finalize_nodup.
    apply finalize_keeps; auto.
  - rewrite json_clean_id by now apply (reconcile_untouched record redacted).
    auto.
Qed.

Lemma rows_out_app (json_loads : string -> option parsed) (before after : list csv_row) :
  rows_out json_loads (before ++ after)
  = match rows_out json_loads before, rows_out json_loads after with
    | Some a, Some b => Some (a ++ b)%list
    | _, _ => None
    end.
Proof.
  induction before as [|r before IH]; cbn.
  - now destruct (rows_out json_loads after).
  - destruct (process_row json_loads r); [|reflexivity].
    rewrite IH.
    destruct (rows_out json_loads before); [|reflexivity].
    now destruct (rows_out json_loads after).
Qed.

Lemma length_take (n : nat) (s : string) : length (Str.take n s) = Nat.min n (length s).
Proof.
  revert s. induction n as [|n IH]; intros [|c s]; cbn; auto.
Qed.

(** Once the address rule has fired, the working copy holds the address token. *)
Lemma address_after_gather (record : dict) :
  address_present (evidence record) = true ->
  dict_get "address" (fst (gather record)) = Some (VStr REDACTED_PII_ADDRESS).
Proof.
  unfold evidence, gather. cbn [fst snd address_present]. intro H.
  destruct (rule_device_untouched
              (fun k => k = "device_id" \/ k = "ip_address") record
              (fst (rule_address record
                      (fst (rule_name record
                              (fst (rule_email record
                                      (fst (check_standalone record record))))))))
              (fun _ => or_introl eq_refl) (fun _ => or_intror eq_refl)) as [G _].
  rewrite G by (intros [E|E]; discriminate E).
  revert H. unfold rule_address.
  destruct (truthy (get record "address") && truthy (get record "city")
            && truthy (get record "pin_code")); [|discriminate].
  destruct (5 <=? length (digits_of (py_str (get record "pin_code")))); [|discriminate].
  intros _. cbn [fst].
  rewrite dict_get_set_other by discriminate. apply dict_get_set_same.
Qed.

(** The address token stays in the output, whatever the verdict. *)
Lemma address_redacted (record : dict) :
  NoDup (keys record) ->
  address_present (evidence record) = true ->
  dict_get "address" (fst (detect_and_mask record)) = Some (VStr REDACTED_PII_ADDRESS).
Proof.
  intros Hnd Ha.
  pose proof (address_after_gather record Ha) as Hget.
  pose proof (email_absent record) as Hmail.
  destruct (gather_untouched record) as [_ N]. specialize (N Hnd).
  unfold detect_and_mask. unfold evidence in Ha, Hmail.
  destruct (gather record) as [red ev]. cbn [fst snd] in *. cbv zeta. cbn [fst].
  apply finish_keeps; auto.
  intro Hv.
  destruct (reconcile_untouched record red) as [G _].
  rewrite G; [exact Hget|].
  assert (He : email_present ev = false).
  { revert Hv. unfold verdict, combinatorial_count. rewrite Ha.
    destruct (standalone_found ev), (name_present ev), (email_present ev),
      (device_present ev); cbn; congruence. }
  intros [H|[H|[H|H]]]; try discriminate H.
  exact (Hmail He "address" H).
Qed.

(* ------------------------------------------------------------------ *)
(** *** The flags, read off the record *)

Lemma name_present_spec (record : dict) :
  name_present (evidence record)
  = both_names record
    || (truthy (get record "name") && has_tokens 2 (get record "name")).
Proof.
  unfold evidence, gather. cbn [snd name_present]. unfold rule_name.
  now destruct (both_names record || _).
Qed.

Lemma address_present_spec (record : dict) :
  address_present (evidence record)
  = truthy (get record "address") && truthy (get record "city")
    && truthy (get record "pin_code")
    && (5 <=? length (only_digits (py_str (get record "pin_code")))).
Proof.
  unfold evidence, gather. cbn [snd address_present]. unfold rule_address.
  rewrite digits_of_only_digits.
  destruct (_ && _ && _); [|reflexivity].
  now destruct (5 <=? _).
Qed.

Lemma device_present_spec (record : dict) :
  device_present (evidence record)
  = truthy (get record "device_id") || truthy (get record "ip_address").
Proof.
  unfold evidence, gather. cbn [snd device_present]. unfold rule_device.
  now destruct (truthy (get record "device_id")), (truthy (get record "ip_address")).
Qed.

Lemma email_present_spec (record : dict) :
  email_present (evidence record) = true <-> exists k, hit_by EMAIL_RE record k.
Proof.
  split.
  - intro H. destruct (existsb (fun kv => match snd kv with
                                          | VStr s => matches EMAIL_RE s
                                          | _ => false
                                          end) record) eqn:E.
    + apply existsb_exists in E as ([k v] & Hin & M). cbn [snd] in M.
      destruct v as [s| | |]; try discriminate M.
      exists k, s. split; assumption.
    + exfalso. destruct (email_present (evidence record)) eqn:P; [|discriminate H].
      revert P. unfold evidence, gather. cbn [snd email_present]. unfold rule_email.
      assert (Hno : forall k s, In (k, VStr s) record -> matches EMAIL_RE s = false).
      { intros k s Hin. destruct (matches EMAIL_RE s) eqn:M; [|reflexivity].
        rewrite <- E. symmetry. apply existsb_exists. exists (k, VStr s). now split. }
      clear E H. generalize (fst (check_standalone record record)). intros red P.
      assert (Hf : snd (for_items
                          (fun k v x =>
                             match v with
                             | VStr s =>
                                 if matches EMAIL_RE s
                                 then mark k (sub EMAIL_RE email_repl s) x else x
                             | _ => x
                             end) record (red, false)) = false).
      { apply (for_items_inv scan (fun x => snd x = false)); [|reflexivity].
        intros k v x Hin Hx. destruct v as [s| | |]; try exact Hx.
        now rewrite (Hno k s Hin). }
      congruence.
  - intros (k & Hk). destruct (email_present (evidence record)) eqn:P; [reflexivity|].
    exfalso. exact (email_absent record P k Hk).
Qed.

(* ================================================================== *)
(** ** The properties *)

(** C1. For every record the verdict of [detect_and_mask] is
    [standalone_found] or "at least two of the flags [name_present],
    [email_present], [address_present], [device_present] are set"; and the
    loop of [main] gives each row of a batch the output row it gets on its
    own, so no verdict depends on another record. *)
Theorem verdict_standalone_or_two_signals :
  (forall record : dict,
      let ev := evidence record in
      snd (detect_and_mask record)
      = standalone_found ev
        || (2 <=? count_true [name_present ev; email_present ev;
                              address_present ev; device_present ev]))
  /\ (forall (json_loads : string -> option parsed)
             (before after : list csv_row) (row : csv_row),
         rows_out json_loads (before ++ row :: after)
         = match rows_out json_loads before, process_row json_loads row,
                 rows_out json_loads after with
           | Some a, Some o, Some b => Some (a ++ o :: b)%list
           | _, _, _ => None
           end).
Proof.
  split.
  - intro record. unfold evidence, detect_and_mask.
    destruct (gather record) as [red ev]. cbn [fst snd]. cbv zeta. cbn [snd].
    unfold verdict, combinatorial_count, count_true.
    now destruct (name_present ev), (email_present ev), (address_present ev),
      (device_present ev).
  - intros json_loads before after row. rewrite rows_out_app. cbn [rows_out].
    destruct (rows_out json_loads before); [|reflexivity].
    destruct (process_row json_loads row); [|reflexivity].
    now destruct (rows_out json_loads after).
Qed.

(** C2. The record whose only field is phone = "9876543210" gets the verdict
    true and the masked phone "98XXXXXX10". *)
Theorem phone_only_record :
  snd (detect_and_mask phone_only) = true
  /\ dict_get "phone" (fst (detect_and_mask phone_only)) = Some (VStr "98XXXXXX10").
Proof. split; vm_compute; reflexivity. Qed.

(** C3, as the specification states it, fails: the email of the output is not
    "joXXX@example.com". *)
Lemma name_email_spec_fails :
  ~ (snd (detect_and_mask name_and_email) = true
     /\ dict_get "name" (fst (detect_and_mask name_and_email)) = Some (VStr "JXXX SXXXX")
     /\ dict_get "email" (fst (detect_and_mask name_and_email))
        = Some (VStr "joXXX@example.com")).
Proof. intros (_ & _ & H). vm_compute in H. discriminate H. Qed.

(** C3, amended. The record with name = "John Smith" and
    email = "john.smith@example.com" gets the verdict true, the name
    "JXXX SXXXX" and the email "joXXXXXXXX@example.com": each of the eight
    characters of the local part after the first two becomes an X. *)
Theorem name_email_record :
  snd (detect_and_mask name_and_email) = true
  /\ dict_get "name" (fst (detect_and_mask name_and_email)) = Some (VStr "JXXX SXXXX")
  /\ dict_get "email" (fst (detect_and_mask name_and_email))
     = Some (VStr "joXXXXXXXX@example.com").
Proof. repeat split; vm_compute; reflexivity. Qed.

(** C4, as the specification states it, fails: the name of the output is not
    the original "John Smith". *)
Lemma name_only_spec_fails :
  ~ (snd (detect_and_mask name_only) = false
     /\ dict_get "name" (fst (detect_and_mask name_only)) = Some (VStr "John Smith")).
Proof. intros (_ & H). vm_compute in H. discriminate H. Qed.

(** C4, amended. The record whose only field is name = "John Smith" gets the
    verdict false and keeps the masked name "JXXX SXXXX": the rollback
    restores a name only when it has fewer than two tokens. *)
Theorem name_only_record :
  snd (detect_and_mask name_only) = false
  /\ dict_get "name" (fst (detect_and_mask name_only)) = Some (VStr "JXXX SXXXX").
Proof. split; vm_compute; reflexivity. Qed.

(** C5, as the specification states it, fails: the address of the output is
    not the original one. *)
Lemma address_only_spec_fails :
  ~ (snd (detect_and_mask address_only) = false
     /\ dict_get "address" (fst (detect_and_mask address_only))
        = dict_get "address" address_only).
Proof. intros (_ & H). vm_compute in H. discriminate H. Qed.

(** C5, amended. A record with an address, a city and pin_code = "560001"
    and no other signal gets the verdict false, and the address of the output
    is the address token: the rollback does not restore the address. *)
Theorem address_only_record (record : dict) :
  NoDup (keys record) ->
  truthy (get record "address") = true ->
  truthy (get record "city") = true ->
  get record "pin_code" = VStr "560001" ->
  standalone_found (evidence record) = false ->
  name_present (evidence record) = false ->
  email_present (evidence record) = false ->
  device_present (evidence record) = false ->
  snd (detect_and_mask record) = false
  /\ dict_get "address" (fst (detect_and_mask record)) = Some (VStr "[REDACTED_PII_ADDRESS]").
Proof.
  intros Hnd Ha Hc Hp Hs Hn He Hd.
  assert (Hap : address_present (evidence record) = true).
  { unfold evidence, gather. cbn [snd address_present]. unfold rule_address.
    rewrite Ha, Hc, Hp. reflexivity. }
  split; [|now apply address_redacted].
  revert Hs Hn He Hd Hap. unfold evidence, detect_and_mask.
  destruct (gather record) as [red ev]. cbn [fst snd]. cbv zeta. cbn [snd].
  unfold verdict, combinatorial_count. now intros -> -> -> -> ->.
Qed.

Lemma address_only_witness :
  snd (detect_and_mask address_only) = false
  /\ dict_get "address" (fst (detect_and_mask address_only))
     = Some (VStr "[REDACTED_PII_ADDRESS]").
Proof.
  apply (address_only_record address_only); try reflexivity.
  repeat constructor; cbn; intuition discriminate.
Defined.

(** C6. On a string of exactly ten digits the phone masker returns the first
    two digits, six X and the last two digits; the result no longer matches
    the phone pattern, and the phone substitution leaves it as it is. *)
Theorem phone_mask_shape_and_stable (s : string) :
  length s = 10 ->
  Str.all Char.digit s = true ->
  mask_phone s = Str.take 2 s ++ "XXXXXX" ++ Str.drop 8 s
  /\ matches PHONE_RE (mask_phone s) = false
  /\ sub PHONE_RE phone_repl (mask_phone s) = mask_phone s.
Proof.
  intros Hlen Hall.
  assert (Hmask : mask_phone s = Str.take 2 s ++ "XXXXXX" ++ Str.drop 8 s).
  { unfold mask_phone. rewrite digits_of_only_digits, only_digits_id by exact Hall.
    rewrite Hlen. cbn [Nat.eqb]. unfold Str.last_n. now rewrite Hlen. }
  rewrite Hmask. split; [reflexivity|].
  do 10 (destruct s as [|? s]; [discriminate Hlen|]).
  destruct s; [|discriminate Hlen].
  cbn [Str.all] in Hall.
  repeat match goal with
         | H : _ && _ = true |- _ => apply andb_true_iff in H as [? H]
         end.
  match goal with
  | |- context [Str.take 2 (String ?a (String ?b _))] =>
      match goal with
      | |- context [String ?c (String ?d "")] =>
          pose proof (masked_phone_stable_digits a b c d) as Hst
      end
  end.
  unfold masked_phone_stable in Hst.
  apply andb_true_iff in Hst as [Hno Hsub]; auto.
  apply negb_true_iff in Hno. apply String.eqb_eq in Hsub.
  split; [exact Hno | exact Hsub].
Qed.

Lemma phone_mask_witness :
  (length "9876543210" = 10 /\ Str.all Char.digit "9876543210" = true)
  /\ mask_phone "9876543210" = "98" ++ "XXXXXX" ++ "10"
  /\ matches PHONE_RE (mask_phone "9876543210") = false
  /\ sub PHONE_RE phone_repl (mask_phone "9876543210") = mask_phone "9876543210".
Proof.
  split; [split; reflexivity|].
  apply (phone_mask_shape_and_stable "9876543210"); reflexivity.
Defined.

(** C7. On an input that matches the email pattern, with [local] and
    [domain] the two groups of the first match, the email masker returns
    some kept characters, then X's, then the at sign and the domain as it was.
    When the local part has at most two characters, what is kept is its first
    character and exactly one X follows; otherwise what is kept is its first
    two characters, and exactly [max 3 (len - 2)] X's follow: at least three,
    and as many as the rest of the local part when that is more. *)
Theorem email_mask_shape (e : string) (m : rmatch) :
  search EMAIL_RE e = Some m ->
  let local := group m 1 in
  let domain := group m 2 in
  (exists pre post, e = pre ++ (local ++ "@" ++ domain) ++ post)
  /\ exists kept xs,
      mask_email e = kept ++ Str.rep "X" xs ++ "@" ++ domain
      /\ ((length local <= 2 /\ kept = Str.take 1 local /\ length kept = 1 /\ xs = 1)
          \/ (2 < length local /\ kept = Str.take 2 local /\ length kept = 2
              /\ 3 <= xs /\ length local - 2 <= xs
              /\ xs = Nat.max 3 (length local - 2))).
Proof.
  intros H local domain.
  destruct (email_match_shape e m H) as (pre & post & He & _ & Hlen & _).
  split; [exists pre, post; exact He|].
  unfold mask_email. rewrite H. fold local domain. fold local in Hlen.
  destruct (length local <=? 2) eqn:L.
  - apply Nat.leb_le in L.
    exists (Str.take 1 local), 1. split; [now rewrite app_assoc|].
    left. repeat split; auto. rewrite length_take. lia.
  - apply Nat.leb_gt in L.
    exists (Str.take 2 local), (Nat.max 3 (length local - 2)).
    split; [now rewrite app_assoc|].
    right. repeat split; auto; try lia. rewrite length_take. lia.
Qed.

Lemma email_mask_witness :
  search EMAIL_RE "to john.smith@example.com." = Some john_smith_match
  /\ (exists pre post,
         "to john.smith@example.com." = pre ++ ("john.smith" ++ "@" ++ "example.com") ++ post)
  /\ exists kept xs,
      mask_email "to john.smith@example.com."
      = kept ++ Str.rep "X" xs ++ "@" ++ "example.com"
      /\ ((length "john.smith" <= 2 /\ kept = Str.take 1 "john.smith"
           /\ length kept = 1 /\ xs = 1)
          \/ (2 < length "john.smith" /\ kept = Str.take 2 "john.smith"
              /\ length kept = 2 /\ 3 <= xs /\ length "john.smith" - 2 <= xs
              /\ xs = Nat.max 3 (length "john.smith" - 2))).
Proof.
  split; [reflexivity|].
  exact (email_mask_shape "to john.smith@example.com." john_smith_match eq_refl).
Defined.

(** C8. A row whose payload fails [json.loads], and fails it again once its
    single quotes are double quotes, gets the output row with the payload
    "{}" and the verdict "False"; and in a batch the rows before and after it
    get the output rows they get without it. *)
Theorem unparsable_payload_row
        (json_loads : string -> option parsed)
        (row : csv_row) (raw : string) (before after : list csv_row) :
  data_json_raw_of row = Some raw ->
  json_loads raw = None ->
  json_loads (Str.replace "'" Char.dquote raw) = None ->
  process_row json_loads row = Some (empty_row row)
  /\ rows_out json_loads (before ++ row :: after)
     = match rows_out json_loads before, rows_out json_loads after with
       | Some a, Some b => Some (a ++ empty_row row :: b)%list
       | _, _ => None
       end.
Proof.
  intros Hraw H1 H2.
  assert (Hrow : process_row json_loads row = Some (empty_row row)).
  { unfold process_row, parse_payload. rewrite Hraw, H1, H2. reflexivity. }
  split; [exact Hrow|].
  rewrite rows_out_app. cbn [rows_out]. rewrite Hrow.
  destruct (rows_out json_loads before); [|reflexivity].
  now destruct (rows_out json_loads after).
Qed.

Lemma unparsable_payload_witness :
  let row := [("record_id", Some "7"); ("Data_json", Some "{'phone': 98765")] in
  let first := [("id", Some "1"); ("data", Some "{}")] in
  process_row loads_empty_object row
  = Some {| record_id := Some "7"; redacted_data_json := "{}"; is_pii := "False" |}
  /\ rows_out loads_empty_object ([first] ++ row :: [first])
     = Some [ {| record_id := Some "1"; redacted_data_json := "{}"; is_pii := "False" |};
              {| record_id := Some "7"; redacted_data_json := "{}"; is_pii := "False" |};
              {| record_id := Some "1"; redacted_data_json := "{}"; is_pii := "False" |} ].
Proof.
  intros row first.
  exact (unparsable_payload_row loads_empty_object row "{'phone': 98765"
           [first] [first] eq_refl eq_refl eq_refl).
Defined.

(** C9. A field of a record whose value no pattern matches, and which is not
    a named field whose rule fires, is in the output of [detect_and_mask]
    with its value unchanged. *)
Theorem unrecognized_field_unchanged (record : dict) (k : string) (v : value) :
  NoDup (keys record) ->
  dict_get k record = Some v ->
  value_hit v = false ->
  rule_fires record k = false ->
  dict_get k (fst (detect_and_mask record)) = Some v.
Proof.
  intros Hnd Hget Hv Hf.
  assert (Hw : ~ written record k).
  { assert (Hhit : forall r, hit_by r record k ->
                             exists s, v = VStr s /\ matches r s = true).
    { intros r (s & Hin & M). exists s. split; [|exact M].
      symmetry. exact (in_unique k v (VStr s) record Hnd Hget Hin). }
    intros [H|[H|[H|[H|[H|H]]]]];
      try (apply Hhit in H as (s & -> & M); cbn [value_hit] in Hv;
           rewrite M in Hv; rewrite ?orb_true_r in Hv; discriminate Hv).
    congruence. }
  destruct (gather_untouched record) as [G N].
  specialize (G k Hw). specialize (N Hnd). rewrite Hget in G.
  unfold detect_and_mask.
  destruct (gather record) as [red ev]. cbn [fst] in G, N. cbv zeta. cbn [fst].
  apply finish_keeps; auto.
  intros _. now apply reconcile_keeps.
Qed.

Lemma unrecognized_field_witness :
  (snd (detect_and_mask mixed_record) = true
   /\ dict_get "phone" (fst (detect_and_mask mixed_record)) = Some (VStr "98XXXXXX10"))
  /\ dict_get "note" (fst (detect_and_mask mixed_record)) = Some (VStr "call after six")
  /\ dict_get "age" (fst (detect_and_mask mixed_record)) = Some (VInt 41).
Proof.
  assert (Hnd : NoDup (keys mixed_record)).
  { repeat constructor; cbn; intuition discriminate. }
  split; [split; vm_compute; reflexivity|]. split.
  - apply (unrecognized_field_unchanged mixed_record "note" (VStr "call after six") Hnd);
      reflexivity.
  - apply (unrecognized_field_unchanged mixed_record "age" (VInt 41) Hnd);
      reflexivity.
Defined.

(** C10. There is a record with a word-bounded run of ten digits in a string
    field that is not named phone or contact, whose value also contains an X
    and matches no other pattern, for which [detect_and_mask] returns the
    verdict false and the field as it was, the ten digits unmasked. *)
Theorem phone_with_X_escapes :
  exists (record : dict) (k s : string),
    dict_get k record = Some (VStr s)
    /\ k <> "phone" /\ k <> "contact"
    /\ matches PHONE_RE s = true
    /\ Str.contains "X" s = true
    /\ matches AADHAR_RE s = false /\ matches PASSPORT_RE s = false
    /\ matches UPI_RE s = false /\ matches EMAIL_RE s = false
    /\ matches IPV4_RE s = false
    /\ rule_fires record k = false
    /\ (exists pre, s = pre ++ "9876543210")
    /\ snd (detect_and_mask record) = false
    /\ dict_get k (fst (detect_and_mask record)) = Some (VStr s).
Proof.
  exists note_with_X, "note", "ref X 9876543210".
  repeat split; try discriminate; try (vm_compute; reflexivity).
  exists "ref X ". reflexivity.
Qed.

(* ================================================================== *)
(** ** Further properties of the maskers *)

Lemma rep_shape (A : Type) (p : ascii -> bool) (s : string) :
  forall lo hi prev cs (k : kont A) a,
    rep p lo hi prev s cs k = Some a ->
    exists w s' prev',
      s = w ++ s' /\ lo <= length w /\ within hi (length w)
      /\ Str.all p w = true /\ k prev' s' cs = Some a.
Proof.
  assert (Hzero : forall hi, within hi 0) by (intros [h|]; cbn; lia).
  induction s as [|c s IH]; intros lo hi prev cs k a H; cbn [rep] in H.
  - destruct lo; [|discriminate]. exists "", "", prev. cbn. auto.
  - assert (Hstop : (if lo =? 0 then k prev (String c s) cs else None) = Some a ->
                    exists w s' prev',
                      String c s = w ++ s' /\ lo <= length w /\ within hi (length w)
                      /\ Str.all p w = true /\ k prev' s' cs = Some a).
    { intro E. destruct lo; [|discriminate]. exists "", (String c s), prev. cbn. auto. }
    destruct (p c) eqn:Hp; cbn [andb] in H; [|auto].
    destruct (more hi) eqn:Hm; [|auto].
    destruct (rep p (pred lo) (dec hi) (Some c) s cs k) as [a'|] eqn:E; [|auto].
    injection H as ->.
    apply IH in E as (w & s' & prev' & -> & Hlo & Hhi & Hall & Hk).
    exists (String c w), s', prev'. cbn [append length Str.all]. rewrite Hp, Hall.
    repeat split; auto; [lia|].
    destruct hi as [[|h]|]; cbn in *; try discriminate; lia.
Qed.

Lemma run_shape (A : Type) (r : regex) :
  forall prev s cs (k : kont A) a,
    run r prev s cs k = Some a ->
    exists w s' prev' cs',
      s = w ++ s' /\ shape r w cs cs' /\ k prev' s' cs' = Some a.
Proof.
  induction r as [|p| |r1 IH1 r2 IH2|p lo hi|i r IH]; intros prev s cs k a H; cbn [run] in H.
  - exists "", s, prev, cs. repeat split; auto. constructor.
  - destruct s as [|c s]; [discriminate|]. destruct (p c) eqn:Hp; [|discriminate].
    exists (String c ""), s, (Some c), cs. repeat split; auto. now constructor.
  - destruct (xorb _ _); [|discriminate].
    exists "", s, prev, cs. repeat split; auto. constructor.
  - apply IH1 in H as (w1 & s1 & p1 & cs1 & -> & D1 & H1).
    apply IH2 in H1 as (w2 & s2 & p2 & cs2 & -> & D2 & H2).
    exists (w1 ++ w2), s2, p2, cs2. rewrite app_assoc. repeat split; auto.
    econstructor; eauto.
  - apply rep_shape in H as (w & s' & prev' & -> & Hlo & Hhi & Hall & Hk).
    exists w, s', prev', cs. repeat split; auto. now constructor.
  - apply IH in H as (w & s' & prev' & cs' & -> & D & Hk).
    rewrite take_cut in Hk.
    exists w, s', prev', (set_group i w cs'). repeat split; auto. now constructor.
Qed.

Lemma match_here_shape (r : regex) (prev : option ascii) (s : string) n cs :
  match_here r prev s = Some (n, cs) ->
  exists w s' cs',
    s = w ++ s' /\ shape r w [] cs' /\ n = length w /\ cs = set_group 0 w cs'.
Proof.
  unfold match_here. intro H.
  apply run_shape in H as (w & s' & prev' & cs' & -> & D & Hk).
  rewrite take_cut in Hk. rewrite length_app in Hk.
  injection Hk as <- <-. exists w, s', cs'. repeat split; auto. lia.
Qed.

Lemma search_from_shape (r : regex) (s : string) :
  forall prev pos m,
    search_from r prev s pos = Some m ->
    exists pre w post cs',
      s = pre ++ w ++ post /\ shape r w [] cs' /\ m_groups m = set_group 0 w cs'.
Proof.
  induction s as [|c s IH]; intros prev pos m H; cbn [search_from] in H.
  - destruct (match_here r prev "") as [[n cs]|] eqn:E; [|discriminate].
    injection H as <-.
    apply match_here_shape in E as (w & s' & cs' & Hs & D & _ & ->).
    exists "", w, s', cs'. cbn. repeat split; auto.
  - destruct (match_here r prev (String c s)) as [[n cs]|] eqn:E.
    + injection H as <-.
      apply match_here_shape in E as (w & s' & cs' & Hs & D & _ & ->).
      exists "", w, s', cs'. cbn. repeat split; auto.
    + apply IH in H as (pre & w & post & cs' & -> & D & Hg).
      exists (String c pre), w, post, cs'. cbn. repeat split; auto.
Qed.

Lemma search_shape (r : regex) (s : string) (m : rmatch) :
  search r s = Some m ->
  exists pre w post cs',
    s = pre ++ w ++ post /\ shape r w [] cs' /\ m_groups m = set_group 0 w cs'.
Proof. apply search_from_shape. Qed.

Ltac invert_shape :=
  repeat match goal with
         | H : shape (Cat _ _) _ _ _ |- _ => inversion H; subst; clear H
         | H : shape (Grp _ _) _ _ _ |- _ => inversion H; subst; clear H
         | H : shape (Rep _ _ _) _ _ _ |- _ => inversion H; subst; clear H
         | H : shape (Chr _) _ _ _ |- _ => inversion H; subst; clear H
         | H : shape Bnd _ _ _ |- _ => inversion H; subst; clear H
         | H : shape Eps _ _ _ |- _ => inversion H; subst; clear H
         end;
  repeat match goal with
         | E : Char.eq _ _ = true |- _ => apply Ascii.eqb_eq in E; subst
         end;
  unfold within in *.

Lemma matches_search (r : regex) (s : string) :
  matches r s = true -> exists m, search r s = Some m.
Proof. unfold matches. destruct (search r s) as [m|]; [eauto | discriminate]. Qed.

Lemma search_matches (r : regex) (s : string) (m : rmatch) :
  search r s = Some m -> matches r s = true.
Proof. unfold matches. now intros ->. Qed.

Lemma all_app (p : ascii -> bool) (a b : string) :
  Str.all p (a ++ b) = Str.all p a && Str.all p b.
Proof.
  induction a as [|c a IH]; cbn; [reflexivity|]. rewrite IH. now rewrite andb_assoc.
Qed.

Lemma contains_app (c : ascii) (a b : string) :
  Str.contains c (a ++ b) = Str.contains c a || Str.contains c b.
Proof.
  induction a as [|x a IH]; cbn; [reflexivity|]. rewrite IH. now rewrite orb_assoc.
Qed.

Lemma contains_rep_other (c x : ascii) (n : nat) :
  Ascii.eqb x c = false -> Str.contains c (Str.rep x n) = false.
Proof. intro H. induction n; cbn; [reflexivity|]. now rewrite H. Qed.

Lemma length_drop (n : nat) (s : string) : length (Str.drop n s) = length s - n.
Proof. revert s. induction n as [|n IH]; intros [|c s]; cbn; auto. Qed.

Lemma length_only_digits_le (s : string) : length (only_digits s) <= length s.
Proof. induction s as [|c s IH]; cbn; [lia|]. destruct (Char.digit c); cbn; lia. Qed.

Lemma only_digits_all (s : string) : Str.all Char.digit (only_digits s) = true.
Proof.
  induction s as [|c s IH]; cbn; [reflexivity|].
  destruct (Char.digit c) eqn:E; cbn; [now rewrite E|exact IH].
Qed.

Lemma only_digits_idem (s : string) : only_digits (only_digits s) = only_digits s.
Proof. apply only_digits_id, only_digits_all. Qed.

Lemma mask_phone_by_only_digits (p : string) :
  mask_phone p
  = if length (only_digits p) =? 10
    then Str.take 2 (only_digits p) ++ "XXXXXX" ++ Str.drop 8 (only_digits p)
    else REDACTED_PII.
Proof.
  unfold mask_phone. rewrite digits_of_only_digits.
  destruct (length (only_digits p) =? 10) eqn:E; [|reflexivity].
  apply Nat.eqb_eq in E. unfold Str.last_n. now rewrite E.
Qed.

Lemma mask_aadhar_by_only_digits (a : string) :
  mask_aadhar a
  = if length (only_digits a) =? 12
    then Str.take 4 (only_digits a) ++ "XXXX" ++ Str.drop 8 (only_digits a)
    else REDACTED_PII.
Proof.
  unfold mask_aadhar. rewrite digits_of_only_digits.
  destruct (length (only_digits a) =? 12) eqn:E; [|reflexivity].
  apply Nat.eqb_eq in E. unfold Str.last_n. now rewrite E.
Qed.

(** X1. [mask_phone] reads the digits of its input only: anything else in
    the input is dropped first. With exactly ten digits the result is the
    first two, six X and the last two, ten characters in all; with any other
    number of digits it is the token. *)
Theorem mask_phone_reads_digits_only (p : string) :
  mask_phone p = mask_phone (only_digits p)
  /\ mask_phone p
     = (if length (only_digits p) =? 10
        then Str.take 2 (only_digits p) ++ "XXXXXX" ++ Str.drop 8 (only_digits p)
        else REDACTED_PII)
  /\ length (mask_phone p) = (if length (only_digits p) =? 10 then 10 else 14).
Proof.
  split; [|split].
  - rewrite (mask_phone_by_only_digits (only_digits p)), only_digits_idem.
    apply mask_phone_by_only_digits.
  - apply mask_phone_by_only_digits.
  - rewrite mask_phone_by_only_digits.
    destruct (length (only_digits p) =? 10) eqn:E; [|reflexivity].
    apply Nat.eqb_eq in E.
    rewrite !length_app, length_take, length_drop, E. reflexivity.
Qed.

(** X2. [mask_aadhar] reads the digits of its input only. With exactly
    twelve digits the result is the first four, four X and the last four;
    with any other number of digits it is the token. *)
Theorem mask_aadhar_reads_digits_only (a : string) :
  mask_aadhar a = mask_aadhar (only_digits a)
  /\ mask_aadhar a
     = (if length (only_digits a) =? 12
        then Str.take 4 (only_digits a) ++ "XXXX" ++ Str.drop 8 (only_digits a)
        else REDACTED_PII)
  /\ length (mask_aadhar a) = (if length (only_digits a) =? 12 then 12 else 14).
Proof.
  split; [|split].
  - rewrite (mask_aadhar_by_only_digits (only_digits a)), only_digits_idem.
    apply mask_aadhar_by_only_digits.
  - apply mask_aadhar_by_only_digits.
  - rewrite mask_aadhar_by_only_digits.
    destruct (length (only_digits a) =? 12) eqn:E; [|reflexivity].
    apply Nat.eqb_eq in E.
    rewrite !length_app, length_take, length_drop, E. reflexivity.
Qed.

(** A match of the passport pattern is one letter and seven digits. *)
Lemma passport_match_shape (p : string) (m : rmatch) :
  search PASSPORT_RE p = Some m ->
  exists c ds pre post,
    p = pre ++ String c ds ++ post
    /\ group m 1 = String c ds
    /\ Char.alpha c = true /\ length ds = 7 /\ Str.all Char.digit ds = true.
Proof.
  intro H. apply search_shape in H as (pre & w & post & cs' & -> & D & Hg).
  unfold PASSPORT_RE in D. invert_shape.
  unfold group. rewrite Hg. cbn [m_groups get_group set_group Nat.eqb].
  match goal with
  | Hl : 1 <= length ?w1, Hu : length ?w1 <= 1 |- _ =>
      destruct w1 as [|c [|c' w1]]; cbn in Hl, Hu; try lia
  end.
  match goal with
  | Ha : Str.all Char.alpha (String c "") = true |- _ =>
      cbn in Ha; rewrite andb_true_r in Ha
  end.
  match goal with
  | Hd : Str.all Char.digit ?ds = true |- _ =>
      exists c, ds, pre, post
  end.
  cbn. rewrite !app_nil_r. repeat split; auto. lia.
Qed.

(** X3. On an input with a passport match, [mask_passport] returns the
    letter of the first match, six X and its last digit: the match always
    has eight characters, so the fallback after the test on its length is
    never taken. *)
Theorem mask_passport_shape (p : string) (m : rmatch) :
  search PASSPORT_RE p = Some m ->
  exists c ds,
    group m 1 = String c ds
    /\ Char.alpha c = true /\ length ds = 7 /\ Str.all Char.digit ds = true
    /\ mask_passport p = String c ("XXXXXX" ++ Str.drop 6 ds).
Proof.
  intro H.
  destruct (passport_match_shape p m H) as (c & ds & _ & _ & _ & Hg & Hc & Hl & Hd).
  exists c, ds. repeat split; auto.
  unfold mask_passport. rewrite H, Hg. cbn [length]. rewrite Hl.
  cbn [Nat.leb Nat.sub Str.rep Str.take]. unfold Str.last_n. cbn [length]. rewrite Hl.
  reflexivity.
Qed.

Lemma mask_passport_witness :
  search PASSPORT_RE "id p1234567."
  = Some {| m_start := 3; m_groups := [(0, "p1234567"); (1, "p1234567")] |}
  /\ exists c ds,
      "p1234567" = String c ds
      /\ Char.alpha c = true /\ length ds = 7 /\ Str.all Char.digit ds = true
      /\ mask_passport "id p1234567." = String c ("XXXXXX" ++ Str.drop 6 ds).
Proof.
  split; [reflexivity|].
  exact (mask_passport_shape "id p1234567."
           {| m_start := 3; m_groups := [(0, "p1234567"); (1, "p1234567")] |} eq_refl).
Defined.

Lemma digit_not_dot (c : ascii) : Char.digit c = true -> Ascii.eqb c "." = false.
Proof.
  destruct c as [[] [] [] [] [] [] [] []]; intro H; try discriminate H; reflexivity.
Qed.

Lemma split_on_digits (a : string) :
  forall cur rest,
    Str.all Char.digit a = true ->
    split_on "." cur (a ++ rest) = split_on "." (cur ++ a) rest.
Proof.
  induction a as [|c a IH]; intros cur rest H; cbn [append].
  - now rewrite app_nil_r.
  - cbn in H. apply andb_true_iff in H as [Hc Ha].
    cbn [split_on]. rewrite (digit_not_dot c Hc). rewrite IH by exact Ha.
    now rewrite app_assoc.
Qed.

Lemma split_on_four (a b c d : string) :
  Str.all Char.digit a = true -> Str.all Char.digit b = true ->
  Str.all Char.digit c = true -> Str.all Char.digit d = true ->
  split_on "." "" (a ++ "." ++ b ++ "." ++ c ++ "." ++ d) = [a; b; c; d].
Proof.
  intros Ha Hb Hc Hd.
  rewrite split_on_digits by exact Ha. cbn [append split_on Ascii.eqb Bool.eqb].
  rewrite split_on_digits by exact Hb. cbn [append split_on Ascii.eqb Bool.eqb].
  rewrite split_on_digits by exact Hc. cbn [append split_on Ascii.eqb Bool.eqb].
  rewrite <- (app_nil_r d) at 1. rewrite split_on_digits by exact Hd.
  reflexivity.
Qed.

(** A match of the IPv4 pattern is four groups of one to three digits with
    dots between them. *)
Lemma ipv4_match_shape (ip : string) (m : rmatch) :
  search IPV4_RE ip = Some m ->
  exists a b c d,
    group m 1 = a ++ "." ++ b ++ "." ++ c ++ "." ++ d
    /\ Forall (fun o => 1 <= length o <= 3 /\ Str.all Char.digit o = true) [a; b; c; d].
Proof.
  intro H. apply search_shape in H as (pre & w & post & cs' & -> & D & Hg).
  unfold IPV4_RE in D. cbn [times] in D. invert_shape.
  unfold group. rewrite Hg. cbn [m_groups get_group set_group Nat.eqb].
  match goal with
  | |- context [((?a ++ _) ++ (?b ++ _) ++ (?c ++ _) ++ _) ++ ?d] =>
      exists a, b, c, d
  end.
  split.
  - rewrite !app_assoc. cbn. now rewrite ?app_nil_r.
  - repeat (apply Forall_cons; [repeat split; assumption|]). apply Forall_nil.
Qed.

(** X4. On an input with an IPv4 match, [mask_ip] returns the first three
    groups of the first match, unchanged, and XXX for the fourth: the match
    always splits into four parts, so the fallback after the test on the
    number of parts is never taken. *)
Theorem mask_ip_shape (ip : string) (m : rmatch) :
  search IPV4_RE ip = Some m ->
  exists a b c d,
    group m 1 = a ++ "." ++ b ++ "." ++ c ++ "." ++ d
    /\ Forall (fun o => 1 <= length o <= 3 /\ Str.all Char.digit o = true) [a; b; c; d]
    /\ mask_ip ip = a ++ "." ++ b ++ "." ++ c ++ ".XXX".
Proof.
  intro H. destruct (ipv4_match_shape ip m H) as (a & b & c & d & Hg & Hall).
  exists a, b, c, d. split; [exact Hg|]. split; [exact Hall|].
  unfold mask_ip. rewrite H, Hg.
  inversion Hall as [|? ? [_ Ha] Hall1]; subst.
  inversion Hall1 as [|? ? [_ Hb] Hall2]; subst.
  inversion Hall2 as [|? ? [_ Hc] Hall3]; subst.
  inversion Hall3 as [|? ? [_ Hd] _]; subst.
  rewrite split_on_four by assumption. reflexivity.
Qed.

Lemma mask_ip_witness :
  search IPV4_RE "host 192.168.1.77!"
  = Some {| m_start := 5; m_groups := [(0, "192.168.1.77"); (1, "192.168.1.77")] |}
  /\ exists a b c d,
      "192.168.1.77" = a ++ "." ++ b ++ "." ++ c ++ "." ++ d
      /\ Forall (fun o => 1 <= length o <= 3 /\ Str.all Char.digit o = true) [a; b; c; d]
      /\ mask_ip "host 192.168.1.77!" = a ++ "." ++ b ++ "." ++ c ++ ".XXX".
Proof.
  split; [reflexivity|].
  exact (mask_ip_shape "host 192.168.1.77!"
           {| m_start := 5; m_groups := [(0, "192.168.1.77"); (1, "192.168.1.77")] |}
           eq_refl).
Defined.

(** X5. On an input with a UPI match, with [user] and [host] the two groups
    of the first match, [mask_upi] returns some kept characters, then X's,
    then the at sign and the host as it was. The user has two characters or
    more: with exactly two, its first character is kept and one X follows;
    with more, its first two are kept and [max 3 (len - 2)] X's follow. *)
Theorem upi_mask_shape (u : string) (m : rmatch) :
  search UPI_RE u = Some m ->
  let user := group m 1 in
  let host := group m 2 in
  (exists pre post, u = pre ++ (user ++ "@" ++ host) ++ post)
  /\ 2 <= length user
  /\ exists kept xs,
      mask_upi u = kept ++ Str.rep "X" xs ++ "@" ++ host
      /\ ((length user = 2 /\ kept = Str.take 1 user /\ length kept = 1 /\ xs = 1)
          \/ (2 < length user /\ kept = Str.take 2 user /\ length kept = 2
              /\ xs = Nat.max 3 (length user - 2))).
Proof.
  intros H user host.
  destruct (upi_match_shape u m H) as (pre & post & Hu & _ & Hlen & _).
  fold user in Hlen.
  split; [exists pre, post; exact Hu|]. split; [exact Hlen|].
  unfold mask_upi. rewrite H. fold user host.
  destruct (length user <=? 2) eqn:L.
  - apply Nat.leb_le in L.
    exists (Str.take 1 user), 1. split; [now rewrite app_assoc|].
    left. repeat split; auto; try lia. rewrite length_take. lia.
  - apply Nat.leb_gt in L.
    exists (Str.take 2 user), (Nat.max 3 (length user - 2)).
    split; [now rewrite app_assoc|].
    right. repeat split; auto. rewrite length_take. lia.
Qed.

Lemma upi_mask_witness :
  let m := {| m_start := 4;
              m_groups := [(0, "ab@okaxis"); (2, "okaxis"); (1, "ab")] |} in
  search UPI_RE "pay ab@okaxis now" = Some m
  /\ mask_upi "pay ab@okaxis now" = "aX@okaxis"
  /\ 2 <= length (group m 1).
Proof.
  intro m. split; [reflexivity|]. split; [reflexivity|].
  exact (proj1 (proj2 (upi_mask_shape "pay ab@okaxis now" m eq_refl))).
Defined.

Lemma no_match_no_search (r : regex) (s : string) :
  matches r s = false -> search r s = None.
Proof. unfold matches. destruct (search r s); [discriminate | reflexivity]. Qed.

Lemma token_has_no_at : Str.contains "@" REDACTED_PII = false.
Proof. reflexivity. Qed.

Lemma token_has_no_dot : Str.contains "." REDACTED_PII = false.
Proof. reflexivity. Qed.

(** X6. Each of [mask_email], [mask_upi], [mask_passport] and [mask_ip]
    returns the token exactly when its pattern is nowhere in the input. *)
Theorem token_iff_no_match (s : string) :
  (mask_email s = REDACTED_PII <-> matches EMAIL_RE s = false)
  /\ (mask_upi s = REDACTED_PII <-> matches UPI_RE s = false)
  /\ (mask_passport s = REDACTED_PII <-> matches PASSPORT_RE s = false)
  /\ (mask_ip s = REDACTED_PII <-> matches IPV4_RE s = false).
Proof.
  repeat split.
  - intro E. destruct (matches EMAIL_RE s) eqn:M; [|reflexivity]. exfalso.
    apply matches_search in M as [m M]. revert E. unfold mask_email. rewrite M.
    intro E. apply (f_equal (Str.contains "@")) in E.
    rewrite !contains_app, token_has_no_at in E. cbn in E.
    rewrite orb_true_r in E. discriminate E.
  - intro M. unfold mask_email. now rewrite (no_match_no_search _ _ M).
  - intro E. destruct (matches UPI_RE s) eqn:M; [|reflexivity]. exfalso.
    apply matches_search in M as [m M]. revert E. unfold mask_upi. rewrite M.
    intro E. apply (f_equal (Str.contains "@")) in E.
    rewrite !contains_app, token_has_no_at in E. cbn in E.
    rewrite orb_true_r in E. discriminate E.
  - intro M. unfold mask_upi. now rewrite (no_match_no_search _ _ M).
  - intro E. destruct (matches PASSPORT_RE s) eqn:M; [|reflexivity]. exfalso.
    apply matches_search in M as [m M].
    destruct (passport_match_shape s m M) as (c & ds & _ & _ & _ & Hg & _ & Hl & _).
    revert E. unfold mask_passport. rewrite M, Hg. cbn [length]. rewrite Hl.
    cbn [Nat.leb]. intro E. apply (f_equal length) in E.
    unfold Str.last_n in E. rewrite !length_app, length_rep, length_drop in E.
    cbn in E. rewrite Hl in E. cbn in E. lia.
  - intro M. unfold mask_passport. now rewrite (no_match_no_search _ _ M).
  - intro E. destruct (matches IPV4_RE s) eqn:M; [|reflexivity]. exfalso.
    apply matches_search in M as [m M].
    destruct (ipv4_match_shape s m M) as (a & b & c & d & Hg & Hall).
    inversion Hall as [|? ? [_ Ha] Hall1]; subst.
    inversion Hall1 as [|? ? [_ Hb] Hall2]; subst.
    inversion Hall2 as [|? ? [_ Hc] Hall3]; subst.
    inversion Hall3 as [|? ? [_ Hd] _]; subst.
    revert E. unfold mask_ip. rewrite M, Hg, split_on_four by assumption.
    cbn [List.length Nat.eqb firstn List.app Str.join String.concat].
    intro E. apply (f_equal (Str.contains ".")) in E.
    rewrite !contains_app, token_has_no_dot in E. cbn in E.
    rewrite ?orb_true_r in E. discriminate E.
  - intro M. unfold mask_ip. now rewrite (no_match_no_search _ _ M).
Qed.

Lemma sub_any (s : string) :
  forall prev pos, sub_from ANY_RE (fun _ => "X") prev s pos 0 = x_out s.
Proof.
  induction s as [|c s IH]; intros prev pos.
  - reflexivity.
  - cbn [sub_from match_here ANY_RE run x_out].
    destruct (Char.dot c).
    + cbn [length]. rewrite succ_sub. cbn. now rewrite IH.
    + now rewrite IH.
Qed.

Lemma x_out_clean (s : string) :
  Str.contains "010" s = false -> x_out s = Str.rep "X" (length s).
Proof.
  induction s as [|c s IH]; cbn; [reflexivity|]. intro H.
  apply orb_false_iff in H as [Hc Hs]. unfold Char.dot, Char.eq.
  rewrite Ascii.eqb_sym, Hc. cbn. now rewrite IH.
Qed.

Lemma x_out_app (a b : string) : x_out (a ++ b) = x_out a ++ x_out b.
Proof. induction a as [|c a IH]; cbn; [reflexivity | now rewrite IH]. Qed.

(** X7. The device masker keeps the length of its input and leaves nothing
    but X and line feeds: every character becomes X, except a line feed,
    which [.] does not match and which stays where it is, the text before it
    and the text after it being masked each on its own. Without a line feed
    in it, the input becomes as many X as it has characters. *)
Theorem mask_device_shape (s : string) :
  length (mask_device s) = length s
  /\ Str.all x_or_newline (mask_device s) = true
  /\ (forall a b,
         s = a ++ String "010" b ->
         mask_device s = mask_device a ++ String "010" (mask_device b))
  /\ (Str.contains "010" s = false -> mask_device s = Str.rep "X" (length s)).
Proof.
  unfold mask_device, sub. rewrite sub_any. repeat split.
  - induction s as [|c s IH]; cbn; congruence.
  - induction s as [|c s IH]; cbn; [reflexivity|]. rewrite IH, andb_true_r.
    unfold x_or_newline, Char.dot, Char.eq.
    destruct (Ascii.eqb "010" c) eqn:E; cbn [negb].
    + rewrite E. apply orb_true_r.
    + reflexivity.
  - intros a b ->. rewrite !sub_any, x_out_app. reflexivity.
  - apply x_out_clean.
Qed.

Lemma mask_device_witness :
  mask_device ("ab" ++ String "010" "cd") = "XX" ++ String "010" "XX"
  /\ mask_device "ab-12:cd" = "XXXXXXXX".
Proof.
  split.
  - exact (proj1 (proj2 (proj2 (mask_device_shape ("ab" ++ String "010" "cd"))))
             "ab" "cd" eq_refl).
  - exact (proj2 (proj2 (proj2 (mask_device_shape "ab-12:cd"))) eq_refl).
Defined.

(* ------------------------------------------------------------------ *)
(** *** Names *)

Lemma split_go_run (w : string) :
  forall cur rest,
    Str.all non_space w = true ->
    Str.split_go (Some cur) (w ++ rest) = Str.split_go (Some (cur ++ w)) rest.
Proof.
  induction w as [|x w IH]; intros cur rest H; cbn [append].
  - now rewrite app_nil_r.
  - cbn in H. apply andb_true_iff in H as [Hx Hw].
    unfold non_space in Hx. apply negb_true_iff in Hx.
    cbn [Str.split_go]. rewrite Hx. rewrite IH by exact Hw. now rewrite app_assoc.
Qed.

Lemma split_go_token (w rest : string) :
  is_token w -> Str.split_go None (w ++ rest) = Str.split_go (Some w) rest.
Proof.
  intros [Hne Hall]. destruct w as [|x w]; [contradiction|].
  cbn in Hall. apply andb_true_iff in Hall as [Hx Hw].
  unfold non_space in Hx. apply negb_true_iff in Hx.
  cbn [append Str.split_go]. rewrite Hx. now rewrite split_go_run by exact Hw.
Qed.

Lemma split_join (parts : list string) :
  Forall is_token parts -> Str.split (Str.join " " parts) = parts.
Proof.
  unfold Str.split, Str.join.
  induction parts as [|p parts IH]; intro H; [reflexivity|].
  inversion H as [|? ? Hp Hparts]; subst.
  destruct parts as [|q parts].
  - cbn [String.concat]. rewrite <- (app_nil_r p) at 1.
    now rewrite split_go_token by exact Hp.
  - change (String.concat " " (p :: q :: parts))
      with (p ++ " " ++ String.concat " " (q :: parts)).
    rewrite split_go_token by exact Hp. cbn [append Str.split_go].
    change (Char.space " ") with true. cbn iota. now rewrite IH.
Qed.

Lemma token_snoc (w : string) (x : ascii) :
  Str.all non_space w = true -> non_space x = true -> is_token (w ++ String x "").
Proof.
  intros Hw Hx. split.
  - destruct w; discriminate.
  - rewrite all_app, Hw. cbn. now rewrite Hx.
Qed.

Lemma split_go_tokens (s : string) :
  forall cur,
    match cur with Some w => is_token w | None => True end ->
    Forall is_token (Str.split_go cur s).
Proof.
  induction s as [|x s IH]; intros cur Hcur; cbn [Str.split_go].
  - destruct cur as [w|]; [apply Forall_cons; [exact Hcur | apply Forall_nil] | apply Forall_nil].
  - destruct (Char.space x) eqn:Hx.
    + destruct cur as [w|]; [constructor; [exact Hcur|]|]; now apply IH.
    + assert (Hnx : non_space x = true) by (unfold non_space; now rewrite Hx).
      destruct cur as [w|]; apply IH.
      * destruct Hcur as [_ Hw]. now apply token_snoc.
      * now apply (token_snoc "" x).
Qed.

Lemma split_tokens (s : string) : Forall is_token (Str.split s).
Proof. apply split_go_tokens. exact I. Qed.

Lemma all_rep (p : ascii -> bool) (c : ascii) (n : nat) :
  p c = true -> Str.all p (Str.rep c n) = true.
Proof. intro H. induction n; cbn; [reflexivity|]. now rewrite H. Qed.

Lemma mask_token_token (p : string) : is_token p -> is_token (mask_token p).
Proof.
  intros [Hne Hall]. unfold mask_token.
  destruct p as [|c [|c' p]]; [contradiction| |].
  - split; [discriminate | reflexivity].
  - cbn in Hall. apply andb_true_iff in Hall as [Hc _].
    cbn [length Nat.leb Str.take append]. split; [discriminate|].
    cbn [Str.all]. rewrite Hc. now apply all_rep.
Qed.

Lemma mask_token_length (p : string) : p <> "" -> length (mask_token p) = length p.
Proof.
  intro Hne. unfold mask_token.
  destruct p as [|c [|c' p]]; [contradiction|reflexivity|].
  cbn [length Nat.leb Str.take append]. rewrite length_rep. cbn. lia.
Qed.

Lemma mask_token_idem (p : string) : mask_token (mask_token p) = mask_token p.
Proof.
  unfold mask_token at 2.
  destruct p as [|c [|c' p]]; try reflexivity.
  cbn [length Nat.leb Str.take append Nat.sub]. unfold mask_token.
  cbn [length Nat.leb Str.take append]. rewrite length_rep. reflexivity.
Qed.

Lemma mask_tokens_tokens (ps : list string) :
  Forall is_token ps -> Forall is_token (map mask_token ps).
Proof.
  induction 1 as [|p ps Hp _ IH]; cbn [map];
    [apply Forall_nil | apply Forall_cons; [now apply mask_token_token | exact IH]].
Qed.

Lemma mask_tokens_lengths (ps : list string) :
  Forall is_token ps -> map length (map mask_token ps) = map length ps.
Proof.
  induction 1 as [|p ps [Hne _] _ IH]; cbn [map]; [reflexivity|].
  now rewrite IH, mask_token_length.
Qed.

(** X8. A name of two words or more is masked word by word: the result has
    the same words in number, each as long as the word it stands for, with a
    single space between them. *)
Theorem masked_name_words (name : string) :
  2 <= List.length (Str.split (Str.strip name)) ->
  mask_generic_name name
  = Str.join " " (map mask_token (Str.split (Str.strip name)))
  /\ Str.split (mask_generic_name name) = map mask_token (Str.split (Str.strip name))
  /\ map length (Str.split (mask_generic_name name))
     = map length (Str.split (Str.strip name)).
Proof.
  intro H.
  assert (E : mask_generic_name name
              = Str.join " " (map mask_token (Str.split (Str.strip name)))).
  { unfold mask_generic_name. apply Nat.leb_le in H. now rewrite H. }
  pose proof (split_tokens (Str.strip name)) as Htok.
  assert (S : Str.split (mask_generic_name name)
              = map mask_token (Str.split (Str.strip name))).
  { rewrite E. apply split_join. now apply mask_tokens_tokens. }
  split; [exact E|]. split; [exact S|].
  rewrite S. now apply mask_tokens_lengths.
Qed.

Lemma masked_name_witness :
  2 <= List.length (Str.split (Str.strip "  John  Q Smith "))
  /\ mask_generic_name "  John  Q Smith " = "JXXX X SXXXX"
  /\ Str.split (mask_generic_name "  John  Q Smith ") = ["JXXX"; "X"; "SXXXX"]
  /\ map length (Str.split (mask_generic_name "  John  Q Smith ")) = [4; 1; 5].
Proof.
  split; [apply Nat.leb_le; reflexivity|].
  apply (masked_name_words "  John  Q Smith "). apply Nat.leb_le. reflexivity.
Defined.

Lemma rstrip_ends_clean (s : string) : ends_clean s = true -> Str.rstrip s = s.
Proof.
  induction s as [|x s IH]; [reflexivity|].
  destruct s as [|y s].
  - cbn. unfold non_space. intro H. apply negb_true_iff in H. now rewrite H.
  - intro H. change (ends_clean (String x (String y s))) with (ends_clean (String y s)) in H.
    change (Str.rstrip (String x (String y s)))
      with (match Str.rstrip (String y s) with
            | "" => if Char.space x then "" else String x ""
            | t => String x t
            end).
    now rewrite IH.
Qed.

Lemma rstrip_is_clean (s : string) : ends_clean (Str.rstrip s) = true.
Proof.
  induction s as [|x s IH]; [reflexivity|].
  cbn [Str.rstrip]. destruct (Str.rstrip s) as [|y t] eqn:E.
  - destruct (Char.space x) eqn:Hx; [reflexivity|]. cbn. unfold non_space. now rewrite Hx.
  - exact IH.
Qed.

Lemma rstrip_keeps_head (c : ascii) (s : string) :
  Char.space c = false -> exists t, Str.rstrip (String c s) = String c t.
Proof.
  intro H. cbn [Str.rstrip]. destruct (Str.rstrip s) as [|y t].
  - rewrite H. now exists "".
  - now exists (String y t).
Qed.

Lemma lstrip_head (s : string) :
  Str.lstrip s = "" \/ exists c t, Str.lstrip s = String c t /\ Char.space c = false.
Proof.
  induction s as [|x s IH]; [now left|].
  cbn [Str.lstrip]. destruct (Char.space x) eqn:Hx; [exact IH|].
  right. now exists x, s.
Qed.

Lemma strip_idem (s : string) : Str.strip (Str.strip s) = Str.strip s.
Proof.
  unfold Str.strip.
  destruct (lstrip_head s) as [E|(c & t & E & Hc)]; rewrite E.
  - reflexivity.
  - destruct (rstrip_keeps_head c t Hc) as [u Eu].
    assert (L : Str.lstrip (Str.rstrip (String c t)) = Str.rstrip (String c t)).
    { rewrite Eu. cbn [Str.lstrip]. now rewrite Hc. }
    rewrite L. apply rstrip_ends_clean, rstrip_is_clean.
Qed.

Lemma ends_clean_app (a b : string) : b <> "" -> ends_clean (a ++ b) = ends_clean b.
Proof.
  intro Hb. induction a as [|x a IH]; [reflexivity|].
  cbn [append]. destruct (a ++ b) as [|y r] eqn:E.
  - destruct a; [cbn in E; contradiction | discriminate E].
  - exact IH.
Qed.

Lemma ends_clean_token (w : string) : is_token w -> ends_clean w = true.
Proof.
  intros [Hne Hall]. induction w as [|x w IH]; [contradiction|].
  cbn in Hall. apply andb_true_iff in Hall as [Hx Hw].
  destruct w as [|y w]; [exact Hx|]. apply IH; [discriminate | exact Hw].
Qed.

Lemma join_tokens_clean (ps : list string) :
  Forall is_token ps -> ends_clean (Str.join " " ps) = true.
Proof.
  unfold Str.join. induction 1 as [|p ps Hp Hps IH]; [reflexivity|].
  destruct ps as [|q ps]; [now apply ends_clean_token|].
  change (String.concat " " (p :: q :: ps))
    with (p ++ String " " (String.concat " " (q :: ps))).
  rewrite ends_clean_app by discriminate.
  inversion Hps as [|? ? [Hq _] _]; subst.
  destruct (String.concat " " (q :: ps)) as [|y r] eqn:E; [|exact IH].
  exfalso. destruct ps; cbn in E; [contradiction|]. destruct q; [contradiction | discriminate E].
Qed.

Lemma lstrip_join_tokens (ps : list string) :
  Forall is_token ps -> Str.lstrip (Str.join " " ps) = Str.join " " ps.
Proof.
  unfold Str.join. intros H. destruct H as [|p ps [Hne Hall] Hps]; [reflexivity|].
  destruct p as [|x p]; [contradiction|].
  cbn in Hall. apply andb_true_iff in Hall as [Hx _].
  unfold non_space in Hx. apply negb_true_iff in Hx.
  destruct ps; cbn [String.concat append Str.lstrip]; now rewrite Hx.
Qed.

Lemma strip_join_tokens (ps : list string) :
  Forall is_token ps -> Str.strip (Str.join " " ps) = Str.join " " ps.
Proof.
  intro H. unfold Str.strip. rewrite lstrip_join_tokens by exact H.
  now apply rstrip_ends_clean, join_tokens_clean.
Qed.

(** X9. Masking a name twice gives what masking it once gives. *)
Theorem mask_generic_name_idempotent (name : string) :
  mask_generic_name (mask_generic_name name) = mask_generic_name name.
Proof.
  pose proof (split_tokens (Str.strip name)) as Htok.
  destruct (2 <=? List.length (Str.split (Str.strip name))) eqn:L.
  - assert (E : mask_generic_name name
                = Str.join " " (map mask_token (Str.split (Str.strip name)))).
    { unfold mask_generic_name. now rewrite L. }
    rewrite E. unfold mask_generic_name at 1.
    rewrite strip_join_tokens by now apply mask_tokens_tokens.
    rewrite split_join by now apply mask_tokens_tokens.
    rewrite length_map, L. rewrite map_map. f_equal.
    apply map_ext. intro p. apply mask_token_idem.
  - assert (E : mask_generic_name name = Str.strip name).
    { unfold mask_generic_name. now rewrite L. }
    rewrite E. unfold mask_generic_name. now rewrite strip_idem, L.
Qed.

(* ================================================================== *)
(** ** Further properties of detect_and_mask *)

Lemma keys_set_in (k : string) (v : value) (d : dict) :
  In k (keys d) -> keys (dict_set k v d) = keys d.
Proof.
  induction d as [|[k0 v0] d IH]; cbn; intro H; [contradiction|].
  destruct (String.eqb k k0) eqn:E; cbn; [reflexivity|].
  destruct H as [H|H].
  - subst k0. now rewrite String.eqb_refl in E.
  - f_equal. unfold keys in IH. now apply IH.
Qed.

Lemma in_keys (k : string) (v : value) (d : dict) : In (k, v) d -> In k (keys d).
Proof. intro H. change k with (fst (k, v)). now apply in_map. Qed.

Lemma dict_mem_in (k : string) (d : dict) : dict_mem k d = true -> In k (keys d).
Proof.
  unfold dict_mem. induction d as [|[k0 v0] d IH]; cbn; [discriminate|].
  destruct (String.eqb k k0) eqn:E.
  - apply String.eqb_eq in E. now left.
  - intro H. right. now apply IH.
Qed.

Lemma in_dict_mem (k : string) (d : dict) : In k (keys d) -> dict_mem k d = true.
Proof.
  unfold dict_mem. intro H. destruct (dict_get k d) eqn:E; [reflexivity|].
  exfalso. induction d as [|[k0 v0] d IH]; cbn in *; [contradiction|].
  destruct (String.eqb k k0) eqn:E0; [discriminate E|].
  destruct H as [H|H]; [subst; now rewrite String.eqb_refl in E0 | auto].
Qed.

Lemma truthy_get_in (record : dict) (k : string) :
  truthy (get record k) = true -> In k (keys record).
Proof.
  unfold get, get_or. intro H. apply dict_mem_in. unfold dict_mem.
  destruct (dict_get k record); [reflexivity | discriminate H].
Qed.

(** A write under a key of the record keeps the keys of the working copy. *)
Lemma set_keeps_keys (record d : dict) (k : string) (v : value) :
  keys d = keys record -> In k (keys record) ->
  keys (dict_set k v d) = keys record.
Proof. intros Hd Hk. rewrite keys_set_in; [exact Hd | now rewrite Hd]. Qed.

Lemma mark_keeps_keys (record : dict) (x : scan) (k s : string) :
  keys (fst x) = keys record -> In k (keys record) ->
  keys (fst (mark k s x)) = keys record.
Proof. intros. unfold mark. cbn [fst]. now apply set_keeps_keys. Qed.

Lemma rule_phone_fields_keys (record : dict) (x : scan) :
  keys (fst x) = keys record -> keys (fst (rule_phone_fields record x)) = keys record.
Proof.
  intro Hx. unfold rule_phone_fields, phone_fields. cbn [fold_left].
  assert (Hstep : forall f y, keys (fst y) = keys record ->
                    keys (fst (if dict_mem f record && truthy (get record f)
                               then if matches PHONE_RE (py_str (get record f))
                                    then mark f (mask_phone (py_str (get record f))) y
                                    else y
                               else y)) = keys record).
  { intros f y Hy. destruct (dict_mem f record) eqn:M; cbn [andb]; [|exact Hy].
    destruct (truthy (get record f)); [|exact Hy].
    destruct (matches PHONE_RE _); [|exact Hy].
    apply mark_keeps_keys; [exact Hy | now apply dict_mem_in]. }
  apply Hstep. apply Hstep. exact Hx.
Qed.

Lemma rule_phone_any_keys (record : dict) (x : scan) :
  keys (fst x) = keys record -> keys (fst (rule_phone_any record x)) = keys record.
Proof.
  unfold rule_phone_any.
  apply (for_items_inv scan (fun y => keys (fst y) = keys record)).
  intros k v y Hin Hy. destruct v as [s| | |]; try exact Hy.
  destruct (matches PHONE_RE s); [|exact Hy].
  destruct (negb _ || negb _); [|exact Hy].
  apply mark_keeps_keys; [exact Hy | now apply in_keys with (VStr s)].
Qed.

Lemma rule_aadhar_keys (record : dict) (x : scan) :
  keys (fst x) = keys record -> keys (fst (rule_aadhar record x)) = keys record.
Proof.
  unfold rule_aadhar.
  apply (for_items_inv scan (fun y => keys (fst y) = keys record)).
  intros k v y Hin Hy. destruct v as [s| | |]; try exact Hy.
  destruct (matches AADHAR_RE s); [|exact Hy].
  apply mark_keeps_keys; [exact Hy | now apply in_keys with (VStr s)].
Qed.

Lemma rule_passport_keys (record : dict) (x : scan) :
  keys (fst x) = keys record -> keys (fst (rule_passport record x)) = keys record.
Proof.
  unfold rule_passport.
  apply (for_items_inv scan (fun y => keys (fst y) = keys record)).
  intros k v y Hin Hy. destruct v as [s| | |]; try exact Hy.
  destruct (matches PASSPORT_RE s); [|exact Hy].
  apply mark_keeps_keys; [exact Hy | now apply in_keys with (VStr s)].
Qed.

Lemma rule_upi_keys (record : dict) (x : scan) :
  keys (fst x) = keys record -> keys (fst (rule_upi record x)) = keys record.
Proof.
  intro Hx. unfold rule_upi.
  destruct (dict_mem "upi_id" record) eqn:M; cbn [andb].
  - destruct (truthy (get record "upi_id")).
    + destruct (matches UPI_RE _); [|exact Hx].
      apply mark_keeps_keys; [exact Hx | now apply dict_mem_in].
    + revert Hx. apply (for_items_inv scan (fun y => keys (fst y) = keys record)).
      intros k v y Hin Hy. destruct v as [s| | |]; try exact Hy.
      destruct (Str.contains "@" s && matches UPI_RE s); [|exact Hy].
      destruct (negb _); [|exact Hy].
      apply mark_keeps_keys; [exact Hy | now apply in_keys with (VStr s)].
  - revert Hx. apply (for_items_inv scan (fun y => keys (fst y) = keys record)).
    intros k v y Hin Hy. destruct v as [s| | |]; try exact Hy.
    destruct (Str.contains "@" s && matches UPI_RE s); [|exact Hy].
    destruct (negb _); [|exact Hy].
    apply mark_keeps_keys; [exact Hy | now apply in_keys with (VStr s)].
Qed.

Lemma check_standalone_keys (record : dict) :
  keys (fst (check_standalone record record)) = keys record.
Proof.
  unfold check_standalone.
  apply rule_upi_keys, rule_passport_keys, rule_aadhar_keys, rule_phone_any_keys,
    rule_phone_fields_keys. reflexivity.
Qed.

Lemma rule_email_keys (record redacted : dict) :
  keys redacted = keys record -> keys (fst (rule_email record redacted)) = keys record.
Proof.
  intro H. unfold rule_email.
  apply (for_items_inv scan (fun y => keys (fst y) = keys record)); [|exact H].
  intros k v y Hin Hy. destruct v as [s| | |]; try exact Hy.
  destruct (matches EMAIL_RE s); [|exact Hy].
  apply mark_keeps_keys; [exact Hy | now apply in_keys with (VStr s)].
Qed.

Lemma both_names_truthy (record : dict) :
  both_names record = true ->
  truthy (get record "first_name") = true /\ truthy (get record "last_name") = true.
Proof. unfold both_names. intro H. now apply andb_true_iff in H. Qed.

Lemma rule_name_keys (record redacted : dict) :
  keys redacted = keys record -> keys (fst (rule_name record redacted)) = keys record.
Proof.
  intro H. unfold rule_name.
  assert (Hn : forall d v, keys d = keys record ->
                 keys (if truthy (get record "name") then dict_set "name" v d else d)
                 = keys record).
  { intros d v Hd. destruct (truthy (get record "name")) eqn:T; [|exact Hd].
    apply set_keeps_keys; [exact Hd | now apply truthy_get_in]. }
  destruct (both_names record) eqn:B; cbn [orb fst].
  - apply both_names_truthy in B as [Tf Tl].
    apply Hn. apply set_keeps_keys; [|now apply truthy_get_in].
    apply set_keeps_keys; [exact H | now apply truthy_get_in].
  - destruct (truthy (get record "name") && has_tokens 2 (get record "name"));
      cbn [fst]; [|exact H].
    now apply Hn.
Qed.

Lemma rule_address_keys (record redacted : dict) :
  keys redacted = keys record -> keys (fst (rule_address record redacted)) = keys record.
Proof.
  intro H. unfold rule_address.
  destruct (truthy (get record "address")) eqn:A; cbn [andb]; [|exact H].
  destruct (truthy (get record "city")); cbn [andb]; [|exact H].
  destruct (truthy (get record "pin_code")) eqn:P; [|exact H].
  destruct (5 <=? _); cbn [fst]; [|exact H].
  apply set_keeps_keys; [|now apply truthy_get_in].
  apply set_keeps_keys; [exact H | now apply truthy_get_in].
Qed.

Lemma rule_device_keys (record redacted : dict) :
  keys redacted = keys record -> keys (fst (rule_device record redacted)) = keys record.
Proof.
  intro H. unfold rule_device.
  destruct (truthy (get record "device_id")) eqn:D; cbn [orb].
  - destruct (truthy (get record "ip_address")) eqn:I.
    + apply mark_keeps_keys; [|now apply truthy_get_in].
      apply (mark_keeps_keys record (redacted, false)); [exact H | now apply truthy_get_in].
    + apply (mark_keeps_keys record (redacted, false)); [exact H | now apply truthy_get_in].
  - destruct (truthy (get record "ip_address")) eqn:I; [|exact H].
    apply (mark_keeps_keys record (redacted, false)); [exact H | now apply truthy_get_in].
Qed.

Lemma gather_keys (record : dict) : keys (fst (gather record)) = keys record.
Proof.
  unfold gather. cbn [fst].
  apply rule_device_keys, rule_address_keys, rule_name_keys, rule_email_keys,
    check_standalone_keys.
Qed.

Lemma reconcile_keys (record redacted : dict) :
  keys redacted = keys record -> keys (reconcile record redacted) = keys record.
Proof.
  intro H. unfold reconcile. cbv zeta.
  assert (Hmem : forall k v d, keys d = keys record ->
                   keys (if dict_mem k d then dict_set k v d else d) = keys record).
  { intros k v d Hd. destruct (dict_mem k d) eqn:M; [|exact Hd].
    rewrite keys_set_in; [exact Hd | now apply dict_mem_in]. }
  match goal with
  | |- context [for_items ?body record redacted] =>
      assert (H1 : keys (for_items body record redacted) = keys record)
  end.
  { apply (for_items_inv dict (fun d => keys d = keys record)); [|exact H].
    intros k v d Hin Hd. destruct v as [s| | |]; try exact Hd.
    destruct (matches EMAIL_RE s); [|exact Hd]. now apply Hmem. }
  match goal with
  | |- context [if ?c then dict_set "name" ?x ?d else ?d] =>
      assert (H2 : keys (if c then dict_set "name" x d else d) = keys record)
  end.
  { destruct (truthy (get record "name")) eqn:T; cbn [andb]; [|exact H1].
    destruct (negb _); [|exact H1].
    apply set_keeps_keys; [exact H1 | now apply truthy_get_in]. }
  destruct (_ || _); [|exact H2].
  apply Hmem. now apply Hmem.
Qed.

Lemma finalize_item_keys (k s : string) (d : dict) :
  In k (keys d) -> keys (finalize_item k s d) = keys d.
Proof.
  intro H. unfold finalize_item.
  assert (Hs : forall (c : bool) v d', keys d' = keys d ->
                 keys (if c then dict_set k v d' else d') = keys d).
  { intros c v d' Hd'. destruct c; [|exact Hd'].
    rewrite keys_set_in; [exact Hd' | now rewrite Hd']. }
  repeat apply Hs. reflexivity.
Qed.

Lemma finalize_keys (redacted : dict) : keys (finalize redacted) = keys redacted.
Proof.
  unfold finalize.
  apply (for_items_inv dict (fun d => keys d = keys redacted)); [|reflexivity].
  intros k v d Hin Hd. destruct v as [s| | |]; try exact Hd.
  rewrite finalize_item_keys; [exact Hd|]. rewrite Hd. now apply in_keys with (VStr s).
Qed.

(** X10. [detect_and_mask] returns a dict with the fields of the record, in
    the order of the record: no rule adds a field or drops one. *)
Theorem detect_and_mask_keeps_fields (record : dict) :
  NoDup (keys record) ->
  keys (fst (detect_and_mask record)) = keys record.
Proof.
  intro Hnd. pose proof (gather_keys record) as Hk.
  unfold detect_and_mask. destruct (gather record) as [red ev].
  cbn [fst] in Hk. cbv zeta. cbn [fst].
  assert (Hout : keys (if verdict ev
                       then finalize (if negb (verdict ev)
                                      then reconcile record red else red)
                       else if negb (verdict ev) then reconcile record red else red)
                 = keys record).
  { destruct (verdict ev); cbn [negb].
    - now rewrite finalize_keys.
    - now apply reconcile_keys. }
  rewrite json_clean_id; [exact Hout|]. now rewrite Hout.
Qed.

Lemma detect_and_mask_keeps_fields_witness :
  keys (fst (detect_and_mask mixed_record)) = ["phone"; "note"; "age"; "email"].
Proof.
  apply (detect_and_mask_keeps_fields mixed_record).
  repeat constructor; cbn; intuition discriminate.
Defined.

(* ------------------------------------------------------------------ *)
(** *** Check A: the flag and the writes *)

Lemma for_items_ext (S : Type) (b1 b2 : string -> value -> S -> S) (items : dict) :
  (forall k v s, b1 k v s = b2 k v s) ->
  forall s, for_items b1 items s = for_items b2 items s.
Proof.
  intro H. unfold for_items. induction items as [|[k v] items IH]; intro s; cbn.
  - reflexivity.
  - rewrite H. apply IH.
Qed.

(** A loop that marks the items passing a test raises the flag exactly when
    an item passes, and writes nothing when none does. *)
Lemma mark_loop (c : string * value -> bool) (f : value -> string) (items : dict) :
  forall x : scan,
    let r := for_items (fun k v x => if c (k, v) then mark k (f v) x else x) items x in
    snd r = snd x || existsb c items
    /\ (existsb c items = false -> r = x).
Proof.
  unfold for_items. induction items as [|[k v] items IH]; intro x; cbn.
  - split; [now rewrite orb_false_r | reflexivity].
  - destruct (IH (if c (k, v) then mark k (f v) x else x)) as [F W].
    destruct (c (k, v)) eqn:C; cbn [orb].
    + split; [|discriminate]. rewrite F. cbn. now rewrite orb_true_r.
    + split; [exact F | exact W].
Qed.

Lemma rule_aadhar_as_mark_loop (record : dict) (x : scan) :
  rule_aadhar record x
  = for_items (fun k v x => if on_str (matches AADHAR_RE) (k, v)
                            then mark k (sub AADHAR_RE aadhar_repl (py_str v)) x
                            else x) record x.
Proof.
  unfold rule_aadhar. apply for_items_ext. intros k v s. now destruct v.
Qed.

Lemma rule_passport_as_mark_loop (record : dict) (x : scan) :
  rule_passport record x
  = for_items (fun k v x => if on_str (matches PASSPORT_RE) (k, v)
                            then mark k (sub PASSPORT_RE passport_repl (py_str v)) x
                            else x) record x.
Proof.
  unfold rule_passport. apply for_items_ext. intros k v s. now destruct v.
Qed.

Lemma upi_scan_as_mark_loop (record : dict) (x : scan) :
  for_items
    (fun k v x =>
       match v with
       | VStr s =>
           if Str.contains "@" s && matches UPI_RE s then
             let rhs := Str.after_first "@" s in
             if negb (Str.contains "." rhs)
             then mark k (sub UPI_RE upi_repl s) x
             else x
           else x
       | _ => x
       end) record x
  = for_items (fun k v x => if on_str upi_hit (k, v)
                            then mark k (sub UPI_RE upi_repl (py_str v)) x
                            else x) record x.
Proof.
  apply for_items_ext. intros k v s. destruct v as [t| | |]; try reflexivity.
  unfold on_str, upi_hit. cbn [snd py_str].
  destruct (Str.contains "@" t && matches UPI_RE t); cbn [andb]; [|reflexivity].
  now destruct (negb _).
Qed.

Lemma rule_email_as_mark_loop (record redacted : dict) :
  rule_email record redacted
  = for_items (fun k v x => if on_str (matches EMAIL_RE) (k, v)
                            then mark k (sub EMAIL_RE email_repl (py_str v)) x
                            else x) record (redacted, false).
Proof.
  unfold rule_email. apply for_items_ext. intros k v s. now destruct v.
Qed.

Lemma rule_phone_fields_flag (record : dict) (x : scan) :
  snd (rule_phone_fields record x) = snd x || existsb (phone_field_hit record) phone_fields
  /\ (existsb (phone_field_hit record) phone_fields = false ->
      rule_phone_fields record x = x).
Proof.
  unfold rule_phone_fields, phone_fields. cbn [fold_left existsb].
  fold (phone_field_hit record "phone"). fold (phone_field_hit record "contact").
  assert (E : forall f y,
             (if dict_mem f record && truthy (get record f)
              then if matches PHONE_RE (py_str (get record f))
                   then mark f (mask_phone (py_str (get record f))) y else y
              else y)
             = if phone_field_hit record f
               then mark f (mask_phone (py_str (get record f))) y else y).
  { intros f y. unfold phone_field_hit.
    destruct (dict_mem f record && truthy (get record f)); cbn [andb]; reflexivity. }
  rewrite !E.
  destruct (phone_field_hit record "phone"), (phone_field_hit record "contact");
    cbn; rewrite ?orb_true_r, ?orb_false_r; split; try reflexivity; discriminate.
Qed.

(** Rule 2 on a working copy that is still the record. *)
Lemma phone_any_from_record (record : dict) (items : dict) :
  (forall k v, In (k, v) items -> dict_get k record = Some v) ->
  let r := for_items
             (fun k v x =>
                match v with
                | VStr s =>
                    if matches PHONE_RE s then
                      if negb (dict_mem k (fst x))
                         || negb (Str.contains "X" (py_str (get_or (fst x) k (VStr ""))))
                      then mark k (sub PHONE_RE phone_repl s) x
                      else x
                    else x
                | _ => x
                end) items (record, false) in
  snd r = existsb (on_str (fun s => matches PHONE_RE s && negb (Str.contains "X" s))) items
  /\ (snd r = false -> r = (record, false)).
Proof.
  unfold for_items. induction items as [|[k v] items IH]; intro Hin; cbn [fold_left existsb].
  - split; reflexivity.
  - assert (Hrest : forall k' v', In (k', v') items -> dict_get k' record = Some v').
    { intros k' v' H. apply Hin. now right. }
    specialize (IH Hrest). cbn [fst snd].
    assert (Hk : dict_get k record = Some v) by (apply Hin; now left).
    destruct v as [s| | |]; unfold on_str at 1; cbn [snd orb]; try exact IH.
    destruct (matches PHONE_RE s) eqn:M; cbn [andb orb]; [|exact IH].
    unfold dict_mem, get_or. rewrite Hk. cbn [negb orb py_str].
    destruct (Str.contains "X" s) eqn:X; cbn [negb orb]; [exact IH|].
    assert (T : snd (fold_left
                       (fun acc kv =>
                          match snd kv with
                          | VStr s0 =>
                              if matches PHONE_RE s0 then
                                if negb (match dict_get (fst kv) (fst acc) with
                                         | Some _ => true | None => false end)
                                   || negb (Str.contains "X"
                                              (py_str (match dict_get (fst kv) (fst acc) with
                                                       | Some v0 => v0 | None => VStr "" end)))
                                then mark (fst kv) (sub PHONE_RE phone_repl s0) acc
                                else acc
                              else acc
                          | _ => acc
                          end) items (mark k (sub PHONE_RE phone_repl s) (record, false)))
                 = true).
    { apply (for_items_inv scan (fun y => snd y = true)
               (fun k0 v0 acc =>
                  match v0 with
                  | VStr s0 =>
                      if matches PHONE_RE s0 then
                        if negb (match dict_get k0 (fst acc) with
                                 | Some _ => true | None => false end)
                           || negb (Str.contains "X"
                                      (py_str (match dict_get k0 (fst acc) with
                                               | Some v1 => v1 | None => VStr "" end)))
                        then mark k0 (sub PHONE_RE phone_repl s0) acc
                        else acc
                      else acc
                  | _ => acc
                  end) items); [|reflexivity].
      intros k0 v0 y _ Hy. destruct v0 as [s0| | |]; try exact Hy.
      destruct (matches PHONE_RE s0); [|exact Hy].
      destruct (negb _ || negb _); [reflexivity | exact Hy]. }
    split; [exact T|]. intro F. rewrite T in F. discriminate F.
Qed.

Lemma same_or_flag_loop (body : string -> value -> scan -> scan) (items : dict) (x : scan) :
  (forall k v y, body k v y = y \/ snd (body k v y) = true) ->
  for_items body items x = x \/ snd (for_items body items x) = true.
Proof.
  intro Hbody.
  apply (for_items_inv scan (fun y => y = x \/ snd y = true)); [|now left].
  intros k v y _ [->|Hy]; [apply Hbody|].
  right. destruct (Hbody k v y) as [E|E]; [now rewrite E | exact E].
Qed.

Lemma rule_phone_any_same_or_flag (record : dict) (x : scan) :
  rule_phone_any record x = x \/ snd (rule_phone_any record x) = true.
Proof.
  unfold rule_phone_any. apply same_or_flag_loop. intros k v y.
  destruct v as [s| | |]; try now left.
  destruct (matches PHONE_RE s); [|now left].
  destruct (negb _ || negb _); [now right | now left].
Qed.

Lemma rule_phone_any_flag (record : dict) (x : scan) :
  NoDup (keys record) ->
  (snd x = false -> x = (record, false)) ->
  snd (rule_phone_any record x)
  = snd x || existsb (on_str (fun s => matches PHONE_RE s && negb (Str.contains "X" s)))
                     record.
Proof.
  intros Hnd Hx. destruct (snd x) eqn:F; cbn [orb].
  - destruct (rule_phone_any_same_or_flag record x) as [E|E]; [now rewrite E | exact E].
  - rewrite (Hx eq_refl). unfold rule_phone_any.
    apply (phone_any_from_record record record).
    intros k v Hin. now apply dict_get_in.
Qed.

(** What Check A returns: the flag as the record alone decides it, and the
    record itself as the working copy when the flag is down. *)
Lemma check_standalone_flag (record : dict) :
  NoDup (keys record) ->
  snd (check_standalone record record) = standalone_by_record record.
Proof.
  intro Hnd. unfold check_standalone, standalone_by_record.
  destruct (rule_phone_fields_flag record (record, false)) as [F1 W1].
  set (x1 := rule_phone_fields record (record, false)) in *.
  assert (F2 := rule_phone_any_flag record x1 Hnd).
  set (x2 := rule_phone_any record x1) in *.
  destruct (mark_loop (on_str (matches AADHAR_RE))
              (fun v => sub AADHAR_RE aadhar_repl (py_str v)) record x2) as [F3 _].
  rewrite <- rule_aadhar_as_mark_loop in F3.
  set (x3 := rule_aadhar record x2) in *.
  destruct (mark_loop (on_str (matches PASSPORT_RE))
              (fun v => sub PASSPORT_RE passport_repl (py_str v)) record x3) as [F4 _].
  rewrite <- rule_passport_as_mark_loop in F4.
  set (x4 := rule_passport record x3) in *.
  assert (F5 : snd (rule_upi record x4)
               = snd x4 || (if dict_mem "upi_id" record && truthy (get record "upi_id")
                            then matches UPI_RE (py_str (get record "upi_id"))
                            else existsb (on_str upi_hit) record)).
  { unfold rule_upi.
    destruct (dict_mem "upi_id" record && truthy (get record "upi_id")).
    - destruct (matches UPI_RE _); cbn; now rewrite ?orb_true_r, ?orb_false_r.
    - rewrite upi_scan_as_mark_loop.
      apply (mark_loop (on_str upi_hit) (fun v => sub UPI_RE upi_repl (py_str v))). }
  rewrite F5, F4, F3, F2, F1; [reflexivity|].
  cbn [snd orb] in F1. intro F. rewrite F in F1. symmetry in F1. exact (W1 F1).
Qed.

Lemma rule_phone_fields_same_or_flag (record : dict) (x : scan) :
  rule_phone_fields record x = x \/ snd (rule_phone_fields record x) = true.
Proof.
  destruct (rule_phone_fields_flag record x) as [F W].
  destruct (existsb (phone_field_hit record) phone_fields).
  - right. rewrite F. apply orb_true_r.
  - left. now apply W.
Qed.

Lemma mark_loop_same_or_flag (c : string * value -> bool) (f : value -> string)
      (items : dict) (x : scan) :
  let r := for_items (fun k v x => if c (k, v) then mark k (f v) x else x) items x in
  r = x \/ snd r = true.
Proof.
  apply same_or_flag_loop. intros k v y. destruct (c (k, v)); [now right | now left].
Qed.

Lemma rule_upi_same_or_flag (record : dict) (x : scan) :
  rule_upi record x = x \/ snd (rule_upi record x) = true.
Proof.
  unfold rule_upi. destruct (dict_mem "upi_id" record && truthy (get record "upi_id")).
  - destruct (matches UPI_RE _); [now right | now left].
  - rewrite upi_scan_as_mark_loop. apply mark_loop_same_or_flag.
Qed.

Lemma same_or_flag_then (R : scan -> scan) (x y : scan) :
  (y = x \/ snd y = true) ->
  (forall z, R z = z \/ snd (R z) = true) ->
  R y = x \/ snd (R y) = true.
Proof.
  intros [->|Hy] HR; [apply HR|].
  right. destruct (HR y) as [E|E]; [now rewrite E | exact E].
Qed.

Lemma check_standalone_same_or_flag (record redacted : dict) :
  check_standalone record redacted = (redacted, false)
  \/ snd (check_standalone record redacted) = true.
Proof.
  unfold check_standalone.
  apply same_or_flag_then; [|apply rule_upi_same_or_flag].
  apply same_or_flag_then;
    [|intro z; rewrite rule_passport_as_mark_loop; apply mark_loop_same_or_flag].
  apply same_or_flag_then;
    [|intro z; rewrite rule_aadhar_as_mark_loop; apply mark_loop_same_or_flag].
  apply same_or_flag_then; [|apply rule_phone_any_same_or_flag].
  apply rule_phone_fields_same_or_flag.
Qed.

(** X11. Check A writes a field only when it raises [standalone_found]: when
    the flag is down after the five standalone rules, the working copy is
    the record, unchanged. *)
Theorem no_standalone_no_write (record : dict) :
  standalone_found (evidence record) = false ->
  fst (check_standalone record record) = record.
Proof.
  unfold evidence, gather. cbn [snd standalone_found]. intro F.
  destruct (check_standalone_same_or_flag record record) as [E|E].
  - now rewrite E.
  - rewrite E in F. discriminate F.
Qed.

Lemma no_standalone_no_write_witness :
  standalone_found (evidence note_with_X) = false
  /\ fst (check_standalone note_with_X note_with_X) = note_with_X.
Proof.
  split; [reflexivity|]. exact (no_standalone_no_write note_with_X eq_refl).
Defined.

Lemma email_flag_by_record (record : dict) :
  email_present (evidence record) = existsb (on_str (matches EMAIL_RE)) record.
Proof.
  unfold evidence, gather. cbn [snd email_present].
  rewrite rule_email_as_mark_loop.
  apply (mark_loop (on_str (matches EMAIL_RE))
           (fun v => sub EMAIL_RE email_repl (py_str v)) record).
Qed.

(** X12. The verdict is decided by the record alone, with no masking done:
    [standalone_found] is "a phone field matches the phone pattern, or a
    string value matches the phone pattern and holds no X, or the Aadhar
    pattern, or the passport pattern, or the UPI test succeeds", and the
    verdict is that or two of the four flags read off the record. *)
Theorem verdict_by_record (record : dict) :
  NoDup (keys record) ->
  standalone_found (evidence record) = standalone_by_record record
  /\ snd (detect_and_mask record) = pii_by_record record.
Proof.
  intro Hnd.
  assert (S : standalone_found (evidence record) = standalone_by_record record).
  { unfold evidence, gather. cbn [snd standalone_found].
    now apply check_standalone_flag. }
  split; [exact S|].
  pose proof (name_present_spec record) as N.
  pose proof (email_flag_by_record record) as E.
  pose proof (address_present_spec record) as A.
  pose proof (device_present_spec record) as D.
  unfold pii_by_record. rewrite <- S, <- N, <- E, <- A, <- D.
  unfold evidence, detect_and_mask.
  destruct (gather record) as [red ev]. cbn [fst snd]. cbv zeta. cbn [snd].
  unfold verdict, combinatorial_count, count_true.
  now destruct (name_present ev), (email_present ev), (address_present ev),
    (device_present ev).
Qed.

Lemma verdict_by_record_witness :
  standalone_found (evidence mixed_record) = standalone_by_record mixed_record
  /\ snd (detect_and_mask mixed_record) = pii_by_record mixed_record.
Proof.
  apply (verdict_by_record mixed_record).
  repeat constructor; cbn; intuition discriminate.
Defined.

(* ------------------------------------------------------------------ *)
(** *** The value a loop leaves under a key *)

Lemma dict_get_some_in (k : string) (v : value) (d : dict) :
  dict_get k d = Some v -> In (k, v) d.
Proof.
  induction d as [|[k0 v0] d IH]; cbn; [discriminate|].
  destruct (String.eqb k k0) eqn:E.
  - apply String.eqb_eq in E. subst. intro H. injection H as ->. now left.
  - intro H. right. now apply IH.
Qed.

Lemma for_items_at (S : Type) (proj : S -> dict) (body : string -> value -> S -> S)
      (Q : option value -> Prop) (k : string) (v w : value) (items : dict) :
  NoDup (keys items) ->
  In (k, v) items ->
  (forall k' v' s, In (k', v') items ->
                   untouched (fun x => x = k') (proj s) (proj (body k' v' s))) ->
  (forall s, Q (dict_get k (proj s)) -> dict_get k (proj (body k v s)) = Some w) ->
  forall s, Q (dict_get k (proj s)) ->
            dict_get k (proj (for_items body items s)) = Some w.
Proof.
  induction items as [|[k0 v0] items IH]; intros Hnd Hin Hun Hat s Hs; [contradiction|].
  cbn in Hnd. inversion Hnd as [|? ? Hfresh Hnd']. subst.
  change (for_items body ((k0, v0) :: items) s)
    with (for_items body items (body k0 v0 s)).
  destruct Hin as [E|Hin].
  - injection E as -> ->.
    destruct (for_items_untouched S proj (fun x => In x (keys items)) body items) with
      (s := body k v s) as [G _].
    { intros k' v' s' Hin'. eapply untouched_weaken; [|apply Hun; now right].
      intros x ->. now apply in_keys with v'. }
    rewrite G by exact Hfresh. now apply Hat.
  - apply IH; auto.
    + intros k' v' s' Hin'. apply Hun. now right.
    + destruct (Hun k0 v0 s (or_introl eq_refl)) as [G _].
      rewrite G; [exact Hs|]. intros ->. apply Hfresh. now apply in_keys with v.
Qed.

Lemma untouched_one_mark (c : bool) (k s : string) (x : scan) :
  untouched (fun y => y = k) (fst x) (fst (if c then mark k s x else x)).
Proof. destruct c; [now apply untouched_mark | apply untouched_refl]. Qed.

(** The email rule leaves, under the key of a string value that matches the
    email pattern, the email substitution of that value as the record has it. *)
Lemma rule_email_at (record redacted : dict) (k s : string) :
  NoDup (keys record) -> In (k, VStr s) record -> matches EMAIL_RE s = true ->
  dict_get k (fst (rule_email record redacted))
  = Some (VStr (sub EMAIL_RE email_repl s)).
Proof.
  intros Hnd Hin M. rewrite rule_email_as_mark_loop.
  apply (for_items_at scan fst _ (fun _ => True) k (VStr s)); auto.
  - intros k' v' x _. apply untouched_one_mark.
  - intros x _. unfold on_str. cbn [snd py_str]. rewrite M.
    unfold mark. cbn [fst]. apply dict_get_set_same.
Qed.

Lemma rule_email_writes (record redacted : dict) :
  untouched (hit_by EMAIL_RE record) redacted (fst (rule_email record redacted)).
Proof.
  unfold rule_email.
  apply (for_items_untouched scan fst (hit_by EMAIL_RE record) _ record)
    with (s := (redacted, false)).
  intros k v y Hin. destruct v as [s| | |]; try apply untouched_refl.
  destruct (matches EMAIL_RE s) eqn:M; [|apply untouched_refl].
  apply untouched_mark. exists s. now split.
Qed.

Lemma rule_name_writes (record redacted : dict) :
  untouched (fun k => In k combinatorial_fields) redacted
    (fst (rule_name record redacted)).
Proof.
  unfold rule_name.
  destruct (both_names record || _); cbn [fst]; [|apply untouched_refl].
  eapply untouched_trans; [|apply untouched_if_set; cbn; auto].
  destruct (both_names record); [|apply untouched_refl].
  eapply untouched_trans; apply untouched_set; cbn; auto.
Qed.

Lemma rule_address_writes (record redacted : dict) :
  untouched (fun k => In k combinatorial_fields) redacted
    (fst (rule_address record redacted)).
Proof.
  unfold rule_address.
  destruct (_ && _ && _); [|apply untouched_refl].
  destruct (5 <=? _); cbn [fst]; [|apply untouched_refl].
  eapply untouched_trans; apply untouched_set; cbn; auto 10.
Qed.

(** The name, address and device rules write the seven named fields only. *)
Lemma combinatorial_rules_write (record redacted : dict) :
  untouched (fun k => In k combinatorial_fields) redacted
    (fst (rule_device record
            (fst (rule_address record (fst (rule_name record redacted)))))).
Proof.
  eapply untouched_trans; [|apply rule_device_untouched; intros _; cbn; auto 10].
  eapply untouched_trans; [apply rule_name_writes | apply rule_address_writes].
Qed.

(** The rollback gives an email-matched field the value the record has. *)
Lemma reconcile_restores_email (record redacted : dict) (k s : string) :
  NoDup (keys record) -> In (k, VStr s) record -> matches EMAIL_RE s = true ->
  dict_mem k redacted = true ->
  dict_get k (reconcile record redacted) = Some (VStr s).
Proof.
  intros Hnd Hin M Hmem. unfold reconcile.
  assert (Hrec : dict_get k record = Some (VStr s)) by now apply dict_get_in.
  assert (Hset : forall k' d, dict_get k d = Some (VStr s) ->
                   dict_get k (dict_set k' (get record k') d) = Some (VStr s)).
  { intros k' d Hd. rewrite dict_get_set. destruct (String.eqb k k') eqn:E; [|exact Hd].
    apply String.eqb_eq in E. subst k'.
    now rewrite (get_of_dict_get record k (VStr s) Hrec). }
  match goal with
  | |- context [for_items ?body record redacted] =>
      assert (H1 : dict_get k (for_items body record redacted) = Some (VStr s))
  end.
  { apply (for_items_at dict (fun d => d) _ (fun o => o <> None) k (VStr s)); auto.
    - intros k' v' d _. destruct v' as [t| | |]; try apply untouched_refl.
      destruct (matches EMAIL_RE t); [|apply untouched_refl].
      now apply untouched_if_set.
    - intros d Hd. rewrite M.
      assert (Hm : dict_mem k d = true).
      { unfold dict_mem. destruct (dict_get k d); [reflexivity | contradiction]. }
      rewrite Hm. apply dict_get_set_same.
    - unfold dict_mem in Hmem. destruct (dict_get k redacted); [discriminate | discriminate Hmem]. }
  match goal with
  | |- context [if ?c then dict_set "name" ?x ?d else ?d] =>
      assert (H2 : dict_get k (if c then dict_set "name" x d else d) = Some (VStr s))
  end.
  { destruct (_ && _); [|exact H1]. now apply Hset. }
  cbv zeta.
  destruct (_ || _); [|exact H2].
  match goal with
  | |- context [if ?c then dict_set "first_name" ?x ?d else ?d] =>
      assert (H3 : dict_get k (if c then dict_set "first_name" x d else d)
                   = Some (VStr s))
  end.
  { destruct (dict_mem "first_name" _); [|exact H2]. now apply Hset. }
  destruct (dict_mem "last_name" _); [|exact H3]. now apply Hset.
Qed.

Lemma finalize_item_at (k s : string) (d : dict) :
  dict_get k d = Some (VStr s) ->
  dict_get k (finalize_item k s d) = Some (VStr (final_text s)).
Proof.
  intro H. unfold finalize_item, final_text.
  destruct (matches PHONE_RE s), (matches AADHAR_RE s), (matches PASSPORT_RE s),
    (matches EMAIL_RE s), (matches IPV4_RE s);
    rewrite ?dict_get_set_same; try reflexivity; exact H.
Qed.

Lemma finalize_at (redacted : dict) (k s : string) :
  NoDup (keys redacted) ->
  dict_get k redacted = Some (VStr s) ->
  dict_get k (finalize redacted) = Some (VStr (final_text s)).
Proof.
  intros Hnd Hget. unfold finalize.
  apply (for_items_at dict (fun d => d) _ (fun o => o = Some (VStr s)) k (VStr s));
    auto.
  - now apply dict_get_some_in.
  - intros k' v' d _. destruct v' as [t| | |]; try apply untouched_refl.
    apply finalize_item_untouched.
  - intros d Hd. now apply finalize_item_at.
Qed.

(** X14. In the final pass the five substitutions do not add up: each one is
    computed from the value the loop read and overwrites the one before, so a
    string value ends as the substitution of the last pattern, in the order
    phone, Aadhar, passport, email, IPv4, that matches it, and stays as it is
    when none does. *)
Theorem finalize_last_match_wins (redacted : dict) (k s : string) :
  NoDup (keys redacted) ->
  dict_get k redacted = Some (VStr s) ->
  dict_get k (finalize redacted) = Some (VStr (final_text s)).
Proof. apply finalize_at. Qed.

Lemma finalize_last_match_wins_witness :
  dict_get "note" (finalize [("note", VStr "9876543210 or 10.0.0.1")])
  = Some (VStr "9876543210 or 10.0.0.XXX")
  /\ final_text "9876543210 or 10.0.0.1" = "9876543210 or 10.0.0.XXX".
Proof.
  split; [|reflexivity].
  apply (finalize_last_match_wins [("note", VStr "9876543210 or 10.0.0.1")] "note"
           "9876543210 or 10.0.0.1"); [|reflexivity].
  repeat constructor; cbn; intuition discriminate.
Defined.

(* ------------------------------------------------------------------ *)
(** *** The two ways out of detect_and_mask *)

Lemma snd_detect_and_mask (record : dict) :
  snd (detect_and_mask record) = verdict (evidence record).
Proof.
  unfold detect_and_mask, evidence. now destruct (gather record) as [red ev].
Qed.

Lemma fst_detect_and_mask (record : dict) :
  fst (detect_and_mask record)
  = json_clean (if verdict (evidence record)
                then finalize (fst (gather record))
                else reconcile record (fst (gather record))).
Proof.
  unfold detect_and_mask, evidence. destruct (gather record) as [red ev].
  cbn [fst snd]. now destruct (verdict ev).
Qed.

Lemma gather_nodup (record : dict) :
  NoDup (keys record) -> NoDup (keys (fst (gather record))).
Proof. intro H. now rewrite gather_keys. Qed.

Lemma fst_detect_positive (record : dict) :
  NoDup (keys record) -> verdict (evidence record) = true ->
  fst (detect_and_mask record) = finalize (fst (gather record)).
Proof.
  intros Hnd V. rewrite fst_detect_and_mask, V. apply json_clean_id.
  rewrite finalize_keys. now apply gather_nodup.
Qed.

Lemma fst_detect_negative (record : dict) :
  NoDup (keys record) -> verdict (evidence record) = false ->
  fst (detect_and_mask record) = reconcile record (fst (gather record)).
Proof.
  intros Hnd V. rewrite fst_detect_and_mask, V. apply json_clean_id.
  rewrite reconcile_keys; [exact Hnd | apply gather_keys].
Qed.

Lemma negative_no_standalone (record : dict) :
  verdict (evidence record) = false -> standalone_found (evidence record) = false.
Proof. unfold verdict. intro H. now apply orb_false_iff in H. Qed.

Lemma negative_one_flag (record : dict) :
  verdict (evidence record) = false ->
  forall a b, In (a, b) [ (device_present (evidence record), email_present (evidence record));
                          (address_present (evidence record), email_present (evidence record)) ] ->
              a = true -> b = false.
Proof.
  unfold verdict, combinatorial_count. intros H a b Hin Ha.
  apply orb_false_iff in H as [_ H].
  destruct (name_present (evidence record)), (email_present (evidence record)) eqn:E,
    (address_present (evidence record)) eqn:A, (device_present (evidence record)) eqn:D;
    cbn in H; try discriminate H;
    destruct Hin as [X|[X|[]]]; injection X as <- <-; congruence.
Qed.

Lemma gather_after_no_standalone (record : dict) :
  standalone_found (evidence record) = false ->
  fst (gather record)
  = fst (rule_device record
           (fst (rule_address record
                   (fst (rule_name record (fst (rule_email record record))))))).
Proof.
  intro F. unfold gather. cbn [fst].
  replace (fst (check_standalone record record)) with record; [reflexivity|].
  unfold evidence, gather in F. cbn [snd standalone_found] in F.
  destruct (check_standalone_same_or_flag record record) as [E|E].
  - now rewrite E.
  - rewrite E in F. discriminate F.
Qed.

(** X13. On a negative verdict every field other than name, first_name,
    last_name, address, pin_code, device_id and ip_address comes out with the
    value it had: the masks of the email rule are all rolled back. *)
Theorem negative_verdict_keeps_other_fields (record : dict) (k : string) (v : value) :
  NoDup (keys record) ->
  snd (detect_and_mask record) = false ->
  ~ In k combinatorial_fields ->
  dict_get k record = Some v ->
  dict_get k (fst (detect_and_mask record)) = Some v.
Proof.
  intros Hnd V Hk Hget. rewrite snd_detect_and_mask in V.
  rewrite fst_detect_negative by assumption.
  assert (Hin : In (k, v) record) by now apply dict_get_some_in.
  destruct (on_str (matches EMAIL_RE) (k, v)) eqn:M.
  - destruct v as [s| | |]; try discriminate M. unfold on_str in M. cbn [snd] in M.
    apply reconcile_restores_email; auto.
    apply in_dict_mem. rewrite gather_keys. now apply in_keys with (VStr s).
  - apply reconcile_keeps; auto.
    rewrite (gather_after_no_standalone record (negative_no_standalone record V)).
    destruct (combinatorial_rules_write record (fst (rule_email record record))) as [G _].
    rewrite G by exact Hk.
    destruct (rule_email_writes record record) as [G' _].
    rewrite G'; [exact Hget|].
    intros (s & Hs & Ms).
    rewrite <- (in_unique k v (VStr s) record Hnd Hget Hs) in M.
    unfold on_str in M. cbn [snd] in M. congruence.
Qed.

Lemma negative_verdict_witness :
  snd (detect_and_mask [("email", VStr "a.b@example.org"); ("note", VStr "hello")]) = false
  /\ dict_get "email"
       (fst (detect_and_mask [("email", VStr "a.b@example.org"); ("note", VStr "hello")]))
     = Some (VStr "a.b@example.org").
Proof.
  split; [reflexivity|].
  apply (negative_verdict_keeps_other_fields
           [("email", VStr "a.b@example.org"); ("note", VStr "hello")] "email"
           (VStr "a.b@example.org")); try reflexivity.
  - repeat constructor; cbn; intuition discriminate.
  - cbn. intuition discriminate.
Defined.

(** X15. A string field that matches the email pattern, and is not one of
    the seven fields of the name, address and device rules, comes out as
    follows. On a positive verdict: the email substitution of the value as
    the record has it, whatever Check A had written there, then the final
    pass. On a negative verdict: the value as the record has it. *)
Theorem email_field_output (record : dict) (k s : string) :
  NoDup (keys record) ->
  In (k, VStr s) record ->
  matches EMAIL_RE s = true ->
  ~ In k combinatorial_fields ->
  dict_get k (fst (detect_and_mask record))
  = Some (VStr (if snd (detect_and_mask record)
                then final_text (sub EMAIL_RE email_repl s)
                else s)).
Proof.
  intros Hnd Hin M Hk. rewrite snd_detect_and_mask.
  destruct (verdict (evidence record)) eqn:V.
  - rewrite fst_detect_positive by assumption.
    apply finalize_at; [now apply gather_nodup|].
    unfold gather. cbn [fst].
    destruct (combinatorial_rules_write record
                (fst (rule_email record (fst (check_standalone record record)))))
      as [G _].
    rewrite G by exact Hk. now apply rule_email_at.
  - rewrite fst_detect_negative by assumption.
    apply reconcile_restores_email; auto.
    apply in_dict_mem. rewrite gather_keys. now apply in_keys with (VStr s).
Qed.

Lemma email_field_output_witness :
  dict_get "note"
    (fst (detect_and_mask [("note", VStr "9876543210 a.b@example.org")]))
  = Some (VStr "9876543210 a.XXX@example.org")
  /\ snd (detect_and_mask [("note", VStr "9876543210 a.b@example.org")]) = true.
Proof.
  split; [|reflexivity].
  apply (email_field_output [("note", VStr "9876543210 a.b@example.org")] "note"
           "9876543210 a.b@example.org"); try reflexivity.
  - repeat constructor; cbn; intuition discriminate.
  - now left.
  - cbn. intuition discriminate.
Defined.

(* ------------------------------------------------------------------ *)
(** *** Values no pattern can match *)

Lemma contains_all (p : ascii -> bool) (c : ascii) (t : string) :
  Str.all p t = true -> Str.contains c t = true -> p c = true.
Proof.
  induction t as [|x t IH]; cbn; [discriminate|].
  intros Ha Hc. apply andb_true_iff in Ha as [Hx Ht].
  apply orb_true_iff in Hc as [E|Hc]; [|auto].
  apply Ascii.eqb_eq in E. now subst.
Qed.

Ltac digit_char :=
  match goal with
  | Hl : S ?n <= length ?w, Ha : Str.all Char.digit ?w = true |- _ =>
      let c := fresh "c" in
      let Hc := fresh "Hc" in
      destruct w as [|c w]; [cbn in Hl; lia|];
      cbn in Ha; apply andb_true_iff in Ha as [Hc _];
      exists c; split; [|unfold digit_or_at; now rewrite Hc]
  end;
  rewrite !contains_app; cbn [Str.contains append];
  rewrite ?contains_app; cbn [Str.contains];
  rewrite Ascii.eqb_refl; cbn [orb]; rewrite ?orb_true_r; reflexivity.

Ltac at_char :=
  exists "@"%char; split; [|reflexivity];
  rewrite !contains_app; cbn [Str.contains append];
  rewrite ?contains_app; cbn [Str.contains];
  rewrite Ascii.eqb_refl; cbn [orb]; rewrite ?orb_true_r; reflexivity.

Lemma match_has_digit_or_at (r : regex) (t : string) :
  In r [PHONE_RE; AADHAR_RE; PASSPORT_RE; UPI_RE; EMAIL_RE; IPV4_RE] ->
  matches r t = true ->
  exists c, Str.contains c t = true /\ digit_or_at c = true.
Proof.
  intros Hr M. apply matches_search in M as [m M].
  apply search_den in M as (pre & w & post & cs' & -> & D & _ & _).
  destruct Hr as [<-|[<-|[<-|[<-|[<-|[<-|[]]]]]]].
  - unfold PHONE_RE in D. invert_den. digit_char.
  - unfold AADHAR_RE in D. invert_den. digit_char.
  - unfold PASSPORT_RE in D. invert_den. digit_char.
  - unfold UPI_RE in D. invert_den.
    repeat match goal with
           | E : Char.eq _ _ = true |- _ => apply Ascii.eqb_eq in E; subst
           end.
    at_char.
  - unfold EMAIL_RE in D. invert_den.
    repeat match goal with
           | E : Char.eq _ _ = true |- _ => apply Ascii.eqb_eq in E; subst
           end.
    at_char.
  - unfold IPV4_RE in D. cbn [times] in D. invert_den. digit_char.
Qed.

(** A text without a digit and without an at sign matches no pattern. *)
Lemma no_hit_without_digit_or_at (t : string) :
  Str.all (fun c => negb (digit_or_at c)) t = true -> value_hit (VStr t) = false.
Proof.
  intro H. cbn [value_hit].
  assert (N : forall r, In r [PHONE_RE; AADHAR_RE; PASSPORT_RE; UPI_RE; EMAIL_RE; IPV4_RE] ->
                        matches r t = false).
  { intros r Hr. destruct (matches r t) eqn:M; [|reflexivity].
    destruct (match_has_digit_or_at r t Hr M) as (c & Hc & Hd).
    pose proof (contains_all _ c t H Hc) as Hn. cbn in Hn. rewrite Hd in Hn.
    discriminate Hn. }
  rewrite !N; cbn; auto 10.
Qed.

Lemma x_or_newline_plain (c : ascii) :
  x_or_newline c = true -> negb (digit_or_at c) = true.
Proof.
  unfold x_or_newline, Char.eq. intro H. apply orb_true_iff in H as [E|E];
    apply Ascii.eqb_eq in E; subst; reflexivity.
Qed.

Lemma all_impl (p q : ascii -> bool) (t : string) :
  (forall c, p c = true -> q c = true) -> Str.all p t = true -> Str.all q t = true.
Proof.
  intro H. induction t as [|x t IH]; cbn; [reflexivity|].
  intro Ha. apply andb_true_iff in Ha as [Hx Ht]. now rewrite (H x Hx), IH.
Qed.

Lemma masked_device_no_hit (s : string) : value_hit (VStr (mask_device s)) = false.
Proof.
  apply no_hit_without_digit_or_at.
  apply (all_impl x_or_newline); [apply x_or_newline_plain|].
  unfold mask_device, sub. rewrite sub_any.
  induction s as [|c s IH]; cbn; [reflexivity|]. rewrite IH, andb_true_r.
  unfold x_or_newline, Char.dot, Char.eq.
  destruct (Ascii.eqb "010" c) eqn:E; cbn [negb]; [|reflexivity].
  rewrite E. apply orb_true_r.
Qed.

Lemma device_id_after_gather (record : dict) :
  truthy (get record "device_id") = true ->
  dict_get "device_id" (fst (gather record))
  = Some (VStr (mask_device (py_str (get record "device_id")))).
Proof.
  intro T. unfold gather. cbn [fst]. unfold rule_device. rewrite T. cbn [orb].
  destruct (truthy (get record "ip_address")); unfold mark; cbn [fst].
  - rewrite dict_get_set_other by discriminate. apply dict_get_set_same.
  - apply dict_get_set_same.
Qed.

(** X16. A device_id that is set comes out with every character but line
    feeds turned into X, on a positive verdict and on a negative one: the
    rollback does not restore it and the final pass finds nothing in it. *)
Theorem device_id_always_masked (record : dict) :
  NoDup (keys record) ->
  truthy (get record "device_id") = true ->
  dict_get "device_id" (fst (detect_and_mask record))
  = Some (VStr (mask_device (py_str (get record "device_id")))).
Proof.
  intros Hnd T. pose proof (device_id_after_gather record T) as G.
  destruct (verdict (evidence record)) eqn:V.
  - rewrite fst_detect_positive by assumption.
    apply finalize_keeps; [now apply gather_nodup | exact G | apply masked_device_no_hit].
  - rewrite fst_detect_negative by assumption.
    destruct (reconcile_untouched record (fst (gather record))) as [R _].
    rewrite R; [exact G|].
    assert (E : email_present (evidence record) = false).
    { apply (negative_one_flag record V (device_present (evidence record))).
      - now left.
      - rewrite device_present_spec, T. reflexivity. }
    intros [H|[H|[H|H]]]; try discriminate H.
    exact (email_absent record E "device_id" H).
Qed.

Lemma device_id_witness :
  dict_get "device_id" (fst (detect_and_mask [("device_id", VStr "ab-12:cd")]))
  = Some (VStr "XXXXXXXX")
  /\ snd (detect_and_mask [("device_id", VStr "ab-12:cd")]) = false.
Proof.
  split; [|reflexivity].
  apply (device_id_always_masked [("device_id", VStr "ab-12:cd")]); [|reflexivity].
  repeat constructor; cbn; intuition discriminate.
Defined.

(* ------------------------------------------------------------------ *)
(** *** Substitution in place *)

(** When every match of [r] has [len] characters and its replacement has as
    many, [sub] keeps the length of the text. *)
Lemma sub_from_length (r : regex) (repl : rmatch -> string) (len : nat) :
  (forall prev s pos n cs,
      match_here r prev s = Some (n, cs) ->
      n = S len /\ S len <= length s
      /\ length (repl {| m_start := pos; m_groups := cs |}) = S len) ->
  forall s prev pos skip,
    skip <= length s ->
    length (sub_from r repl prev s pos skip) + skip = length s.
Proof.
  intro Hm. induction s as [|c s IH]; intros prev pos skip Hskip.
  - cbn in Hskip. assert (skip = 0) by lia. subst. cbn [sub_from].
    destruct (match_here r prev "") as [[n cs]|] eqn:E; [|reflexivity].
    destruct (Hm _ _ pos _ _ E) as (_ & Hl & _). cbn in Hl. lia.
  - destruct skip as [|skip]; cbn [sub_from].
    + destruct (match_here r prev (String c s)) as [[n cs]|] eqn:E.
      * destruct (Hm _ _ pos _ _ E) as (-> & Hl & Hr).
        rewrite length_app, Hr. cbn [length] in *.
        specialize (IH (Some c) (S pos) len). lia.
      * cbn [length]. specialize (IH (Some c) (S pos) 0). lia.
    + cbn [length] in *. specialize (IH (Some c) (S pos) skip). lia.
Qed.

Lemma phone_match_here (prev : option ascii) (s : string) (pos n : nat) (cs : caps) :
  match_here PHONE_RE prev s = Some (n, cs) ->
  n = 10 /\ 10 <= length s
  /\ length (phone_repl {| m_start := pos; m_groups := cs |}) = 10.
Proof.
  intro H. apply match_here_shape in H as (w & s' & cs' & -> & D & -> & ->).
  unfold PHONE_RE in D. invert_shape. cbn [append] in *. rewrite app_nil_r in *.
  match goal with
  | Hl : 10 <= length ?w, Hu : length ?w <= 10, Ha : Str.all Char.digit ?w = true |- _ =>
      assert (L : length w = 10) by lia;
      split; [exact L|]; split; [rewrite length_app; lia|];
      unfold phone_repl, group; cbn [m_groups get_group set_group Nat.eqb];
      rewrite mask_phone_by_only_digits, (only_digits_id w Ha), L; cbn [Nat.eqb];
      rewrite !length_app, length_take, length_drop, L; reflexivity
  end.
Qed.

Lemma aadhar_match_here (prev : option ascii) (s : string) (pos n : nat) (cs : caps) :
  match_here AADHAR_RE prev s = Some (n, cs) ->
  n = 12 /\ 12 <= length s
  /\ length (aadhar_repl {| m_start := pos; m_groups := cs |}) = 12.
Proof.
  intro H. apply match_here_shape in H as (w & s' & cs' & -> & D & -> & ->).
  unfold AADHAR_RE in D. invert_shape. cbn [append] in *. rewrite app_nil_r in *.
  match goal with
  | Hl : 12 <= length ?w, Hu : length ?w <= 12, Ha : Str.all Char.digit ?w = true |- _ =>
      assert (L : length w = 12) by lia;
      split; [exact L|]; split; [rewrite length_app; lia|];
      unfold aadhar_repl, group; cbn [m_groups get_group set_group Nat.eqb];
      rewrite mask_aadhar_by_only_digits, (only_digits_id w Ha), L; cbn [Nat.eqb];
      rewrite !length_app, length_take, length_drop, L; reflexivity
  end.
Qed.

(** X17. The phone and Aadhar substitutions mask in place: the text that
    comes out is as long as the text that went in. *)
Theorem phone_aadhar_sub_keeps_length (s : string) :
  length (sub PHONE_RE phone_repl s) = length s
  /\ length (sub AADHAR_RE aadhar_repl s) = length s.
Proof.
  split; unfold sub.
  - pose proof (sub_from_length PHONE_RE phone_repl 9
                  (fun prev s pos n cs => phone_match_here prev s pos n cs)
                  s None 0 0 (Nat.le_0_l _)) as H. lia.
  - pose proof (sub_from_length AADHAR_RE aadhar_repl 11
                  (fun prev s pos n cs => aadhar_match_here prev s pos n cs)
                  s None 0 0 (Nat.le_0_l _)) as H. lia.
Qed.

(* ------------------------------------------------------------------ *)
(** *** Fields the rules always write *)

(** X18. When the address rule fires, that is when address, city and
    pin_code are set and pin_code has five digits or more, the address comes
    out as the address token, on a positive verdict and on a negative one. *)
Theorem address_token_whatever_verdict (record : dict) :
  NoDup (keys record) ->
  truthy (get record "address") = true ->
  truthy (get record "city") = true ->
  truthy (get record "pin_code") = true ->
  5 <= length (only_digits (py_str (get record "pin_code"))) ->
  dict_get "address" (fst (detect_and_mask record)) = Some (VStr "[REDACTED_PII_ADDRESS]").
Proof.
  intros Hnd Ha Hc Hp Hd. apply address_redacted; [exact Hnd|].
  rewrite address_present_spec, Ha, Hc, Hp. cbn [andb]. now apply Nat.leb_le.
Qed.

Lemma address_token_witness :
  dict_get "address"
    (fst (detect_and_mask
            [("address", VStr "12 MG Road"); ("city", VStr "Pune");
             ("pin_code", VInt 411001); ("email", VStr "a.b@example.org")]))
  = Some (VStr "[REDACTED_PII_ADDRESS]")
  /\ snd (detect_and_mask
            [("address", VStr "12 MG Road"); ("city", VStr "Pune");
             ("pin_code", VInt 411001); ("email", VStr "a.b@example.org")]) = true.
Proof.
  split; [|reflexivity].
  apply (address_token_whatever_verdict
           [("address", VStr "12 MG Road"); ("city", VStr "Pune");
            ("pin_code", VInt 411001); ("email", VStr "a.b@example.org")]);
    try reflexivity.
  - repeat constructor; cbn; intuition discriminate.
  - apply Nat.leb_le. reflexivity.
Defined.

Lemma rule_address_untouched_gen (W : string -> Prop) (record redacted : dict) :
  W "address" -> W "pin_code" ->
  untouched W redacted (fst (rule_address record redacted)).
Proof.
  intros Wa Wp. unfold rule_address.
  destruct (_ && _ && _); [|apply untouched_refl].
  destruct (5 <=? _); cbn [fst]; [|apply untouched_refl].
  eapply untouched_trans; apply untouched_set; assumption.
Qed.

Lemma all_lstrip (p : ascii -> bool) (s : string) :
  Str.all p s = true -> Str.all p (Str.lstrip s) = true.
Proof.
  induction s as [|x s IH]; cbn; [reflexivity|]. intro H.
  destruct (Char.space x); [|exact H].
  apply andb_true_iff in H as [_ H]. now apply IH.
Qed.

Lemma all_rstrip (p : ascii -> bool) (s : string) :
  Str.all p s = true -> Str.all p (Str.rstrip s) = true.
Proof.
  induction s as [|x s IH]; [reflexivity|]. cbn [Str.all Str.rstrip]. intro H.
  apply andb_true_iff in H as [Hx Hs]. specialize (IH Hs).
  destruct (Str.rstrip s) as [|y t].
  - destruct (Char.space x); cbn; [reflexivity | now rewrite Hx].
  - cbn [Str.all]. rewrite Hx. exact IH.
Qed.

Lemma first_name_after_gather (record : dict) :
  both_names record = true ->
  dict_get "first_name" (fst (gather record))
  = Some (VStr (mask_generic_name (py_str (get record "first_name")))).
Proof.
  intro B. unfold gather. cbn [fst].
  destruct (rule_device_untouched (fun k => k = "device_id" \/ k = "ip_address") record
              (fst (rule_address record
                      (fst (rule_name record
                              (fst (rule_email record
                                      (fst (check_standalone record record))))))))
              (fun _ => or_introl eq_refl) (fun _ => or_intror eq_refl)) as [G _].
  rewrite G by (intros [E|E]; discriminate E).
  destruct (rule_address_untouched_gen (fun k => k = "address" \/ k = "pin_code") record
              (fst (rule_name record
                      (fst (rule_email record (fst (check_standalone record record))))))
              (or_introl eq_refl) (or_intror eq_refl)) as [G' _].
  rewrite G' by (intros [E|E]; discriminate E).
  unfold rule_name. rewrite B. cbn [orb fst].
  destruct (truthy (get record "name")).
  - rewrite !dict_get_set_other by discriminate. apply dict_get_set_same.
  - rewrite dict_get_set_other by discriminate. apply dict_get_set_same.
Qed.

(** X19. A first_name of one word is not masked, although the name rule
    fired: with first_name and last_name both set, a first_name of fewer
    than two words, with no digit and no at sign in it, comes out stripped of
    the whitespace around it and otherwise as it was, whatever the verdict. *)
Theorem one_word_first_name_not_masked (record : dict) (s : string) :
  NoDup (keys record) ->
  get record "first_name" = VStr s ->
  s <> "" ->
  truthy (get record "last_name") = true ->
  List.length (Str.split (Str.strip s)) < 2 ->
  Str.all (fun c => negb (digit_or_at c)) s = true ->
  dict_get "first_name" (fst (detect_and_mask record)) = Some (VStr (Str.strip s)).
Proof.
  intros Hnd Hf Hne Tl Hw Hplain.
  assert (B : both_names record = true).
  { unfold both_names. rewrite Hf, Tl. cbn. destruct s; [contradiction | reflexivity]. }
  pose proof (first_name_after_gather record B) as G.
  rewrite Hf in G. cbn [py_str] in G.
  assert (M : mask_generic_name s = Str.strip s).
  { unfold mask_generic_name. apply Nat.leb_gt in Hw. now rewrite Hw. }
  rewrite M in G.
  destruct (verdict (evidence record)) eqn:V.
  - rewrite fst_detect_positive by assumption.
    apply finalize_keeps; [now apply gather_nodup | exact G|].
    apply no_hit_without_digit_or_at. unfold Str.strip.
    now apply all_rstrip, all_lstrip.
  - rewrite fst_detect_negative by assumption.
    assert (Tf : truthy (get record "first_name") = true).
    { rewrite Hf. cbn. destruct s; [contradiction | reflexivity]. }
    assert (Hno : ~ hit_by EMAIL_RE record "first_name").
    { intros (t & Hin & Mt).
      assert (Hget : dict_get "first_name" record = Some (VStr s)).
      { revert Hf. unfold get, get_or.
        destruct (dict_get "first_name" record); [now intros -> | discriminate]. }
      pose proof (in_unique "first_name" (VStr s) (VStr t) record Hnd Hget Hin) as E.
      injection E as ->.
      pose proof (no_hit_without_digit_or_at s Hplain) as N. cbn [value_hit] in N.
      rewrite Mt in N. cbn in N. rewrite ?orb_true_r in N. discriminate N. }
    unfold reconcile. cbv zeta. rewrite Tf, Tl. cbn [negb andb orb].
    match goal with
    | |- context [for_items ?body record ?red] =>
        assert (H1 : dict_get "first_name" (for_items body record red)
                     = Some (VStr (Str.strip s)))
    end.
    { match goal with
      | |- context [for_items ?body record ?red] =>
          destruct (for_items_untouched dict (fun d => d) (hit_by EMAIL_RE record)
                      body record) with (s := red) as [R _]
      end.
      - intros k v d Hin. destruct v as [t| | |]; try apply untouched_refl.
        destruct (matches EMAIL_RE t) eqn:Mt; [|apply untouched_refl].
        apply untouched_if_set. exists t. now split.
      - rewrite R by exact Hno. exact G. }
    destruct (truthy (get record "name") && _); [|exact H1].
    rewrite dict_get_set_other by discriminate. exact H1.
Qed.

Lemma one_word_first_name_witness :
  dict_get "first_name"
    (fst (detect_and_mask
            [("first_name", VStr " John "); ("last_name", VStr "Smith");
             ("email", VStr "a.b@example.org")]))
  = Some (VStr "John")
  /\ snd (detect_and_mask
            [("first_name", VStr " John "); ("last_name", VStr "Smith");
             ("email", VStr "a.b@example.org")]) = true.
Proof.
  split; [|reflexivity].
  apply (one_word_first_name_not_masked
           [("first_name", VStr " John "); ("last_name", VStr "Smith");
            ("email", VStr "a.b@example.org")] " John "); try reflexivity.
  - repeat constructor; cbn; intuition discriminate.
  - discriminate.
  - apply Nat.ltb_lt. reflexivity.
Defined.

(* ------------------------------------------------------------------ *)
(** *** The batch *)

Lemma process_row_id (json_loads : string -> option parsed) (r : csv_row) (o : out_row) :
  process_row json_loads r = Some o -> record_id o = record_id_of r.
Proof.
  unfold process_row. destruct (data_json_raw_of r) as [raw|].
  - destruct (parse_payload json_loads raw) as [record|]; [|discriminate].
    destruct (detect_and_mask record) as [d pii]. now intros [= <-].
  - now intros [= <-].
Qed.

(** X20. When the loop of [main] runs to its end, it has written one output
    row per input row, in the order of the input, each with the record id of
    its input row. *)
Theorem rows_out_one_per_row (json_loads : string -> option parsed)
        (rows : list csv_row) (outs : list out_row) :
  rows_out json_loads rows = Some outs ->
  List.length outs = List.length rows
  /\ map record_id outs = map record_id_of rows.
Proof.
  revert outs. induction rows as [|r rows IH]; intros outs H; cbn in H.
  - injection H as <-. split; reflexivity.
  - destruct (process_row json_loads r) as [o|] eqn:P; [|discriminate].
    destruct (rows_out json_loads rows) as [os|]; [|discriminate].
    injection H as <-. destruct (IH os eq_refl) as [L M].
    cbn. rewrite L, M, (process_row_id json_loads r o P). split; reflexivity.
Qed.

Lemma rows_out_one_per_row_witness :
  let rows := [ [("id", Some "1"); ("data", Some "{}")];
                [("record_id", Some "7"); ("Data_json", Some "{'phone': 98765")] ] in
  exists outs,
    rows_out loads_empty_object rows = Some outs
    /\ List.length outs = 2
    /\ map record_id outs = [Some "1"; Some "7"].
Proof.
  intro rows.
  destruct (rows_out loads_empty_object rows) as [outs|] eqn:E;
    [|vm_compute in E; discriminate E].
  exists outs. split; [reflexivity|].
  exact (rows_out_one_per_row loads_empty_object rows outs E).
Defined.

(* ------------------------------------------------------------------ *)
(** *** A phone field of ten digits *)

Lemma digit_word (c : ascii) : Char.digit c = true -> Char.word c = true.
Proof.
  destruct c as [[] [] [] [] [] [] [] []]; intro H; try discriminate H; reflexivity.
Qed.

Lemma digit_not_alpha (c : ascii) : Char.digit c = true -> Char.alpha c = false.
Proof.
  destruct c as [[] [] [] [] [] [] [] []]; intro H; try discriminate H; reflexivity.
Qed.

(** A repetition that must take exactly the characters in front of it. *)
Lemma rep_exact_app (A : Type) (p : ascii -> bool) (w : string) :
  forall n prev rest cs (k : kont A),
    length w = n -> Str.all p w = true ->
    rep p n (Some n) prev (w ++ rest) cs k = k (last_of prev w) rest cs.
Proof.
  induction w as [|c w IH]; intros n prev rest cs k Hn Hall.
  - cbn in Hn. subst n. cbn [append last_of]. destruct rest as [|x rest]; cbn [rep].
    + reflexivity.
    + cbn [more]. now rewrite andb_false_r.
  - cbn in Hn. subst n. cbn in Hall. apply andb_true_iff in Hall as [Hc Hw].
    cbn [append rep more dec pred last_of]. rewrite Hc. cbn [andb Nat.eqb].
    rewrite (IH (length w) (Some c) rest cs k eq_refl Hw).
    now destruct (k (last_of (Some c) w) rest cs).
Qed.

Lemma rep_exact (A : Type) (p : ascii -> bool) (w : string) (n : nat)
      (prev : option ascii) (cs : caps) (k : kont A) :
  length w = n -> Str.all p w = true ->
  rep p n (Some n) prev w cs k = k (last_of prev w) "" cs.
Proof.
  intros Hn Hall. rewrite <- (rep_exact_app A p w n prev "" cs k Hn Hall).
  now rewrite app_nil_r.
Qed.

Lemma first_digit (w : string) :
  w <> "" -> Str.all Char.digit w = true -> word_opt (first w) = true.
Proof.
  destruct w as [|c w]; [contradiction|]. intros _ H. cbn in H.
  apply andb_true_iff in H as [Hc _]. cbn. now apply digit_word.
Qed.

Lemma last_of_digit (w : string) :
  forall prev, w <> "" -> Str.all Char.digit w = true ->
               word_opt (last_of prev w) = true.
Proof.
  induction w as [|c w IH]; intros prev Hne Hall; [contradiction|].
  cbn in Hall. apply andb_true_iff in Hall as [Hc Hw]. cbn [last_of].
  destruct w as [|c' w]; [cbn; now apply digit_word|].
  apply IH; [discriminate | exact Hw].
Qed.

(** The phone pattern matches a text of exactly ten digits. *)
Lemma phone_matches_ten_digits (w : string) :
  length w = 10 -> Str.all Char.digit w = true -> matches PHONE_RE w = true.
Proof.
  intros Hl Hall. unfold matches, search.
  assert (Hne : w <> "") by (intros ->; discriminate Hl).
  assert (E : exists m, match_here PHONE_RE None w = Some m).
  { unfold match_here, PHONE_RE. cbn [run].
    rewrite (first_digit w Hne Hall). cbn [word_opt xorb].
    rewrite (rep_exact _ Char.digit w 10 None _ _ Hl Hall).
    rewrite (last_of_digit w None Hne Hall).
    cbn [first word_opt xorb]. eauto. }
  destruct E as [[n cs] E]. destruct w; cbn [search_from]; now rewrite E.
Qed.

Lemma ten_digits_no_other_match (t : string) :
  length t = 10 -> Str.all Char.digit t = true ->
  forall r, In r [AADHAR_RE; PASSPORT_RE; UPI_RE; EMAIL_RE] -> matches r t = false.
Proof.
  intros Hl Hall r Hr. destruct (matches r t) eqn:M; [|reflexivity]. exfalso.
  apply matches_search in M as [m M].
  apply search_den in M as (pre & w & post & cs' & -> & D & _ & _).
  rewrite !all_app in Hall. rewrite !length_app in Hl.
  apply andb_true_iff in Hall as [_ Hall]. apply andb_true_iff in Hall as [Hw _].
  destruct Hr as [<-|[<-|[<-|[<-|[]]]]].
  - unfold AADHAR_RE in D. invert_den. rewrite !length_app in Hl. cbn in Hl. lia.
  - unfold PASSPORT_RE in D. invert_den.
    match goal with
    | Hl1 : 1 <= length ?a, Ha : Str.all Char.alpha ?a = true |- _ =>
        destruct a as [|c a]; [cbn in Hl1; lia|];
        cbn in Ha; apply andb_true_iff in Ha as [Hc _];
        cbn in Hw; apply andb_true_iff in Hw as [Hd _];
        rewrite (digit_not_alpha c Hd) in Hc; discriminate Hc
    end.
  - unfold UPI_RE in D. invert_den.
    repeat match goal with
           | E : Char.eq _ _ = true |- _ => apply Ascii.eqb_eq in E; subst
           end.
    rewrite !all_app in Hw. cbn in Hw. rewrite ?andb_false_r in Hw.
    repeat (apply andb_true_iff in Hw as [? Hw]); discriminate.
  - unfold EMAIL_RE in D. invert_den.
    repeat match goal with
           | E : Char.eq _ _ = true |- _ => apply Ascii.eqb_eq in E; subst
           end.
    rewrite !all_app in Hw. cbn in Hw. rewrite ?andb_false_r in Hw.
    repeat (apply andb_true_iff in Hw as [? Hw]); discriminate.
Qed.

Lemma at_sign_needed (r : regex) (t : string) :
  In r [UPI_RE; EMAIL_RE] -> matches r t = true -> Str.contains "@" t = true.
Proof.
  intros Hr M. apply matches_search in M as [m M].
  apply search_den in M as (pre & w & post & cs' & -> & D & _ & _).
  destruct Hr as [<-|[<-|[]]].
  - unfold UPI_RE in D. invert_den.
    repeat match goal with
           | E : Char.eq _ _ = true |- _ => apply Ascii.eqb_eq in E; subst
           end.
    rewrite !contains_app; cbn [Str.contains append];
      rewrite ?contains_app; cbn [Str.contains].
    cbn. now rewrite ?orb_true_r.
  - unfold EMAIL_RE in D. invert_den.
    repeat match goal with
           | E : Char.eq _ _ = true |- _ => apply Ascii.eqb_eq in E; subst
           end.
    rewrite !contains_app; cbn [Str.contains append];
      rewrite ?contains_app; cbn [Str.contains].
    cbn. now rewrite ?orb_true_r.
Qed.

Lemma digit_not_at (c : ascii) : Char.digit c = true -> Ascii.eqb c "@" = false.
Proof.
  destruct c as [[] [] [] [] [] [] [] []]; intro H; try discriminate H; reflexivity.
Qed.

Lemma masked_phone_no_digit_hit_all :
  forallb (fun a => forallb (fun b => forallb (fun c => forallb (fun d =>
     masked_phone_no_digit_hit a b c d) digit_chars) digit_chars) digit_chars) digit_chars
  = true.
Proof. vm_compute. reflexivity. Qed.

Lemma masked_phone_no_hit_digits (a b c d : ascii) :
  Char.digit a = true -> Char.digit b = true ->
  Char.digit c = true -> Char.digit d = true ->
  value_hit (VStr (masked_phone a b c d)) = false.
Proof.
  intros Ha Hb Hc Hd.
  pose proof masked_phone_no_digit_hit_all as H.
  rewrite forallb_forall in H. specialize (H a (digit_in a Ha)).
  rewrite forallb_forall in H. specialize (H b (digit_in b Hb)).
  rewrite forallb_forall in H. specialize (H c (digit_in c Hc)).
  rewrite forallb_forall in H. specialize (H d (digit_in d Hd)).
  unfold masked_phone_no_digit_hit in H. apply negb_true_iff in H.
  repeat (apply orb_false_iff in H as [H ?]).
  assert (Hat : Str.contains "@" (masked_phone a b c d) = false).
  { unfold masked_phone. cbn.
    now rewrite (digit_not_at a Ha), (digit_not_at b Hb), (digit_not_at c Hc),
      (digit_not_at d Hd). }
  assert (N : forall r, In r [UPI_RE; EMAIL_RE] -> matches r (masked_phone a b c d) = false).
  { intros r Hr. destruct (matches r (masked_phone a b c d)) eqn:M; [|reflexivity].
    rewrite (at_sign_needed r _ Hr M) in Hat. discriminate Hat. }
  cbn [value_hit].
  rewrite (N UPI_RE), (N EMAIL_RE) by (cbn; auto).
  repeat match goal with E : matches _ _ = false |- _ => rewrite E; clear E end.
  reflexivity.
Qed.

Lemma ten_digits_masked (s : string) :
  length s = 10 -> Str.all Char.digit s = true ->
  exists a b c d,
    Char.digit a = true /\ Char.digit b = true /\ Char.digit c = true
    /\ Char.digit d = true
    /\ Str.take 2 s ++ "XXXXXX" ++ Str.drop 8 s = masked_phone a b c d.
Proof.
  intros Hlen Hall.
  do 10 (destruct s as [|? s]; [discriminate Hlen|]).
  destruct s; [|discriminate Hlen].
  cbn [Str.all] in Hall.
  repeat match goal with
         | H : _ && _ = true |- _ => apply andb_true_iff in H as [? H]
         end.
  match goal with
  | |- context [Str.take 2 (String ?a (String ?b _))] =>
      match goal with
      | |- context [Str.drop 8 (String _ (String _ (String _ (String _ (String _
                   (String _ (String _ (String _ (String ?c (String ?d ""))))))))))] =>
          exists a, b, c, d
      end
  end.
  repeat split; assumption || reflexivity.
Qed.

Lemma rule_aadhar_writes (record : dict) (x : scan) :
  untouched (hit_by AADHAR_RE record) (fst x) (fst (rule_aadhar record x)).
Proof.
  unfold rule_aadhar. apply for_items_untouched with (proj := fst).
  intros k v y Hin. destruct v as [s| | |]; try apply untouched_refl.
  destruct (matches AADHAR_RE s) eqn:M; [|apply untouched_refl].
  apply untouched_mark. exists s. now split.
Qed.

Lemma rule_passport_writes (record : dict) (x : scan) :
  untouched (hit_by PASSPORT_RE record) (fst x) (fst (rule_passport record x)).
Proof.
  unfold rule_passport. apply for_items_untouched with (proj := fst).
  intros k v y Hin. destruct v as [s| | |]; try apply untouched_refl.
  destruct (matches PASSPORT_RE s) eqn:M; [|apply untouched_refl].
  apply untouched_mark. exists s. now split.
Qed.

Lemma rule_upi_writes (record : dict) (x : scan) :
  untouched (fun k => k = "upi_id" \/ hit_by UPI_RE record k) (fst x)
    (fst (rule_upi record x)).
Proof.
  unfold rule_upi.
  destruct (dict_mem "upi_id" record && truthy (get record "upi_id")).
  - destruct (matches UPI_RE _); [|apply untouched_refl].
    apply untouched_mark. now left.
  - apply for_items_untouched with (proj := fst).
    intros k v y Hin. destruct v as [s| | |]; try apply untouched_refl.
    destruct (Str.contains "@" s); cbn [andb]; [|apply untouched_refl].
    destruct (matches UPI_RE s) eqn:M; [|apply untouched_refl].
    destruct (negb _); [|apply untouched_refl].
    apply untouched_mark. right. exists s. now split.
Qed.

Lemma phone_after_rule_1 (record : dict) (x : scan) :
  phone_field_hit record "phone" = true ->
  dict_get "phone" (fst (rule_phone_fields record x))
  = Some (VStr (mask_phone (py_str (get record "phone")))).
Proof.
  intro H. unfold rule_phone_fields, phone_fields. cbn [fold_left].
  fold (phone_field_hit record "phone").
  assert (E : (if dict_mem "phone" record && truthy (get record "phone")
               then if matches PHONE_RE (py_str (get record "phone"))
                    then mark "phone" (mask_phone (py_str (get record "phone"))) x else x
               else x)
              = mark "phone" (mask_phone (py_str (get record "phone"))) x).
  { unfold phone_field_hit in H. apply andb_true_iff in H as [H1 H2]. now rewrite H1, H2. }
  rewrite E.
  destruct (dict_mem "contact" record && truthy (get record "contact"));
    [destruct (matches PHONE_RE (py_str (get record "contact")))|];
    unfold mark; cbn [fst]; rewrite ?dict_get_set_other by discriminate;
    apply dict_get_set_same.
Qed.

(** Rule 2 passes over a field that already holds an X. *)
Lemma rule_phone_any_keeps_masked (record : dict) (f t : string) (x : scan) :
  Str.contains "X" t = true ->
  dict_get f (fst x) = Some (VStr t) ->
  dict_get f (fst (rule_phone_any record x)) = Some (VStr t).
Proof.
  intros HX. unfold rule_phone_any.
  apply (for_items_inv scan (fun y => dict_get f (fst y) = Some (VStr t))).
  intros k v y _ Hy. destruct v as [s| | |]; try exact Hy.
  destruct (matches PHONE_RE s); [|exact Hy].
  destruct (String.eqb f k) eqn:E.
  - apply String.eqb_eq in E. subst k.
    unfold dict_mem, get_or. rewrite Hy. cbn [py_str negb orb]. rewrite HX. exact Hy.
  - destruct (negb _ || negb _); [|exact Hy].
    unfold mark. cbn [fst]. rewrite dict_get_set, E. exact Hy.
Qed.

Lemma digits_truthy (v : value) :
  length (py_str v) = 10 -> Str.all Char.digit (py_str v) = true -> truthy v = true.
Proof.
  destruct v as [s|z|[]|]; cbn [py_str truthy]; intros Hl Ha; try discriminate Ha.
  - destruct s; [discriminate Hl | reflexivity].
  - destruct z; [discriminate Hl | reflexivity | reflexivity].
Qed.

(** X22. A phone field whose value, a string or an integer, is exactly ten
    digits always gives a positive verdict and comes out as its first two
    digits, six X and its last two digits. *)
Theorem ten_digit_phone_field (record : dict) (v : value) :
  NoDup (keys record) ->
  dict_get "phone" record = Some v ->
  length (py_str v) = 10 ->
  Str.all Char.digit (py_str v) = true ->
  snd (detect_and_mask record) = true
  /\ dict_get "phone" (fst (detect_and_mask record))
     = Some (VStr (Str.take 2 (py_str v) ++ "XXXXXX" ++ Str.drop 8 (py_str v))).
Proof.
  intros Hnd Hget Hl Ha.
  pose proof (get_of_dict_get record "phone" v Hget) as Hg.
  assert (Hhit : phone_field_hit record "phone" = true).
  { unfold phone_field_hit, dict_mem. rewrite Hget, Hg.
    rewrite (digits_truthy v Hl Ha), (phone_matches_ten_digits _ Hl Ha). reflexivity. }
  assert (V : verdict (evidence record) = true).
  { unfold verdict. replace (standalone_found (evidence record)) with true; [reflexivity|].
    unfold evidence, gather. cbn [snd standalone_found].
    rewrite (check_standalone_flag record Hnd). unfold standalone_by_record, phone_fields.
    cbn [existsb]. now rewrite Hhit. }
  split; [now rewrite snd_detect_and_mask|].
  set (masked := Str.take 2 (py_str v) ++ "XXXXXX" ++ Str.drop 8 (py_str v)).
  assert (Hmask : mask_phone (py_str v) = masked).
  { rewrite mask_phone_by_only_digits, (only_digits_id _ Ha), Hl. reflexivity. }
  assert (HX : Str.contains "X" masked = true).
  { unfold masked. rewrite !contains_app. cbn. now rewrite orb_true_r. }
  assert (Hother : forall r, In r [AADHAR_RE; PASSPORT_RE; UPI_RE; EMAIL_RE] ->
                             ~ hit_by r record "phone").
  { intros r Hr (t & Hin & M).
    pose proof (in_unique "phone" v (VStr t) record Hnd Hget Hin) as E.
    rewrite <- E in Hl, Ha. cbn [py_str] in Hl, Ha.
    rewrite (ten_digits_no_other_match t Hl Ha r Hr) in M.
    discriminate M. }
  assert (G : dict_get "phone" (fst (gather record)) = Some (VStr masked)).
  { unfold gather. cbn [fst].
    destruct (combinatorial_rules_write record
                (fst (rule_email record (fst (check_standalone record record)))))
      as [G1 _].
    rewrite G1 by (cbn; intuition discriminate).
    destruct (rule_email_writes record (fst (check_standalone record record))) as [G2 _].
    rewrite G2 by (apply Hother; cbn; auto).
    unfold check_standalone.
    match goal with
    | |- dict_get _ (fst (rule_upi record ?y)) = _ =>
        destruct (rule_upi_writes record y) as [G3 _]
    end.
    rewrite G3 by (intros [E|E]; [discriminate E | revert E; apply Hother; cbn; auto]).
    match goal with
    | |- dict_get _ (fst (rule_passport record ?y)) = _ =>
        destruct (rule_passport_writes record y) as [G4 _]
    end.
    rewrite G4 by (apply Hother; cbn; auto).
    match goal with
    | |- dict_get _ (fst (rule_aadhar record ?y)) = _ =>
        destruct (rule_aadhar_writes record y) as [G5 _]
    end.
    rewrite G5 by (apply Hother; cbn; auto).
    apply rule_phone_any_keeps_masked; [exact HX|].
    rewrite (phone_after_rule_1 record (record, false) Hhit), Hg, Hmask. reflexivity. }
  rewrite fst_detect_positive by assumption.
  apply finalize_keeps; [now apply gather_nodup | exact G|].
  destruct (ten_digits_masked (py_str v) Hl Ha) as (a & b & c & d & Da & Db & Dc & Dd & E).
  unfold masked. rewrite E. now apply masked_phone_no_hit_digits.
Qed.

Lemma ten_digit_phone_witness :
  snd (detect_and_mask [("phone", VInt 9876543210); ("k", VInt 0)]) = true
  /\ dict_get "phone" (fst (detect_and_mask [("phone", VInt 9876543210); ("k", VInt 0)]))
     = Some (VStr "98XXXXXX10").
Proof.
  apply (ten_digit_phone_field [("phone", VInt 9876543210); ("k", VInt 0)]
           (VInt 9876543210)); try reflexivity.
  repeat constructor; cbn; intuition discriminate.
Defined.
